(** * fortunebot: a shallow embedding of cmd/fortunebot/main.go

    Go strings are byte sequences; they are modelled by [string] (a list of
    8-bit [ascii] values), and the library functions that look at runes
    ([strings.TrimSpace], [encoding/json]) decode UTF-8 as Go does.  Go's
    [int], [int64] and [time.Duration] are 64-bit two's-complement
    integers, modelled by [Z] with the wrap-around written out ([wrap64]).

    The file system, the environment, the clock, the network and process
    creation are made explicit: [Env] holds what the outside answers,
    [State] what a run changes or emits, and every effectful function
    threads a [State].  [main] starts where [loadDotEnv] and [flag.Parse]
    have returned: [Getenv] is the environment [loadDotEnv] leaves and
    [Flags] the parsed command line.

    The [float64] timestamp of a cache entry is written from an [int64]
    and read back through [int64(...)] only; it is modelled by its integer
    part. *)

From Stdlib Require Import ZArith NArith List String Ascii Bool Lia.
From Stdlib Require Import Decimal DecimalString.
From Stdlib Require DecimalFacts DecimalPos.
Import ListNotations.
Open Scope string_scope.
Open Scope Z_scope.

(** ** The [strings] package *)

Module strings.

(** Byte value of a character. *)
Definition byte (c : ascii) : N := N_of_ascii c.

(** Length in bytes of the white-space rune encoded at the head of [s]
    ([unicode.IsSpace]: TAB, LF, VT, FF, CR, SPACE, U+0085, U+00A0, U+1680,
    U+2000..U+200A, U+2028, U+2029, U+202F, U+205F, U+3000, each in its
    UTF-8 encoding), 0 when [s] does not start with such a rune. *)
Definition spaceLen (s : string) : nat :=
  match s with
  | EmptyString => 0%nat
  | String a r =>
    let x := byte a in
    if ((9 <=? x) && (x <=? 13) || (x =? 32))%N then 1%nat
    else match r with
    | EmptyString => 0%nat
    | String b r' =>
      let y := byte b in
      if ((x =? 194) && ((y =? 133) || (y =? 160)))%N then 2%nat
      else match r' with
      | EmptyString => 0%nat
      | String c _ =>
        let z := byte c in
        if ((x =? 225) && (y =? 154) && (z =? 128))%N then 3%nat
        else if ((x =? 226) && (y =? 128) &&
                 ((128 <=? z) && (z <=? 138) || (z =? 168) || (z =? 169)
                  || (z =? 175)))%N then 3%nat
        else if ((x =? 226) && (y =? 129) && (z =? 159))%N then 3%nat
        else if ((x =? 227) && (y =? 128) && (z =? 128))%N then 3%nat
        else 0%nat
      end
    end
  end.

(** The same, for the rune encoded at the end of a string, given the
    string reversed. *)
Definition spaceLenRev (s : string) : nat :=
  match s with
  | EmptyString => 0%nat
  | String a r =>
    let x := byte a in
    if ((9 <=? x) && (x <=? 13) || (x =? 32))%N then 1%nat
    else match r with
    | EmptyString => 0%nat
    | String b r' =>
      let y := byte b in
      if ((y =? 194) && ((x =? 133) || (x =? 160)))%N then 2%nat
      else match r' with
      | EmptyString => 0%nat
      | String c _ =>
        let z := byte c in
        if ((z =? 225) && (y =? 154) && (x =? 128))%N then 3%nat
        else if ((z =? 226) && (y =? 128) &&
                 ((128 <=? x) && (x <=? 138) || (x =? 168) || (x =? 169)
                  || (x =? 175)))%N then 3%nat
        else if ((z =? 226) && (y =? 129) && (x =? 159))%N then 3%nat
        else if ((z =? 227) && (y =? 128) && (x =? 128))%N then 3%nat
        else 0%nat
      end
    end
  end.

Fixpoint drop (n : nat) (s : string) : string :=
  match n, s with
  | O, _ => s
  | S n', String _ r => drop n' r
  | S _, EmptyString => EmptyString
  end.

(** Strip white-space runes from the head; [fuel] bounds the number of
    runes removed and [String.length s] always suffices. *)
Fixpoint trimWith (len : string -> nat) (fuel : nat) (s : string) : string :=
  match fuel with
  | O => s
  | S fuel' =>
    match len s with
    | O => s
    | n => trimWith len fuel' (drop n s)
    end
  end.

Definition rev (s : string) : string :=
  string_of_list_ascii (List.rev (list_ascii_of_string s)).

Definition TrimLeftSpace (s : string) : string :=
  trimWith spaceLen (String.length s) s.

Definition TrimRightSpace (s : string) : string :=
  rev (trimWith spaceLenRev (String.length s) (rev s)).

(** [strings.TrimSpace]. *)
Definition TrimSpace (s : string) : string :=
  TrimRightSpace (TrimLeftSpace s).

(** [strings.HasPrefix s p]. *)
Definition HasPrefix (s p : string) : bool := String.prefix p s.

(** [s == ""]. *)
Definition isEmpty (s : string) : bool :=
  match s with EmptyString => true | _ => false end.

(** Cut [s] at the first occurrence of the byte [sep]. *)
Fixpoint cut (sep : ascii) (s : string) : option (string * string) :=
  match s with
  | EmptyString => None
  | String c r =>
    if Ascii.eqb c sep then Some (EmptyString, r)
    else match cut sep r with
         | Some (a, b) => Some (String c a, b)
         | None => None
         end
  end.

(** [strings.Split s sep] for a one-byte separator. *)
Fixpoint Split (sep : ascii) (s : string) : list string :=
  match s with
  | EmptyString => [EmptyString]
  | String c r =>
    if Ascii.eqb c sep then EmptyString :: Split sep r
    else match Split sep r with
         | h :: t => String c h :: t
         | [] => [String c EmptyString]
         end
  end.

(** [strings.SplitN s sep 2] for a one-byte separator. *)
Definition SplitN2 (sep : ascii) (s : string) : list string :=
  match cut sep s with
  | Some (a, b) => [a; b]
  | None => [s]
  end.

End strings.

(** ** The [unicode/utf8] package *)

Module utf8.
Import strings.

Definition RuneError : N := 65533.

(** Continuation byte, 10xxxxxx. *)
Definition cont (y : N) : bool := ((128 <=? y) && (y <=? 191))%N.

(** Two, three and four byte sequences accepted by [utf8.DecodeRune]
    (no overlong forms, no surrogates, nothing above U+10FFFF). *)
Definition ok2 (x y : N) : bool :=
  ((194 <=? x) && (x <=? 223))%N && cont y.

Definition ok3 (x y z : N) : bool :=
  (((x =? 224) && (160 <=? y) && (y <=? 191))
   || ((225 <=? x) && (x <=? 236) && cont y)
   || ((x =? 237) && (128 <=? y) && (y <=? 159))
   || ((238 <=? x) && (x <=? 239) && cont y))%N && cont z.

Definition ok4 (x y z w : N) : bool :=
  (((x =? 240) && (144 <=? y) && (y <=? 191))
   || ((241 <=? x) && (x <=? 243) && cont y)
   || ((x =? 244) && (128 <=? y) && (y <=? 143)))%N && cont z && cont w.

Definition rune2 (x y : N) : N := ((x - 192) * 64 + (y - 128))%N.
Definition rune3 (x y z : N) : N :=
  ((x - 224) * 4096 + (y - 128) * 64 + (z - 128))%N.
Definition rune4 (x y z w : N) : N :=
  ((x - 240) * 262144 + (y - 128) * 4096 + (z - 128) * 64 + (w - 128))%N.

(** [utf8.DecodeRune]: the rune at the head of [s] and what follows it.
    An invalid or truncated encoding yields [RuneError] and consumes one
    byte; [None] on the empty string. *)
Definition DecodeRune (s : string) : option (N * string) :=
  match s with
  | EmptyString => None
  | String a r1 =>
    let x := byte a in
    if (x <? 128)%N then Some (x, r1)
    else match r1 with
    | String b r2 =>
      let y := byte b in
      if ok2 x y then Some (rune2 x y, r2)
      else match r2 with
      | String c r3 =>
        let z := byte c in
        if ok3 x y z then Some (rune3 x y z, r3)
        else match r3 with
        | String d r4 =>
          let w := byte d in
          if ok4 x y z w then Some (rune4 x y z w, r4)
          else Some (RuneError, r1)
        | EmptyString => Some (RuneError, r1)
        end
      | EmptyString => Some (RuneError, r1)
      end
    | EmptyString => Some (RuneError, r1)
    end
  end.

Definition chr (n : N) : ascii := ascii_of_N n.

(** [utf8.EncodeRune]; surrogates and values above U+10FFFF are encoded
    as [RuneError]. *)
Definition EncodeRune (r : N) : string :=
  if (r <? 128)%N then String (chr r) ""
  else if (r <? 2048)%N then
    String (chr (192 + r / 64)) (String (chr (128 + r mod 64)) "")
  else if ((55296 <=? r) && (r <? 57344) || (1114111 <? r))%N then
    String (chr 239) (String (chr 191) (String (chr 189) ""))
  else if (r <? 65536)%N then
    String (chr (224 + r / 4096))
      (String (chr (128 + (r / 64) mod 64))
         (String (chr (128 + r mod 64)) ""))
  else
    String (chr (240 + r / 262144))
      (String (chr (128 + (r / 4096) mod 64))
         (String (chr (128 + (r / 64) mod 64))
            (String (chr (128 + r mod 64)) ""))).

(** A string made of well-formed encodings only. *)
Inductive Valid : string -> Prop :=
| valid_nil : Valid ""
| valid_1 a r : (byte a <? 128)%N = true -> Valid r -> Valid (String a r)
| valid_2 a b r : ok2 (byte a) (byte b) = true -> Valid r ->
    Valid (String a (String b r))
| valid_3 a b c r : ok3 (byte a) (byte b) (byte c) = true -> Valid r ->
    Valid (String a (String b (String c r)))
| valid_4 a b c d r :
    ok4 (byte a) (byte b) (byte c) (byte d) = true -> Valid r ->
    Valid (String a (String b (String c (String d r)))).

(** [utf8.ValidString]. *)
Fixpoint ValidString (s : string) : bool :=
  match s with
  | EmptyString => true
  | String a r1 =>
    let x := byte a in
    if (x <? 128)%N then ValidString r1
    else match r1 with
    | String b r2 =>
      let y := byte b in
      if ok2 x y then ValidString r2
      else match r2 with
      | String c r3 =>
        let z := byte c in
        if ok3 x y z then ValidString r3
        else match r3 with
        | String d r4 =>
          ok4 x y z (byte d) && ValidString r4
        | EmptyString => false
        end
      | EmptyString => false
      end
    | EmptyString => false
    end
  end.

End utf8.

(** ** [float64], as far as the program needs it

    The program converts integers to [float64] and back, parses decimal
    literals and divides and adds small numbers; all of it is rounding
    to the nearest float, ties to even, done here on integers.  A float
    is a pair [(m, e)] standing for [m * 2^e]. *)

Module float64.

(** Round a non-negative integer to 53 significant bits, ties to even. *)
Definition round53 (n : Z) : Z :=
  let k := Z.log2 n - 52 in
  if k <=? 0 then n
  else
    let q := n / 2 ^ k in
    let r := n mod 2 ^ k in
    let half := 2 ^ (k - 1) in
    if (half <? r) || ((r =? half) && Z.odd q)
    then (q + 1) * 2 ^ k else q * 2 ^ k.

(** The float nearest to [p / q], for [p >= 0] and [q > 0], above the
    subnormal range: the quotient is taken with at least two guard bits
    and a sticky bit, then rounded. *)
Definition nearest (p q : Z) : Z * Z :=
  if p =? 0 then (0, 0)
  else
    let e := Z.log2 p - Z.log2 q - 56 in
    let num := if e <? 0 then p * 2 ^ (- e) else p in
    let den := if e <? 0 then q else q * 2 ^ e in
    let jam := 2 * (num / den) + (if num mod den =? 0 then 0 else 1) in
    (round53 jam, e - 1).

(** The integer part of [m * 2^e], for [m >= 0]. *)
Definition truncScaled (m e : Z) : Z :=
  if e <? 0 then m / 2 ^ (- e) else m * 2 ^ e.

(** Integer part of the float nearest to [p / q]. *)
Definition nearestTrunc (p q : Z) : Z :=
  let (m, e) := nearest p q in truncScaled m e.

(** Values at or above [2^1024 - 2^970] round to infinity, which
    [ParseFloat] reports as a range error. *)
Definition overflows (p q : Z) : bool :=
  (2 ^ 1024 - 2 ^ 970) * q <=? p.

End float64.

(** ** The [encoding/json] package: strings *)

Module json.
Import strings utf8.

Definition hexDigit (n : N) : ascii :=
  if (n <? 10)%N then chr (48 + n) else chr (87 + n).

(** [\u00XX] for a byte below 128. *)
Definition escU00 (x : N) : string :=
  "\u00" ++ String (hexDigit (x / 16)) (String (hexDigit (x mod 16)) "").

(** What [appendString] (with HTML escaping, as [json.Marshal] sets it)
    writes for one byte below 128.  Backspace and form feed are written
    [\b] and [\f] since Go 1.22, [\u0008] and [\u000c] before; both
    spellings are read back as the same byte. *)
Definition escByte (a : ascii) : string :=
  let x := byte a in
  if ((x =? 34) || (x =? 92))%N then String "\" (String a "")
  else if (x =? 8)%N then "\b"
  else if (x =? 12)%N then "\f"
  else if (x =? 10)%N then "\n"
  else if (x =? 13)%N then "\r"
  else if (x =? 9)%N then "\t"
  else if ((x <? 32) || (x =? 60) || (x =? 62) || (x =? 38))%N then escU00 x
  else String a "".

(** The body of the JSON string [appendString] writes for [s]: bytes
    that are not part of a well-formed encoding become [\ufffd], U+2028
    and U+2029 are escaped, every other rune is copied. *)
Fixpoint quoteBody (s : string) : string :=
  match s with
  | EmptyString => ""
  | String a r1 =>
    let x := byte a in
    if (x <? 128)%N then escByte a ++ quoteBody r1
    else match r1 with
    | String b r2 =>
      let y := byte b in
      if ok2 x y then String a (String b (quoteBody r2))
      else match r2 with
      | String c r3 =>
        let z := byte c in
        if ok3 x y z then
          (if ((x =? 226) && (y =? 128) && ((z =? 168) || (z =? 169)))%N
           then "\u202" ++ String (hexDigit (z - 160)) ""
           else String a (String b (String c "")))
          ++ quoteBody r3
        else match r3 with
        | String d r4 =>
          if ok4 x y z (byte d)
          then String a (String b (String c (String d (quoteBody r4))))
          else "\ufffd" ++ quoteBody r1
        | EmptyString => "\ufffd" ++ quoteBody r1
        end
      | EmptyString => "\ufffd" ++ quoteBody r1
      end
    | EmptyString => "\ufffd" ++ quoteBody r1
    end
  end.

Definition dquote : ascii := chr 34.

Definition quote (s : string) : string :=
  String dquote (quoteBody s ++ String dquote "").

Definition hexVal (a : ascii) : option N :=
  let x := byte a in
  if ((48 <=? x) && (x <=? 57))%N then Some (x - 48)%N
  else if ((97 <=? x) && (x <=? 102))%N then Some (x - 87)%N
  else if ((65 <=? x) && (x <=? 70))%N then Some (x - 55)%N
  else None.

(** Four hexadecimal digits at the head of [s]. *)
Definition hex4 (s : string) : option (N * string) :=
  match s with
  | String a (String b (String c (String d r))) =>
    match hexVal a, hexVal b, hexVal c, hexVal d with
    | Some h3, Some h2, Some h1, Some h0 =>
      Some (h3 * 4096 + h2 * 256 + h1 * 16 + h0, r)%N
    | _, _, _, _ => None
    end
  | _ => None
  end.

(** [getu4]: a [\uXXXX] escape at the head of [s]. *)
Definition getu4 (s : string) : option (N * string) :=
  match s with
  | String a (String b r) =>
    if ((byte a =? 92) && (byte b =? 117))%N then hex4 r else None
  | _ => None
  end.

(** The byte a one-letter escape stands for. *)
Definition unescape (x : N) : option N :=
  if ((x =? 34) || (x =? 92) || (x =? 47))%N then Some x
  else if (x =? 98)%N then Some 8%N
  else if (x =? 102)%N then Some 12%N
  else if (x =? 110)%N then Some 10%N
  else if (x =? 114)%N then Some 13%N
  else if (x =? 116)%N then Some 9%N
  else None.

Definition isSurrogate (r : N) : bool := ((55296 <=? r) && (r <? 57344))%N.

(** [utf16.DecodeRune], when the pair is a high and a low surrogate. *)
Definition surrogatePair (r1 r2 : N) : option N :=
  if ((55296 <=? r1) && (r1 <? 56320) && (56320 <=? r2) && (r2 <? 57344))%N
  then Some ((r1 - 55296) * 1024 + (r2 - 56320) + 65536)%N
  else None.

Definition cons_to (pre : string) (k : option (string * string))
  : option (string * string) :=
  match k with
  | Some (body, rest) => Some (pre ++ body, rest)
  | None => None
  end.

(** The scanner and [unquote] together, from just after the opening
    quote: the decoded text and the input after the closing quote.  Every
    step consumes a byte, so [S (String.length s)] is enough fuel. *)
Fixpoint unquoteBody (fuel : nat) (s : string) : option (string * string) :=
  match fuel with
  | O => None
  | S fuel' =>
    match s with
    | EmptyString => None
    | String a r =>
      let x := byte a in
      if (x =? 34)%N then Some ("", r)
      else if (x =? 92)%N then
        match r with
        | EmptyString => None
        | String e r' =>
          match unescape (byte e) with
          | Some y => cons_to (String (chr y) "") (unquoteBody fuel' r')
          | None =>
            if (byte e =? 117)%N then
              match hex4 r' with
              | None => None
              | Some (rr, r'') =>
                if isSurrogate rr then
                  match getu4 r'' with
                  | Some (rr1, r3) =>
                    match surrogatePair rr rr1 with
                    | Some dec => cons_to (EncodeRune dec) (unquoteBody fuel' r3)
                    | None =>
                      cons_to (EncodeRune RuneError) (unquoteBody fuel' r'')
                    end
                  | None =>
                    cons_to (EncodeRune RuneError) (unquoteBody fuel' r'')
                  end
                else cons_to (EncodeRune rr) (unquoteBody fuel' r'')
              end
            else None
          end
        end
      else if (x <? 32)%N then None
      else if (x <? 128)%N then cons_to (String a "") (unquoteBody fuel' r)
      else
        match DecodeRune s with
        | Some (rr, rest) => cons_to (EncodeRune rr) (unquoteBody fuel' rest)
        | None => None
        end
    end
  end.

Definition unquote (s : string) : option (string * string) :=
  unquoteBody (S (String.length s)) s.

(** *** Values *)

#[warnings="-register-all"]
Inductive value : Type :=
| Null
| Bool (b : bool)
| Number (lit : string)
| Str (s : string)
| Array (elems : list value)
| Object (members : list (string * value)).

Definition isWS (x : N) : bool :=
  ((x =? 32) || (x =? 9) || (x =? 13) || (x =? 10))%N.

Fixpoint skipWS (s : string) : string :=
  match s with
  | String a r => if isWS (byte a) then skipWS r else s
  | EmptyString => s
  end.

Definition isDigit (x : N) : bool := ((48 <=? x) && (x <=? 57))%N.

(** The longest run of decimal digits at the head of [s]. *)
Fixpoint digits (s : string) : string * string :=
  match s with
  | String a r =>
    if isDigit (byte a) then let (d, r') := digits r in (String a d, r')
    else ("", s)
  | EmptyString => ("", s)
  end.

(** One or more digits. *)
Definition digits1 (s : string) : option (string * string) :=
  match digits s with
  | (EmptyString, _) => None
  | (d, r) => Some (d, r)
  end.

(** A number literal: an optional minus sign; a zero, or a non-zero digit
    and any digits; optionally a point and one or more digits; optionally
    [e] or [E], an optional sign, and one or more digits. *)
Definition scanInt (s : string) : option (string * string) :=
  match s with
  | String a r =>
    if (byte a =? 48)%N then Some (String a "", r)
    else if isDigit (byte a) then Some (digits s)
    else None
  | EmptyString => None
  end.

Definition scanFrac (s : string) : option (string * string) :=
  match s with
  | String a r =>
    if (byte a =? 46)%N then cons_to (String a "") (digits1 r)
    else Some ("", s)
  | EmptyString => Some ("", s)
  end.

Definition scanExp (s : string) : option (string * string) :=
  match s with
  | String a r =>
    if ((byte a =? 101) || (byte a =? 69))%N then
      match r with
      | String b r' =>
        if ((byte b =? 43) || (byte b =? 45))%N
        then cons_to (String a (String b "")) (digits1 r')
        else cons_to (String a "") (digits1 r)
      | EmptyString => None
      end
    else Some ("", s)
  | EmptyString => Some ("", s)
  end.

Definition scanUnsigned (s : string) : option (string * string) :=
  match scanInt s with
  | Some (i, r1) =>
    match scanFrac r1 with
    | Some (f, r2) => cons_to (i ++ f) (scanExp r2)
    | None => None
    end
  | None => None
  end.

Definition scanNumber (s : string) : option (string * string) :=
  match s with
  | String a r =>
    if (byte a =? 45)%N then cons_to (String a "") (scanUnsigned r)
    else scanUnsigned s
  | EmptyString => None
  end.

(** [s] starts with the keyword [kw]: what follows it. *)
Definition keyword (kw s : string) : option string :=
  if String.prefix kw s then Some (drop (String.length kw) s) else None.

Definition maxNestingDepth : N := 10000.

(** The value at the head of [s] and the input after it.  [fuel] bounds
    the number of nested calls ([String.length s] suffices: each call
    consumes a byte first); [depth] counts the open arrays and objects, as
    the scanner does. *)
Fixpoint parseValue (fuel : nat) (depth : N) (s : string) {struct fuel}
  : option (value * string) :=
  match fuel with
  | O => None
  | S fuel' =>
    match s with
    | EmptyString => None
    | String a r =>
      let x := byte a in
      if (x =? 123)%N then
        if (maxNestingDepth <=? depth)%N then None
        else match skipWS r with
        | String c r' =>
          if (byte c =? 125)%N then Some (Object [], r')
          else match parseMembers fuel' (depth + 1) (skipWS r) with
               | Some (ms, r'') => Some (Object ms, r'')
               | None => None
               end
        | EmptyString => None
        end
      else if (x =? 91)%N then
        if (maxNestingDepth <=? depth)%N then None
        else match skipWS r with
        | String c r' =>
          if (byte c =? 93)%N then Some (Array [], r')
          else match parseElems fuel' (depth + 1) (skipWS r) with
               | Some (vs, r'') => Some (Array vs, r'')
               | None => None
               end
        | EmptyString => None
        end
      else if (x =? 34)%N then
        match unquote r with
        | Some (str, r') => Some (Str str, r')
        | None => None
        end
      else if (x =? 116)%N then
        match keyword "true" s with
        | Some r' => Some (Bool true, r') | None => None end
      else if (x =? 102)%N then
        match keyword "false" s with
        | Some r' => Some (Bool false, r') | None => None end
      else if (x =? 110)%N then
        match keyword "null" s with
        | Some r' => Some (Null, r') | None => None end
      else
        match scanNumber s with
        | Some (lit, r') => Some (Number lit, r')
        | None => None
        end
    end
  end

with parseMembers (fuel : nat) (depth : N) (s : string) {struct fuel}
  : option (list (string * value) * string) :=
  match fuel with
  | O => None
  | S fuel' =>
    match s with
    | String q r =>
      if (byte q =? 34)%N then
        match unquote r with
        | Some (k, r1) =>
          match skipWS r1 with
          | String c r2 =>
            if (byte c =? 58)%N then
              match parseValue fuel' depth (skipWS r2) with
              | Some (v, r3) =>
                match skipWS r3 with
                | String d r4 =>
                  if (byte d =? 44)%N then
                    match parseMembers fuel' depth (skipWS r4) with
                    | Some (ms, r5) => Some ((k, v) :: ms, r5)
                    | None => None
                    end
                  else if (byte d =? 125)%N then Some ([(k, v)], r4)
                  else None
                | EmptyString => None
                end
              | None => None
              end
            else None
          | EmptyString => None
          end
        | None => None
        end
      else None
    | EmptyString => None
    end
  end

with parseElems (fuel : nat) (depth : N) (s : string) {struct fuel}
  : option (list value * string) :=
  match fuel with
  | O => None
  | S fuel' =>
    match parseValue fuel' depth s with
    | Some (v, r1) =>
      match skipWS r1 with
      | String d r2 =>
        if (byte d =? 44)%N then
          match parseElems fuel' depth (skipWS r2) with
          | Some (vs, r3) => Some (v :: vs, r3)
          | None => None
          end
        else if (byte d =? 93)%N then Some ([v], r2)
        else None
      | EmptyString => None
      end
    | None => None
    end
  end.

(** [checkValid] and the decoder's scan: one value, white space around
    it, nothing else. *)
Definition parse (data : string) : option value :=
  match parseValue (S (String.length data)) 0 (skipWS data) with
  | Some (v, r) =>
    match skipWS r with
    | EmptyString => Some v
    | _ => None
    end
  | None => None
  end.

(** *** Numbers

    A [float64] field is read only through [int64(...)] in this program,
    and written only from an [int64]; the model keeps the integer part of
    the float, an unbounded [Z], after rounding the literal to 53
    significant bits as [strconv.ParseFloat] does. *)

Fixpoint digitsVal (acc : Z) (s : string) : Z :=
  match s with
  | String a r => digitsVal (10 * acc + (Z.of_N (byte a) - 48)) r
  | EmptyString => acc
  end.

(** A scanned literal as [(negative, m, e)], standing for [m * 10^e]. *)
Definition decimalOf (lit : string) : bool * Z * Z :=
  let (neg, u) :=
    match lit with
    | String a r => if (byte a =? 45)%N then (true, r) else (false, lit)
    | EmptyString => (false, lit)
    end in
  let (ip, r1) := digits u in
  let (fp, r2) :=
    match r1 with
    | String a r => if (byte a =? 46)%N then digits r else ("", r1)
    | EmptyString => ("", r1)
    end in
  let ex :=
    match r2 with
    | String _ (String b r) =>
      if (byte b =? 45)%N then - digitsVal 0 r
      else if (byte b =? 43)%N then digitsVal 0 r
      else digitsVal 0 (String b r)
    | _ => 0
    end in
  (neg, digitsVal 0 (ip ++ fp), ex - Z.of_nat (String.length fp)).

(** [int64(f)] for the [float64] that [strconv.ParseFloat(lit, 64)]
    returns, as an unbounded integer; [None] on a range error. *)
Definition parseFloatTrunc (lit : string) : option Z :=
  let '(neg, m, e) := decimalOf lit in
  let p := if e <? 0 then m else m * 10 ^ e in
  let q := if e <? 0 then 10 ^ (- e) else 1 in
  if float64.overflows p q then None
  else Some (if neg
             then - float64.nearestTrunc p q else float64.nearestTrunc p q).

(** *** Field names *)

Definition lower (x : N) : N :=
  if ((65 <=? x) && (x <=? 90))%N then (x + 32)%N else x.

(** [foldName]: ASCII letters fold to one case; the Kelvin sign and the
    long s fold to [k] and [s], the only other runes that fold to
    ASCII letters. *)
Fixpoint foldName (s : string) : string :=
  match s with
  | EmptyString => ""
  | String a r =>
    let x := byte a in
    match r with
    | String b r2 =>
      if ((x =? 197) && (byte b =? 191))%N then String "s" (foldName r2)
      else match r2 with
      | String c r3 =>
        if ((x =? 226) && (byte b =? 132) && (byte c =? 170))%N
        then String "k" (foldName r3)
        else String (chr (lower x)) (foldName r)
      | EmptyString => String (chr (lower x)) (foldName r)
      end
    | EmptyString => String (chr (lower x)) ""
    end
  end.

(** A key selects the field tagged [name] when it is equal to it or
    folds to the same name. *)
Definition keyMatches (name key : string) : bool :=
  String.eqb key name || String.eqb (foldName key) (foldName name).

End json.

(** ** Machine integers and the [time] package *)

Definition wrap64 (z : Z) : Z := (z + 2 ^ 63) mod 2 ^ 64 - 2 ^ 63.

Definition minInt64 : Z := - 2 ^ 63.
Definition maxInt64 : Z := 2 ^ 63 - 1.

(** [fmt.Sprintf("%d", z)]. *)
Definition itoa (z : Z) : string :=
  DecimalString.NilZero.string_of_int (Z.to_int z).

(** [float64(n)] for an [int64]: the nearest float, an integer itself. *)
Definition float64_of_int64 (n : Z) : Z :=
  if n <? 0 then - float64.round53 (- n) else float64.round53 n.

(** [int64(f)] for an integral [float64].  The Go specification leaves
    the result open when [f] is outside the [int64] range; the value here
    is the one the amd64 conversion instruction produces. *)
Definition int64_of_float64 (f : Z) : Z :=
  if (minInt64 <=? f) && (f <=? maxInt64) then f else minInt64.

Module time.

(** A [time.Duration] is an [int64] count of nanoseconds. *)
Definition Second : Z := 1000000000.
Definition minDuration : Z := minInt64.
Definition maxDuration : Z := maxInt64.

(** Seconds between January 1 of year 1 and the Unix epoch. *)
Definition unixToInternal : Z := 62135596800.

(** A wall-clock [time.Time]: seconds since year 1 and nanoseconds
    within the second. *)
Record Time : Type := { sec : Z; nsec : Z }.

(** [time.Unix(s, 0)]. *)
Definition Unix (s : Z) : Time :=
  {| sec := wrap64 (s + unixToInternal); nsec := 0 |}.

(** The [Time] of a clock reading given in nanoseconds since the Unix
    epoch. *)
Definition ofClock (c : Z) : Time :=
  {| sec := c / Second + unixToInternal; nsec := c mod Second |}.

(** [t.Unix()]. *)
Definition toUnix (t : Time) : Z := wrap64 (sec t - unixToInternal).

(** [t.UnixNano()]. *)
Definition toUnixNano (t : Time) : Z :=
  wrap64 ((sec t - unixToInternal) * Second + nsec t).

(** [t.Sub(u)]: the difference, or the nearest representable duration
    when it does not fit. *)
Definition Sub (t u : Time) : Z :=
  let d := (sec t - sec u) * Second + (nsec t - nsec u) in
  if d <? minDuration then minDuration
  else if maxDuration <? d then maxDuration
  else d.

(** [time.Duration(n) * time.Second]. *)
Definition seconds (n : Z) : Z := wrap64 (n * Second).

End time.

(** ** The world the program runs in *)

(** A Go [error] is represented by its message. *)
Inductive result (A : Type) : Type :=
| Ok (a : A)
| Err (msg : string).
Arguments Ok {A} a.
Arguments Err {A} msg.

(** The request [generateFortune] posts to the Responses endpoint. *)
Record request : Type := {
  reqModel : string;
  reqPrompt : string;
  reqKey : string            (* the bearer token *)
}.

Inductive httpResult : Type :=
| DoFails (msg : string)     (* transport error, or the 15 s deadline *)
| Response (status : Z) (body : string).

(** The fields [generateFortune] decodes from a response body:
    [Output[i].Content[j].Text] and [OutputText]. *)
Record parsed : Type := {
  Output : list (list string);
  OutputText : string
}.

(** A child process handed to [os.StartProcess]; it runs in the
    directory of [procExe]. *)
Record process : Type := {
  procExe : string;
  procArgv : list string;
  procEnvAdd : string        (* appended to the parent's environment *)
}.

(** What the operating system, the network and the libraries that are
    not modelled answer.  An [option string] error field holds the
    message of the failure, [None] when the operation is allowed. *)
(** How [os.WriteFile] failed: before the file was opened, which leaves
    the file as it was, or after it was opened, and so truncated, with
    [written] bytes of the data in it. *)
Inductive writeFailure : Type :=
| NotOpened (msg : string)
| Cut (msg : string) (written : nat).

Record Env : Type := {
  Getenv : string -> string;          (* once [loadDotEnv] has run *)
  configFile : option string;         (* [os.ReadFile(configPath)] *)
  cachePath : string;
  logPath : string;
  cacheReadErr : option string;
  cacheRemoveErr : option string;
  mkdirErr : option string;
  cacheWriteErr : option writeFailure;
  logReadErr : option string;
  logOpenErr : option string;
  logWriteErr : option (string * nat); (* message, bytes written *)
  Executable : result string;         (* [os.Executable()] *)
  StartProcess : process -> result Z; (* the pid *)
  Do : request -> httpResult;         (* [http.DefaultClient.Do] *)
  decodeResponse : string -> result parsed;
                                      (* [json.Unmarshal(body, &parsed)] *)
  unmarshalError : string -> string;  (* message of a [json] error *)
  clock : nat -> Z;                   (* successive readings, in ns *)
  draw : Z -> nat -> nat              (* seed, bound: the generator's draw *)
}.

(** What a run changes or emits. *)
Record State : Type := {
  cacheFile : option string;          (* contents, when the file exists *)
  logFile : option string;
  stdout : list string;
  stderr : list string;
  spawned : list process;
  netCalls : list request;
  tick : nat                          (* clock readings taken so far *)
}.

Definition setCache (c : option string) (st : State) : State :=
  {| cacheFile := c; logFile := logFile st; stdout := stdout st;
     stderr := stderr st; spawned := spawned st; netCalls := netCalls st;
     tick := tick st |}.

Definition setLog (l : option string) (st : State) : State :=
  {| cacheFile := cacheFile st; logFile := l; stdout := stdout st;
     stderr := stderr st; spawned := spawned st; netCalls := netCalls st;
     tick := tick st |}.

(** [fmt.Print(s)]. *)
Definition Print (s : string) (st : State) : State :=
  {| cacheFile := cacheFile st; logFile := logFile st;
     stdout := stdout st ++ [s];
     stderr := stderr st; spawned := spawned st; netCalls := netCalls st;
     tick := tick st |}.

Definition newline : string := String (ascii_of_nat 10) "".
Definition tab : ascii := ascii_of_nat 9.

(** [fmt.Println(s)]. *)
Definition Println (s : string) (st : State) : State :=
  Print (s ++ newline) st.

(** [fmt.Fprintf(os.Stderr, ...)] with the formatted text [s]. *)
Definition Eprint (s : string) (st : State) : State :=
  {| cacheFile := cacheFile st; logFile := logFile st; stdout := stdout st;
     stderr := stderr st ++ [s];
     spawned := spawned st; netCalls := netCalls st; tick := tick st |}.

Definition addSpawn (p : process) (st : State) : State :=
  {| cacheFile := cacheFile st; logFile := logFile st; stdout := stdout st;
     stderr := stderr st; spawned := spawned st ++ [p];
     netCalls := netCalls st; tick := tick st |}.

Definition addCall (r : request) (st : State) : State :=
  {| cacheFile := cacheFile st; logFile := logFile st; stdout := stdout st;
     stderr := stderr st; spawned := spawned st;
     netCalls := netCalls st ++ [r]; tick := tick st |}.

(** [time.Now()]: the next clock reading. *)
Definition Now (E : Env) (st : State) : time.Time * State :=
  (time.ofClock (clock E (tick st)),
   {| cacheFile := cacheFile st; logFile := logFile st; stdout := stdout st;
      stderr := stderr st; spawned := spawned st; netCalls := netCalls st;
      tick := S (tick st) |}).

(** ** cmd/fortunebot/main.go *)

Import strings.

Definition defaultPrompt : string :=
  "Generate a very short, funny fortune cookie message about AI, programmers, or neural networks. Maximum 2 short sentences.".
Definition defaultModel : string := "gpt-4o-mini".
Definition cacheTTLDefault : Z := 60.

Record config : Type := {
  APIKey : string;           (* api_key *)
  DefaultPrompt : string;    (* default_prompt *)
  Model : string             (* model *)
}.

Record fortuneCache : Type := {
  Fortune : string;          (* fortune *)
  Timestamp : Z              (* timestamp, a float64: its integer part *)
}.

(** *** [json.Unmarshal] and [json.Marshal] at the two struct types

    Decoding assigns the members of an object to the fields they name,
    in order; [null] leaves a field as it is, a value of the wrong kind is
    a type error, which is reported when the whole input has been
    read.  The pair is the struct so far and whether no error occurred. *)

Definition setString (v : json.value) (old : string) : string * bool :=
  match v with
  | json.Str s => (s, true)
  | json.Null => (old, true)
  | _ => (old, false)
  end.

Definition setFloat (v : json.value) (old : Z) : Z * bool :=
  match v with
  | json.Number lit =>
    match json.parseFloatTrunc lit with
    | Some z => (z, true)
    | None => (old, false)
    end
  | json.Null => (old, true)
  | _ => (old, false)
  end.

Definition configMember (acc : config * bool) (m : string * json.value)
  : config * bool :=
  let '(c, ok) := acc in
  let '(k, v) := m in
  if json.keyMatches "api_key" k then
    let (x, ok') := setString v (APIKey c) in
    ({| APIKey := x; DefaultPrompt := DefaultPrompt c; Model := Model c |},
     ok && ok')
  else if json.keyMatches "default_prompt" k then
    let (x, ok') := setString v (DefaultPrompt c) in
    ({| APIKey := APIKey c; DefaultPrompt := x; Model := Model c |},
     ok && ok')
  else if json.keyMatches "model" k then
    let (x, ok') := setString v (Model c) in
    ({| APIKey := APIKey c; DefaultPrompt := DefaultPrompt c; Model := x |},
     ok && ok')
  else acc.

Definition cacheMember (acc : fortuneCache * bool) (m : string * json.value)
  : fortuneCache * bool :=
  let '(c, ok) := acc in
  let '(k, v) := m in
  if json.keyMatches "fortune" k then
    let (x, ok') := setString v (Fortune c) in
    ({| Fortune := x; Timestamp := Timestamp c |}, ok && ok')
  else if json.keyMatches "timestamp" k then
    let (x, ok') := setFloat v (Timestamp c) in
    ({| Fortune := Fortune c; Timestamp := x |}, ok && ok')
  else acc.

(** Decode a document into a struct that starts as [zero]. *)
Definition decodeStruct {A : Type} (member : A * bool -> string * json.value -> A * bool)
  (zero : A) (data : string) : option A :=
  match json.parse data with
  | Some (json.Object ms) =>
    match fold_left member ms (zero, true) with
    | (c, true) => Some c
    | (_, false) => None
    end
  | Some json.Null => Some zero
  | Some _ => None
  | None => None
  end.

Definition Unmarshal_config : string -> option config :=
  decodeStruct configMember {| APIKey := ""; DefaultPrompt := ""; Model := "" |}.

Definition Unmarshal_fortuneCache : string -> option fortuneCache :=
  decodeStruct cacheMember {| Fortune := ""; Timestamp := 0 |}.

(** [json.Marshal(fortuneCache{...})].  The timestamp is printed as the
    integer it is, which is what [Marshal] prints below [2^53]; above,
    [Marshal] prints the shortest digits that read back as the same
    float, padded with zeros. *)
Definition Marshal_fortuneCache (c : fortuneCache) : string :=
  "{" ++ json.quote "fortune" ++ ":" ++ json.quote (Fortune c) ++
  "," ++ json.quote "timestamp" ++ ":" ++ itoa (Timestamp c) ++ "}".

(** *** Configuration *)

(** loadConfig reads the optional JSON config file and fills defaults. *)
Definition loadConfig (E : Env) : config :=
  let defaults :=
    {| APIKey := ""; DefaultPrompt := defaultPrompt; Model := defaultModel |} in
  match configFile E with
  | None => defaults
  | Some b =>
    match Unmarshal_config b with
    | None => defaults
    | Some c =>
      {| APIKey := APIKey c;
         DefaultPrompt :=
           if isEmpty (DefaultPrompt c) then defaultPrompt else DefaultPrompt c;
         Model := if isEmpty (Model c) then defaultModel else Model c |}
    end
  end.

Definition blank (s : string) : bool := isEmpty (TrimSpace s).

(** resolveAPIKeyWithSource resolves the API key and explains where it
    came from. *)
Definition resolveAPIKeyWithSource (E : Env) (cli : string) (cfg : config)
  : string * string :=
  if negb (blank cli) then (cli, "--api-key flag")
  else if negb (isEmpty (Getenv E "FORTUNEBOT_API_KEY"))
  then (Getenv E "FORTUNEBOT_API_KEY", "env FORTUNEBOT_API_KEY")
  else if negb (isEmpty (Getenv E "OPENAI_API_KEY"))
  then (Getenv E "OPENAI_API_KEY", "env OPENAI_API_KEY")
  else if negb (blank (APIKey cfg))
  then (APIKey cfg, "~/.config/fortunebot/config.json")
  else ("", "none found").

(** resolveModelWithSource resolves the model and explains where it came
    from. *)
Definition resolveModelWithSource (E : Env) (cli : string) (cfg : config)
  : string * string :=
  if negb (blank cli) then (cli, "--model flag")
  else if negb (isEmpty (Getenv E "FORTUNEBOT_MODEL"))
  then (Getenv E "FORTUNEBOT_MODEL", "env FORTUNEBOT_MODEL")
  else if negb (isEmpty (Getenv E "OPENAI_MODEL"))
  then (Getenv E "OPENAI_MODEL", "env OPENAI_MODEL")
  else if negb (blank (Model cfg))
  then (Model cfg, "~/.config/fortunebot/config.json")
  else (defaultModel, "built-in default").

(** resolvePromptWithSource resolves the prompt and explains where it
    came from. *)
Definition resolvePromptWithSource (E : Env) (cli : string) (cfg : config)
  : string * string :=
  if negb (blank cli) then (cli, "--prompt flag")
  else if negb (isEmpty (Getenv E "FORTUNEBOT_PROMPT"))
  then (Getenv E "FORTUNEBOT_PROMPT", "env FORTUNEBOT_PROMPT")
  else if negb (blank (DefaultPrompt cfg))
  then (DefaultPrompt cfg, "~/.config/fortunebot/config.json")
  else (defaultPrompt, "built-in default").

(** *** Cache and log *)

(** isErrorFortune detects cached error strings (we skip caching/logging
    them). *)
Definition isErrorFortune (s : string) : bool :=
  HasPrefix (TrimSpace s) "[fortunebot]".

Definition noSuchFile (path : string) : string :=
  "open " ++ path ++ ": no such file or directory".

(** [os.ReadFile(cachePath)]. *)
Definition readCacheFile (E : Env) (st : State) : result string :=
  match cacheFile st with
  | None => Err (noSuchFile (cachePath E))
  | Some b =>
    match cacheReadErr E with
    | Some m => Err m
    | None => Ok b
    end
  end.

(** [os.ReadFile(logPath)]. *)
Definition readLogFile (E : Env) (st : State) : result string :=
  match logFile st with
  | None => Err (noSuchFile (logPath E))
  | Some b =>
    match logReadErr E with
    | Some m => Err m
    | None => Ok b
    end
  end.

(** loadCache reads the cached fortune, if present. *)
Definition loadCache (E : Env) (st : State) : result fortuneCache :=
  match readCacheFile E st with
  | Err m => Err m
  | Ok b =>
    match Unmarshal_fortuneCache b with
    | None => Err (unmarshalError E b)
    | Some c =>
      if isErrorFortune (Fortune c) then Err "cache is error" else Ok c
    end
  end.

(** saveCache writes the fortune to disk unless it's an error message. *)
Definition saveCache (E : Env) (f : string) (st : State) : State :=
  if isErrorFortune f then st
  else
    match mkdirErr E with
    | Some m =>
      Eprint ("[fortunebot] Failed to create data dir: " ++ m ++ newline) st
    | None =>
      let (now, st1) := Now E st in
      let payload :=
        Marshal_fortuneCache
          {| Fortune := f;
             Timestamp := float64_of_int64 (time.toUnix now) |} in
      match cacheWriteErr E with
      | Some (NotOpened m) =>
        Eprint ("[fortunebot] Failed to write cache: " ++ m ++ newline) st1
      | Some (Cut m n) =>
        Eprint ("[fortunebot] Failed to write cache: " ++ m ++ newline)
          (setCache (Some (substring 0 n payload)) st1)
      | None => setCache (Some payload) st1
      end
    end.

(** [time.Since(time.Unix(int64(ts), 0))]. *)
Definition ageOf (E : Env) (ts : Z) (st : State) : Z * State :=
  let (now, st1) := Now E st in
  (time.Sub now (time.Unix (int64_of_float64 ts)), st1).

(** cacheIsFresh reports whether the cache is younger than the TTL. *)
Definition cacheIsFresh (E : Env) (c : fortuneCache) (ttl : Z) (st : State)
  : bool * State :=
  let (age, st1) := ageOf E (Timestamp c) st in
  (age <? time.seconds ttl, st1).

(** clearCache deletes the cache file if it exists. *)
Definition clearCache (E : Env) (st : State) : State :=
  match cacheFile st with
  | None => Println "[fortunebot] No cache to clear." st
  | Some _ =>
    match cacheRemoveErr E with
    | Some m =>
      Eprint ("[fortunebot] Failed to clear cache: " ++ m ++ newline) st
    | None => Println "[fortunebot] Cache cleared." (setCache None st)
    end
  end.

(** logFortune appends a fortune to the log file (skipping error
    messages). *)
Definition logFortune (E : Env) (f : string) (st : State) : State :=
  if isErrorFortune f then st
  else
    let (now, st1) := Now E st in
    let line := itoa (time.toUnix now) ++ String tab (f ++ newline) in
    match logOpenErr E with
    | Some m =>
      Eprint ("[fortunebot] Failed to write log: " ++ m ++ newline) st1
    | None =>
      let old := match logFile st1 with Some b => b | None => "" end in
      match logWriteErr E with
      | Some (m, n) =>
        Eprint ("[fortunebot] Failed to write log: " ++ m ++ newline)
          (setLog (Some (old ++ substring 0 n line)) st1)
      | None => setLog (Some (old ++ line)) st1
      end
    end.

(** printLog streams the log file to stdout. *)
Definition printLog (E : Env) (st : State) : State :=
  match readLogFile E st with
  | Err _ => Println "[fortunebot] No log file found." st
  | Ok b => Print b st
  end.

(** *** The generation client *)

(** The marker put in front of a fortune, as the source file spells it
    (ten bytes, the last one a space). *)
Definition marker : string :=
  string_of_list_ascii
    (map ascii_of_nat [195; 176; 197; 184; 194; 164; 226; 128; 147; 32]%nat).

Definition extract (p : parsed) : string :=
  match Output p with
  | (text :: _) :: _ => TrimSpace text
  | _ => if negb (isEmpty (OutputText p)) then TrimSpace (OutputText p) else ""
  end.

Definition generateFortune (E : Env) (prompt apiKey model : string)
  (st : State) : result string * State :=
  if isEmpty apiKey then (Err "no API key provided", st)
  else
    let req := {| reqModel := model; reqPrompt := prompt; reqKey := apiKey |} in
    let st1 := addCall req st in
    match Do E req with
    | DoFails m => (Err m, st1)
    | Response status body =>
      if 300 <=? status
      then (Err ("API error (" ++ itoa status ++ "): " ++ body), st1)
      else
        match decodeResponse E body with
        | Err m => (Err m, st1)
        | Ok p =>
          let fortune := extract p in
          if isEmpty fortune then (Err "empty response from API", st1)
          else (Ok (marker ++ fortune), st1)
        end
    end.

(** *** Prefetch *)

(** The argument vector of the worker, after the program name. *)
Definition workerArgs (prompt apiKey model : string) : list string :=
  ["--prefetch-worker"; "--prompt"; prompt; "--model"; model]
  ++ (if negb (isEmpty apiKey) then ["--api-key"; apiKey] else []).

(** startPrefetch spawns a detached worker process to refresh
    cache/log. *)
Definition startPrefetch (E : Env) (prompt apiKey model : string)
  (verbose : bool) (st : State) : State :=
  match Executable E with
  | Err m =>
    if verbose
    then Eprint ("[fortunebot] Cannot start prefetch (no executable path): "
                 ++ m ++ newline) st
    else st
  | Ok exe =>
    let cmd :=
      {| procExe := exe;
         procArgv := exe :: workerArgs prompt apiKey model;
         procEnvAdd :=
           "FORTUNEBOT_VERBOSE=" ++ (if verbose then "true" else "false") |} in
    match StartProcess E cmd with
    | Err m =>
      if verbose
      then Eprint ("[fortunebot] Failed to start prefetch: " ++ m ++ newline) st
      else st
    | Ok pid =>
      let st1 := addSpawn cmd st in
      if verbose
      then Print ("[fortunebot] Background prefetch started (pid "
                  ++ itoa pid ++ ")." ++ newline) st1
      else st1
    end
  end.

(** runPrefetchWorker performs one fetch/save/log for the background
    process. *)
Definition runPrefetchWorker (E : Env) (prompt apiKey model : string)
  (st : State) : Z * State :=
  match generateFortune E prompt apiKey model st with
  | (Err m, st1) =>
    (1, Eprint ("[fortunebot] Background prefetch failed: " ++ m ++ newline) st1)
  | (Ok fortune, st1) =>
    let st2 := saveCache E fortune (logFortune E fortune st1) in
    if String.eqb (Getenv E "FORTUNEBOT_VERBOSE") "true"
       || String.eqb (Getenv E "FORTUNEBOT_VERBOSE") "1"
    then (0, Println "[fortunebot] Background prefetch complete; cache updated." st2)
    else (0, st2)
  end.

(** [int(d.Seconds())]: [Seconds] returns
    [float64(d / Second) + float64(d % Second) / 1e9], the quotient and
    the sum each rounded to the nearest float. *)
Definition wholeSeconds (d : Z) : Z :=
  let n := Z.abs d in
  let sec := n / time.Second in
  let nsec := n mod time.Second in
  let s :=
    if nsec =? 0 then sec
    else
      let (m, e) := float64.nearest nsec time.Second in
      (* [e < 0]: the sum is [(sec * 2^(-e) + m) * 2^e] before rounding *)
      float64.truncScaled (float64.round53 (sec * 2 ^ (- e) + m)) e in
  if d <? 0 then - s else s.

Definition formatAge (E : Env) (ts : Z) (st : State) : string * State :=
  let (age, st1) := ageOf E ts st in
  (itoa (wholeSeconds age) ++ "s", st1).

(** maskKey partially masks an API key for display. *)
Definition maskKey (k : string) : string :=
  if (String.length k <=? 8)%nat then k
  else substring 0 4 k ++ "***" ++ substring (String.length k - 4) 4 k.

(** The texts of the log lines that have a tab. *)
Fixpoint fortunesOf (lines : list string) : list string :=
  match lines with
  | [] => []
  | line :: rest =>
    match SplitN2 tab line with
    | [_; text] => TrimSpace text :: fortunesOf rest
    | _ => fortunesOf rest
    end
  end.

(** [rand.Intn(n)] after [rand.Seed(seed)]: a value below [n]. *)
Definition Intn (E : Env) (seed : Z) (n : nat) : nat :=
  (draw E seed n mod n)%nat.

(** randomFortuneFromLog picks a random fortune from the log file. *)
Definition randomFortuneFromLog (E : Env) (st : State)
  : result string * State :=
  match readLogFile E st with
  | Err m => (Err ("failed to read log: " ++ m), st)
  | Ok b =>
    let fortunes := fortunesOf (Split (ascii_of_nat 10) b) in
    match fortunes with
    | [] => (Err "no fortunes found in log", st)
    | _ =>
      let (now, st1) := Now E st in
      (Ok (nth (Intn E (time.toUnixNano now) (List.length fortunes)) fortunes ""),
       st1)
    end
  end.

(** *** main *)

(** The command line, once [flag.Parse] has read it. *)
Record Flags : Type := {
  flagPrompt : string;
  flagAPIKey : string;
  flagModel : string;
  flagCacheTTL : Z;
  flagNoCache : bool;
  flagClearCache : bool;
  flagNoPrefetch : bool;
  flagVerbose : bool;
  flagQuiet : bool;
  flagShowLog : bool;
  flagPrefetchWork : bool;
  flagLogRandom : bool
}.

(** The lines that announce the resolved configuration. *)
Definition announce (prompt promptSrc apiKey apiSrc model modelSrc : string)
  (st : State) : State :=
  let st1 :=
    Print ("[fortunebot] Using prompt (source: " ++ promptSrc ++ ")" ++ newline)
      st in
  let st2 :=
    Print ("[fortunebot] Using model: " ++ model ++ " (source: " ++ modelSrc
           ++ ")" ++ newline) st1 in
  if negb (isEmpty apiKey)
  then Print ("[fortunebot] Using API key from: " ++ apiSrc ++ " ("
              ++ maskKey apiKey ++ ")" ++ newline) st2
  else Print ("[fortunebot] No API key found (sources checked: " ++ apiSrc
              ++ ")" ++ newline) st2.

(** From the synchronous fetch to the end of [main]. *)
Definition fetchAndServe (E : Env) (fl : Flags) (caching verbose : bool)
  (prompt apiKey model : string) (st : State) : Z * State :=
  match generateFortune E prompt apiKey model st with
  | (Err m, st1) =>
    (1, Eprint ("[fortunebot] Error: " ++ m ++ newline) st1)
  | (Ok fortune, st1) =>
    let st2 := Println fortune (logFortune E fortune st1) in
    if caching then
      let st3 := saveCache E fortune st2 in
      if negb (flagNoPrefetch fl)
      then (0, startPrefetch E prompt apiKey model verbose st3)
      else (0, st3)
    else (0, st2)
  end.

(** Normal mode, from the cache lookup on. *)
Definition serve (E : Env) (fl : Flags) (verbose : bool)
  (prompt apiKey model : string) (st : State) : Z * State :=
  let cacheTTL := flagCacheTTL fl in
  let caching := negb (flagNoCache fl) && (0 <? cacheTTL) in
  if caching then
    match loadCache E st with
    | Ok cache =>
      let (fresh, st1) := cacheIsFresh E cache cacheTTL st in
      if fresh then
        let st2 :=
          if verbose then
            let (age, st') := formatAge E (Timestamp cache) st1 in
            Print ("[fortunebot] Using fresh cache (age " ++ age ++ " < TTL "
                   ++ itoa cacheTTL ++ "s)." ++ newline) st'
          else st1 in
        let st3 := Println (Fortune cache) st2 in
        if negb (flagNoPrefetch fl)
        then (0, startPrefetch E prompt apiKey model verbose st3)
        else (0, st3)
      else
        let st2 :=
          if verbose then
            let (age, st') := formatAge E (Timestamp cache) st1 in
            Print ("[fortunebot] Cache stale (age " ++ age ++ " >= TTL "
                   ++ itoa cacheTTL
                   ++ "s). Serving stale and refreshing now..." ++ newline) st'
          else st1 in
        let st3 := Println (Fortune cache) st2 in
        if negb (flagNoPrefetch fl)
        then (0, startPrefetch E prompt apiKey model verbose st3)
        else (0, st3)
    | Err _ =>
      let st1 :=
        if verbose
        then Println "[fortunebot] No cache found. Fetching fresh fortune..." st
        else st in
      fetchAndServe E fl caching verbose prompt apiKey model st1
    end
  else
    let st1 :=
      if verbose
      then Println "[fortunebot] Caching disabled. Fetching fresh fortune..." st
      else st in
    fetchAndServe E fl caching verbose prompt apiKey model st1.

(** [main]: the exit status and the final state. *)
Definition main (E : Env) (fl : Flags) (st : State) : Z * State :=
  let cfg := loadConfig E in
  let verbose := flagVerbose fl && negb (flagQuiet fl) in
  if flagPrefetchWork fl then
    let (prompt, _) := resolvePromptWithSource E (flagPrompt fl) cfg in
    let (apiKey, _) := resolveAPIKeyWithSource E (flagAPIKey fl) cfg in
    let (model, _) := resolveModelWithSource E (flagModel fl) cfg in
    runPrefetchWorker E prompt apiKey model st
  else if flagShowLog fl then (0, printLog E st)
  else if flagLogRandom fl then
    match randomFortuneFromLog E st with
    | (Err m, st1) => (1, Eprint ("[fortunebot] " ++ m ++ newline) st1)
    | (Ok f, st1) =>
      let st2 :=
        if verbose
        then Println
               "[fortunebot] Showing random fortune from log (no API call)." st1
        else st1 in
      (0, Println f st2)
    end
  else
    let st1 := if flagClearCache fl then clearCache E st else st in
    let (prompt, promptSrc) := resolvePromptWithSource E (flagPrompt fl) cfg in
    let (apiKey, apiSrc) := resolveAPIKeyWithSource E (flagAPIKey fl) cfg in
    let (model, modelSrc) := resolveModelWithSource E (flagModel fl) cfg in
    let st2 :=
      if verbose
      then announce prompt promptSrc apiKey apiSrc model modelSrc st1
      else st1 in
    serve E fl verbose prompt apiKey model st2.

(** *** Environment files

    [loadDotEnv] and [applyEnvFile] run before everything else in
    [main]; they are modelled on their own, on an environment given as
    the function [os.Getenv] computes. *)

Module dotenv.

(** What [os.Open] and the reads that follow give for a path: no file,
    or the bytes read and the error that ended the reading, if any. *)
Inductive envFile : Type :=
| NoFile (msg : string)
| File (data : string) (readErr : option string).

(** What [loadDotEnv] asks of the outside.  [Dir] and [Join] stand for
    [filepath.Dir] and [filepath.Join]. *)
Record Files : Type := {
  Executable : result string;
  Getwd : result string;
  configPath : string;
  Dir : string -> string;
  Join : string -> string -> string;
  Open : string -> envFile
}.

Definition environ : Type := string -> string.

Definition hasByte (x : N) (s : string) : bool :=
  existsb (fun c => (byte c =? x)%N) (list_ascii_of_string s).

(** [os.Setenv]: refused for an empty key, a key with [=] or a NUL
    byte, and a value with a NUL byte. *)
Definition Setenv (key val : string) (env : environ) : environ :=
  if isEmpty key || hasByte 61 key || hasByte 0 key || hasByte 0 val
  then env
  else fun k => if String.eqb k key then val else env k.

(** [dropCR]: a line without its final carriage return. *)
Fixpoint dropCR (s : string) : string :=
  match s with
  | EmptyString => ""
  | String c EmptyString => if (byte c =? 13)%N then "" else s
  | String c r => String c (dropCR r)
  end.

(** The assignment a line of the file makes, if it makes one: the body
    of the loop in [applyEnvFile], on the text of the scanner. *)
Definition assignment (raw : string) : option (string * string) :=
  let line := TrimSpace raw in
  if isEmpty line || HasPrefix line "#" then None
  else
    match SplitN2 "=" line with
    | [k; v] =>
      let key := TrimSpace k in
      let val := TrimSpace v in
      if isEmpty key then None else Some (key, val)
    | _ => None
    end.

(** [bufio.MaxScanTokenSize]: a line of that many bytes stops the
    scanner with [ErrTooLong]. *)
Definition maxLine : N := 65536.

Definition tooLong (raw : string) : bool :=
  (maxLine <=? N.of_nat (String.length raw))%N.

(** The lines [bufio.ScanLines] cuts the data into: the texts between
    line feeds, without the empty text after a final line feed. *)
Definition scanLines (data : string) : list string :=
  let parts := Split (ascii_of_nat 10) data in
  if isEmpty (last parts "") then removelast parts else parts.

(** The loop of [applyEnvFile] over the lines the scanner finds: the
    environment it leaves and whether it stopped on a line too long. *)
Fixpoint applyLines (lines : list string) (env : environ) : environ * bool :=
  match lines with
  | [] => (env, false)
  | raw :: rest =>
    if tooLong raw then (env, true)
    else
      applyLines rest
        (match assignment (dropCR raw) with
         | Some (key, val) => Setenv key val env
         | None => env
         end)
  end.

(** applyEnvFile sets environment variables from a simple KEY=VAL
    file: the error it returns, if any, and the environment it
    leaves. *)
Definition applyEnvFile (W : Files) (path : string) (env : environ)
  : option string * environ :=
  match Open W path with
  | NoFile m => (Some m, env)
  | File data readErr =>
    let (env', long) := applyLines (scanLines data) env in
    (if long then Some "bufio.Scanner: token too long" else readErr, env')
  end.

(** [add] in [loadDotEnv]. *)
Definition add (p : string) (paths : list string) : list string :=
  if blank p then paths
  else if existsb (String.eqb p) paths then paths
  else (paths ++ [p])%list.

(** The paths [loadDotEnv] tries, in order. *)
Definition candidates (W : Files) (env : environ) : list string :=
  let p0 := [] in
  let p1 :=
    if negb (isEmpty (env "FORTUNEBOT_ENV"))
    then add (env "FORTUNEBOT_ENV") p0 else p0 in
  let p2 :=
    match Executable W with
    | Ok exe => add (Join W (Dir W exe) "fortunebot.env") p1
    | Err _ => p1
    end in
  let p3 :=
    match Getwd W with
    | Ok cwd => add (Join W cwd "fortunebot.env") p2
    | Err _ => add "fortunebot.env" p2
    end in
  let p4 := add (Join W (Dir W (configPath W)) "fortunebot.env") p3 in
  add "fortunebot.env" p4.

(** The loop over the paths: stop at the first file applied without
    error. *)
Fixpoint tryFiles (W : Files) (paths : list string) (env : environ)
  : environ :=
  match paths with
  | [] => env
  | p :: rest =>
    match applyEnvFile W p env with
    | (None, env') => env'
    | (Some _, env') => tryFiles W rest env'
    end
  end.

(** loadDotEnv loads a fortunebot.env file from common locations. *)
Definition loadDotEnv (W : Files) (env : environ) : environ :=
  tryFiles W (candidates W env) env.

End dotenv.

(** [firstNonEmpty]: the first value that is not blank, or the empty
    string. *)
Fixpoint firstNonEmpty (vals : list string) : string :=
  match vals with
  | [] => ""
  | v :: rest => if negb (blank v) then v else firstNonEmpty rest
  end.

(** ** Sample worlds *)

Module Sample.

(** An environment with a key, a network that answers and an operating
    system that refuses nothing. *)
Definition E0 : Env :=
  {| Getenv := fun k => if String.eqb k "OPENAI_API_KEY" then "sk-test" else "";
     configFile := None;
     cachePath := "/home/u/.local/share/fortunebot/cache.json";
     logPath := "/home/u/bin/fortunebot.log";
     cacheReadErr := None; cacheRemoveErr := None; mkdirErr := None;
     cacheWriteErr := None; logReadErr := None; logOpenErr := None;
     logWriteErr := None;
     Executable := Ok "/home/u/bin/fortunebot";
     StartProcess := fun _ => Ok 4242;
     Do := fun _ =>
       Response 200
         ("{" ++ json.quote "output_text" ++ ":" ++ json.quote "Good luck."
          ++ "}");
     decodeResponse :=
       fun _ => Ok {| Output := []; OutputText := "Good luck." |};
     unmarshalError := fun _ => "unexpected end of JSON input";
     clock := fun n => (1700000000 + Z.of_nat n) * 1000000000;
     draw := fun _ _ => 0%nat |}.

(** The same without any API key. *)
Definition Enokey : Env :=
  {| Getenv := fun _ => "";
     configFile := configFile E0; cachePath := cachePath E0;
     logPath := logPath E0; cacheReadErr := None; cacheRemoveErr := None;
     mkdirErr := None; cacheWriteErr := None; logReadErr := None;
     logOpenErr := None; logWriteErr := None;
     Executable := Executable E0; StartProcess := StartProcess E0;
     Do := Do E0; decodeResponse := decodeResponse E0;
     unmarshalError := unmarshalError E0; clock := clock E0;
     draw := draw E0 |}.

(** No cache, no log, nothing printed yet. *)
Definition st0 : State :=
  {| cacheFile := None; logFile := None; stdout := []; stderr := [];
     spawned := []; netCalls := []; tick := 0 |}.

(** The command line with no argument. *)
Definition fl0 : Flags :=
  {| flagPrompt := ""; flagAPIKey := ""; flagModel := "";
     flagCacheTTL := cacheTTLDefault; flagNoCache := false;
     flagClearCache := false; flagNoPrefetch := false; flagVerbose := false;
     flagQuiet := false; flagShowLog := false; flagPrefetchWork := false;
     flagLogRandom := false |}.

(** [--no-cache]. *)
Definition flNoCache : Flags :=
  {| flagPrompt := ""; flagAPIKey := ""; flagModel := "";
     flagCacheTTL := cacheTTLDefault; flagNoCache := true;
     flagClearCache := false; flagNoPrefetch := false; flagVerbose := false;
     flagQuiet := false; flagShowLog := false; flagPrefetchWork := false;
     flagLogRandom := false |}.

(** [--clear-cache]. *)
Definition flClear : Flags :=
  {| flagPrompt := ""; flagAPIKey := ""; flagModel := "";
     flagCacheTTL := cacheTTLDefault; flagNoCache := false;
     flagClearCache := true; flagNoPrefetch := false; flagVerbose := false;
     flagQuiet := false; flagShowLog := false; flagPrefetchWork := false;
     flagLogRandom := false |}.


(** [--prefetch-worker]. *)
Definition flWorker : Flags :=
  {| flagPrompt := ""; flagAPIKey := ""; flagModel := "";
     flagCacheTTL := cacheTTLDefault; flagNoCache := false;
     flagClearCache := false; flagNoPrefetch := false; flagVerbose := false;
     flagQuiet := false; flagShowLog := false; flagPrefetchWork := true;
     flagLogRandom := false |}.

(** A cache entry written an hour before the first clock reading. *)
Definition oldEntry : fortuneCache :=
  {| Fortune := "Old luck."; Timestamp := 1699996400 |}.

Definition stCached : State :=
  {| cacheFile := Some (Marshal_fortuneCache oldEntry);
     logFile := Some ("1699996400" ++ String tab ("Old luck." ++ newline));
     stdout := []; stderr := []; spawned := []; netCalls := []; tick := 0 |}.

(** A record that carries an error message, as no run writes it. *)
Definition errEntry : fortuneCache :=
  {| Fortune := " [fortunebot] Error: no API key provided";
     Timestamp := 1699999990 |}.

Definition stErr : State :=
  {| cacheFile := Some (Marshal_fortuneCache errEntry);
     logFile := None;
     stdout := []; stderr := []; spawned := []; netCalls := []; tick := 0 |}.


(** A one-byte string that is not UTF-8. *)
Definition notText : string := String (ascii_of_nat 255) "".

(** U+FFFD in UTF-8. *)
Definition replacement : string :=
  String (ascii_of_nat 239)
    (String (ascii_of_nat 191) (String (ascii_of_nat 189) "")).

(** An entry stamped an hour after the first clock reading. *)
Definition futureEntry : fortuneCache :=
  {| Fortune := "Luck to come."; Timestamp := 1700003600 |}.

(** An entry stamped at the first clock reading. *)
Definition newEntry : fortuneCache :=
  {| Fortune := "New luck."; Timestamp := 1700000000 |}.

(** The least TTL whose nanoseconds do not fit a [time.Duration]. *)
Definition hugeTTL : Z := 9223372037.


(** [E0] as a worker started without [--verbose] sees it. *)
Definition Eworker : Env :=
  {| Getenv := fun k =>
       if String.eqb k "FORTUNEBOT_VERBOSE" then "false" else Getenv E0 k;
     configFile := configFile E0; cachePath := cachePath E0;
     logPath := logPath E0; cacheReadErr := None; cacheRemoveErr := None;
     mkdirErr := None; cacheWriteErr := None; logReadErr := None;
     logOpenErr := None; logWriteErr := None;
     Executable := Executable E0; StartProcess := StartProcess E0;
     Do := Do E0; decodeResponse := decodeResponse E0;
     unmarshalError := unmarshalError E0; clock := clock E0;
     draw := draw E0 |}.

(** [--show-log] together with [--log-random] and [--clear-cache]. *)
Definition flShow : Flags :=
  {| flagPrompt := ""; flagAPIKey := ""; flagModel := "";
     flagCacheTTL := cacheTTLDefault; flagNoCache := false;
     flagClearCache := true; flagNoPrefetch := false; flagVerbose := false;
     flagQuiet := false; flagShowLog := true; flagPrefetchWork := false;
     flagLogRandom := true |}.

(** A configuration file with a key, and a number where the model
    should be. *)
Definition badConfig : string :=
  "{" ++ json.quote "api_key" ++ ":" ++ json.quote "sk-9" ++ ","
  ++ json.quote "model" ++ ":7}".

Definition Ebad : Env :=
  {| Getenv := fun _ => "";
     configFile := Some badConfig;
     cachePath := cachePath E0;
     logPath := logPath E0; cacheReadErr := None; cacheRemoveErr := None;
     mkdirErr := None; cacheWriteErr := None; logReadErr := None;
     logOpenErr := None; logWriteErr := None;
     Executable := Executable E0; StartProcess := StartProcess E0;
     Do := Do E0; decodeResponse := decodeResponse E0;
     unmarshalError := unmarshalError E0; clock := clock E0;
     draw := draw E0 |}.

End Sample.

(** A world for the environment files: one file next to the
    executable, and a path in [FORTUNEBOT_ENV] that does not exist. *)
Module EnvSample.

Definition CR : string := String (ascii_of_nat 13) "".

Definition text : string :=
  "# keys" ++ newline
  ++ "OPENAI_API_KEY = sk-1" ++ CR ++ newline
  ++ "OPENAI_API_KEY=sk-2" ++ newline
  ++ "  OPENAI_MODEL =  gpt-x  " ++ newline.

(** The directory part of a path with slashes. *)
Fixpoint dirOf (p : string) : string :=
  match p with
  | EmptyString => ""
  | String c r => if dotenv.hasByte 47 r then String c (dirOf r) else ""
  end.

Definition W0 : dotenv.Files :=
  {| dotenv.Executable := Ok "/opt/fb/fortunebot";
     dotenv.Getwd := Ok "/home/u";
     dotenv.configPath := "/home/u/.config/fortunebot/config.json";
     dotenv.Dir := dirOf;
     dotenv.Join := fun d f => d ++ "/" ++ f;
     dotenv.Open := fun p =>
       if String.eqb p "/opt/fb/fortunebot.env" then dotenv.File text None
       else dotenv.NoFile (noSuchFile p) |}.

(** No file anywhere. *)
Definition Wnone : dotenv.Files :=
  {| dotenv.Executable := Ok "/opt/fb/fortunebot";
     dotenv.Getwd := Err "getwd: no such file or directory";
     dotenv.configPath := "/home/u/.config/fortunebot/config.json";
     dotenv.Dir := dirOf;
     dotenv.Join := fun d f => d ++ "/" ++ f;
     dotenv.Open := fun p => dotenv.NoFile (noSuchFile p) |}.

Definition env0 : dotenv.environ := fun k =>
  if String.eqb k "FORTUNEBOT_ENV" then "/missing.env"
  else if String.eqb k "OPENAI_API_KEY" then "sk-0"
  else "".

End EnvSample.

(** ** Notions used in the statements *)

(** The prompt, key and model a run resolves. *)
Definition thePrompt (E : Env) (fl : Flags) : string :=
  fst (resolvePromptWithSource E (flagPrompt fl) (loadConfig E)).
Definition theKey (E : Env) (fl : Flags) : string :=
  fst (resolveAPIKeyWithSource E (flagAPIKey fl) (loadConfig E)).
Definition theModel (E : Env) (fl : Flags) : string :=
  fst (resolveModelWithSource E (flagModel fl) (loadConfig E)).

(** [verbose] in [main]. *)
Definition verboseOf (fl : Flags) : bool :=
  flagVerbose fl && negb (flagQuiet fl).

(** [caching] in [main]. *)
Definition cachingOf (fl : Flags) : bool :=
  negb (flagNoCache fl) && (0 <? flagCacheTTL fl).

(** None of the three special modes is selected. *)
Definition normalMode (fl : Flags) : bool :=
  negb (flagPrefetchWork fl) && negb (flagShowLog fl)
  && negb (flagLogRandom fl).

(** The state in which normal mode reaches the cache lookup. *)
Definition prepared (E : Env) (fl : Flags) (st : State) : State :=
  let cfg := loadConfig E in
  let st1 := if flagClearCache fl then clearCache E st else st in
  if flagVerbose fl && negb (flagQuiet fl)
  then announce (fst (resolvePromptWithSource E (flagPrompt fl) cfg))
                (snd (resolvePromptWithSource E (flagPrompt fl) cfg))
                (fst (resolveAPIKeyWithSource E (flagAPIKey fl) cfg))
                (snd (resolveAPIKeyWithSource E (flagAPIKey fl) cfg))
                (fst (resolveModelWithSource E (flagModel fl) cfg))
                (snd (resolveModelWithSource E (flagModel fl) cfg)) st1
  else st1.

(** The state in which normal mode starts the synchronous fetch, when it
    does. *)
Definition beforeFetch (E : Env) (fl : Flags) (st : State) : State :=
  if verboseOf fl then
    Println (if cachingOf fl
             then "[fortunebot] No cache found. Fetching fresh fortune..."
             else "[fortunebot] Caching disabled. Fetching fresh fortune...")
      (prepared E fl st)
  else prepared E fl st.

(** The line [logFortune] appends when it reads the clock at [st]. *)
Definition logLine (E : Env) (f : string) (st : State) : string :=
  itoa (time.toUnix (time.ofClock (clock E (tick st))))
  ++ String tab (f ++ newline).

(** The contents of the log, empty when there is none. *)
Definition logText (st : State) : string :=
  match logFile st with Some b => b | None => "" end.

(** The background worker of a run: the program itself, started with
    [--prefetch-worker], the prompt and the model, and the key when
    there is one, and told through [FORTUNEBOT_VERBOSE] whether to
    report. *)
Definition workerCmd (exe prompt apiKey model : string) (verbose : bool)
  : process :=
  {| procExe := exe;
     procArgv :=
       match apiKey with
       | EmptyString =>
         [exe; "--prefetch-worker"; "--prompt"; prompt; "--model"; model]
       | _ =>
         [exe; "--prefetch-worker"; "--prompt"; prompt; "--model"; model;
          "--api-key"; apiKey]
       end;
     procEnvAdd :=
       if verbose then "FORTUNEBOT_VERBOSE=true"
       else "FORTUNEBOT_VERBOSE=false" |}.

(** [st'] differs from [st] at most in what was printed on standard
    output and in the number of clock readings. *)
Definition sameButStdout (st st' : State) : Prop :=
  cacheFile st' = cacheFile st /\ logFile st' = logFile st
  /\ stderr st' = stderr st /\ spawned st' = spawned st
  /\ netCalls st' = netCalls st.

(** The prefetch step that ends a served run. *)
Definition prefetchUnless (E : Env) (fl : Flags) (st : State) : State :=
  if flagNoPrefetch fl then st
  else startPrefetch E (thePrompt E fl) (theKey E fl) (theModel E fl)
         (verboseOf fl) st.

(** The largest TTL whose nanoseconds fit a [time.Duration]. *)
Definition maxTTL : Z := 9223372036.




(** What may follow a number in the documents [saveCache] writes: the
    end of the input or a closing brace. *)
Definition endsNumber (tail : string) : Prop :=
  match tail with
  | EmptyString => True
  | String c _ => byte c = 125%N
  end.

Definition closing (rest : string) : string := String "}" rest.

(** Lines that fit the buffer of the scanner. *)
Definition fits (lines : list string) : Prop :=
  Forall (fun l => dotenv.tooLong l = false) lines.

(** A list of paths without repetition and without a blank path, of at
    most [n] paths. *)
Definition tidy (paths : list string) (n : nat) : Prop :=
  NoDup paths /\ (forall p, In p paths -> blank p = false)
  /\ (List.length paths <= n)%nat.

(** The flags [flag.Parse] reads from the command line of a worker
    ([workerArgs]); a key that is empty is not passed, and reads as the
    default, the empty string. *)
Definition workerFlags (prompt apiKey model : string) : Flags :=
  {| flagPrompt := prompt; flagAPIKey := apiKey; flagModel := model;
     flagCacheTTL := cacheTTLDefault; flagNoCache := false;
     flagClearCache := false; flagNoPrefetch := false; flagVerbose := false;
     flagQuiet := false; flagShowLog := false; flagPrefetchWork := true;
     flagLogRandom := false |}.

(** [E'] has the configuration file of [E] and its environment, but
    for [FORTUNEBOT_VERBOSE]. *)
Definition sameSettings (E E' : Env) : Prop :=
  configFile E' = configFile E
  /\ forall k, k <> "FORTUNEBOT_VERBOSE" -> Getenv E' k = Getenv E k.

(** The request of a run. *)
Definition theRequest (E : Env) (fl : Flags) : request :=
  {| reqModel := theModel E fl; reqPrompt := thePrompt E fl;
     reqKey := theKey E fl |}.

(** A line of the log. *)
Definition entry (t : Z) (f : string) : string :=
  itoa t ++ String tab (f ++ newline).

(** The five paths through [main], each with what [main] amounts to on
    it: the worker, [--show-log], [--log-random], a cache hit, a fetch. *)
Inductive path (E : Env) (fl : Flags) (st : State) : Prop :=
| Worker :
    flagPrefetchWork fl = true ->
    main E fl st
    = runPrefetchWorker E (thePrompt E fl) (theKey E fl) (theModel E fl) st ->
    path E fl st
| ShowLog :
    flagPrefetchWork fl = false -> flagShowLog fl = true ->
    main E fl st = (0, printLog E st) ->
    path E fl st
| LogRandom :
    flagPrefetchWork fl = false -> flagShowLog fl = false ->
    flagLogRandom fl = true ->
    snd (main E fl st) = snd (randomFortuneFromLog E st)
    \/ (exists m, snd (main E fl st) = Eprint m (snd (randomFortuneFromLog E st)))
    \/ (exists f, snd (main E fl st) = Println f (snd (randomFortuneFromLog E st)))
    \/ (exists f g, snd (main E fl st)
                    = Println f (Println g (snd (randomFortuneFromLog E st)))) ->
    path E fl st
| Hit (c : fortuneCache) (stD : State) :
    normalMode fl = true -> cachingOf fl = true ->
    loadCache E (prepared E fl st) = Ok c ->
    main E fl st = (0, prefetchUnless E fl (Println (Fortune c) stD)) ->
    sameButStdout (prepared E fl st) stD ->
    path E fl st
| Fetch :
    normalMode fl = true ->
    main E fl st
    = fetchAndServe E fl (cachingOf fl) (verboseOf fl) (thePrompt E fl)
        (theKey E fl) (theModel E fl) (beforeFetch E fl st) ->
    path E fl st.

(** The line feed. *)
Definition LF : ascii := ascii_of_nat 10.

(** No tab and no line feed. *)
Fixpoint plain (s : string) : Prop :=
  match s with
  | EmptyString => True
  | String c r => c <> tab /\ c <> LF /\ plain r
  end.

(** The entries [randomFortuneFromLog] finds in a log. *)
Definition entries (b : string) : list string :=
  fortunesOf (Split LF b).

(** A log that is empty or ended by a line feed. *)
Definition ended (b : string) : Prop :=
  b = "" \/ exists b', b = b' ++ newline.

(** [E] with a disk that takes every write. *)
Definition writable (E : Env) : Env :=
  {| Getenv := Getenv E; configFile := configFile E; cachePath := cachePath E;
     logPath := logPath E; cacheReadErr := cacheReadErr E;
     cacheRemoveErr := cacheRemoveErr E;
     mkdirErr := None; cacheWriteErr := None;
     logReadErr := logReadErr E; logOpenErr := None; logWriteErr := None;
     Executable := Executable E; StartProcess := StartProcess E;
     Do := Do E; decodeResponse := decodeResponse E;
     unmarshalError := unmarshalError E; clock := clock E; draw := draw E |}.

(** Two states that show the same to the outside, files and standard
    error apart. *)
Definition sameShown (st st' : State) : Prop :=
  stdout st' = stdout st /\ spawned st' = spawned st
  /\ netCalls st' = netCalls st.

(** Two runs with the same exit status that show the same. *)
Definition sameRun (r r' : Z * State) : Prop :=
  fst r' = fst r /\ sameShown (snd r) (snd r').

(** A member that names a field of [config]. *)
Definition namesField (k : string) : bool :=
  json.keyMatches "api_key" k || json.keyMatches "default_prompt" k
  || json.keyMatches "model" k.

(** A value that is neither a string nor [null]. *)
Definition notString (v : json.value) : bool :=
  match v with
  | json.Str _ | json.Null => false
  | _ => true
  end.

(** Clock readings from 1970 to 2116, in nanoseconds. *)
Definition inEra (c : Z) : Prop := 0 <= c < 2 ^ 62.

(** A run that failed, and wrote last on the standard error a message
    that starts with the name of the program and ends with a line
    feed. *)
Definition explained (r : Z * State) : Prop :=
  fst r = 1
  /\ exists before m,
       stderr (snd r)
       = (before ++ [("[fortunebot] " ++ m ++ newline)%string])%list.

(** What the fetch of a run returns, when the run starts from [st]. *)
Definition fetched (E : Env) (fl : Flags) (st : State) : result string :=
  fst (generateFortune E (thePrompt E fl) (theKey E fl) (theModel E fl) st).

(** The record of the log for the fortune [f], stamped with the [n]th
    clock reading. *)
Definition logRecord (E : Env) (n : nat) (f : string) : string :=
  entry (time.toUnix (time.ofClock (clock E n))) f.

(** The record of the cache for the fortune [f], stamped with the
    [n]th clock reading. *)
Definition cacheRecord (E : Env) (n : nat) (f : string) : string :=
  Marshal_fortuneCache
    {| Fortune := f;
       Timestamp := float64_of_int64 (time.toUnix (time.ofClock (clock E n))) |}.



(** A string that does not start with a continuation byte. *)
Definition lead (w : string) : Prop :=
  match w with
  | EmptyString => True
  | String c _ => utf8.cont (byte c) = false
  end.

(** [json.Unmarshal] gives string fields valid UTF-8: it replaces the
    bytes that are not by U+FFFD. *)
Definition textDecoder (E : Env) : Prop :=
  forall body q,
    decodeResponse E body = Ok q ->
    Forall (Forall utf8.Valid) (Output q) /\ utf8.Valid (OutputText q).

(** ** Tactics *)

(** Case analysis on every [match] of the goal. *)
Ltac split_matches :=
  repeat match goal with
         | |- context [match ?x with _ => _ end] => destruct x eqn:?
         end.

(** A step leaves a field of the state alone. *)
Ltac frame :=
  intros;
  unfold startPrefetch, saveCache, logFortune, clearCache, announce,
    generateFortune, Println, Now;
  split_matches; reflexivity.

(** Boolean tests on bytes, as propositions. *)
Ltac bools :=
  repeat match goal with
  | H : (_ && _)%bool = true |- _ => apply andb_true_iff in H; destruct H
  | H : (_ || _)%bool = true |- _ => apply orb_true_iff in H; destruct H
  | H : (_ <=? _)%N = true |- _ => apply N.leb_le in H
  | H : (_ <? _)%N = true |- _ => apply N.ltb_lt in H
  | H : (_ =? _)%N = true |- _ => apply N.eqb_eq in H
  end.

(** Evaluate the tests on bytes that are given. *)
Ltac eval_bytes :=
  repeat match goal with
  | |- context [(byte ?c =? ?n)%N] =>
    let v := eval vm_compute in (byte c =? n)%N in
    lazymatch v with
    | true => change (byte c =? n)%N with true
    | false => change (byte c =? n)%N with false
    end
  | |- context [json.isWS (byte ?c)] =>
    let v := eval vm_compute in (json.isWS (byte c)) in
    lazymatch v with
    | true => change (json.isWS (byte c)) with true
    | false => change (json.isWS (byte c)) with false
    end
  end; cbv iota.

(** * Properties *)

(** ** Modes and the resolved configuration *)

Lemma isEmpty_true (s : string) : isEmpty s = true <-> s = "".
Proof. destruct s; simpl; split; congruence. Qed.

(** Caching is off when [--no-cache] is given or the TTL is not
    positive. *)
Lemma cachingOf_false (fl : Flags) :
  cachingOf fl = false <-> flagNoCache fl = true \/ flagCacheTTL fl <= 0.
Proof.
  unfold cachingOf. rewrite andb_false_iff, negb_false_iff, Z.ltb_ge.
  reflexivity.
Qed.

Lemma netCalls_announce p ps k ks m ms st :
  netCalls (announce p ps k ks m ms st) = netCalls st.
Proof. unfold announce. now destruct (negb (isEmpty k)). Qed.

Lemma netCalls_clearCache E st : netCalls (clearCache E st) = netCalls st.
Proof.
  unfold clearCache.
  destruct (cacheFile st); [destruct (cacheRemoveErr E)|]; reflexivity.
Qed.

(** Normal mode is [serve] on the resolved configuration. *)
Lemma main_normal E fl st :
  normalMode fl = true ->
  main E fl st =
  serve E fl (verboseOf fl) (thePrompt E fl) (theKey E fl) (theModel E fl)
    (prepared E fl st).
Proof.
  unfold normalMode. intros H.
  apply andb_true_iff in H as [H Hl]. apply andb_true_iff in H as [Hw Hs].
  apply negb_true_iff in Hw, Hs, Hl.
  unfold main, prepared, thePrompt, theKey, theModel, verboseOf.
  rewrite Hw, Hs, Hl.
  destruct (resolvePromptWithSource E (flagPrompt fl) (loadConfig E)).
  destruct (resolveAPIKeyWithSource E (flagAPIKey fl) (loadConfig E)).
  destruct (resolveModelWithSource E (flagModel fl) (loadConfig E)).
  reflexivity.
Qed.

Lemma netCalls_prepared E fl st : netCalls (prepared E fl st) = netCalls st.
Proof.
  unfold prepared.
  destruct (flagVerbose fl && negb (flagQuiet fl));
    rewrite ?netCalls_announce; destruct (flagClearCache fl);
    rewrite ?netCalls_clearCache; reflexivity.
Qed.


(** ** No API key *)




(** ** Frame lemmas *)

Lemma cacheFile_Println s st : cacheFile (Println s st) = cacheFile st.
Proof. reflexivity. Qed.

Lemma cacheFile_logFortune E f st :
  cacheFile (logFortune E f st) = cacheFile st.
Proof. frame. Qed.

Lemma spawned_logFortune E f st : spawned (logFortune E f st) = spawned st.
Proof. frame. Qed.

Lemma netCalls_logFortune E f st : netCalls (logFortune E f st) = netCalls st.
Proof. frame. Qed.

Lemma logFile_saveCache E f st : logFile (saveCache E f st) = logFile st.
Proof. frame. Qed.

Lemma spawned_saveCache E f st : spawned (saveCache E f st) = spawned st.
Proof. frame. Qed.

Lemma netCalls_saveCache E f st : netCalls (saveCache E f st) = netCalls st.
Proof. frame. Qed.

Lemma cacheFile_startPrefetch E p k m v st :
  cacheFile (startPrefetch E p k m v st) = cacheFile st.
Proof. frame. Qed.

Lemma logFile_startPrefetch E p k m v st :
  logFile (startPrefetch E p k m v st) = logFile st.
Proof. frame. Qed.

Lemma netCalls_startPrefetch E p k m v st :
  netCalls (startPrefetch E p k m v st) = netCalls st.
Proof. frame. Qed.

Lemma logFile_clearCache E st : logFile (clearCache E st) = logFile st.
Proof. frame. Qed.

Lemma spawned_clearCache E st : spawned (clearCache E st) = spawned st.
Proof. frame. Qed.

Lemma logFile_announce p ps k ks m ms st :
  logFile (announce p ps k ks m ms st) = logFile st.
Proof. frame. Qed.

Lemma cacheFile_announce p ps k ks m ms st :
  cacheFile (announce p ps k ks m ms st) = cacheFile st.
Proof. frame. Qed.

Lemma spawned_announce p ps k ks m ms st :
  spawned (announce p ps k ks m ms st) = spawned st.
Proof. frame. Qed.

Lemma logFile_prepared E fl st : logFile (prepared E fl st) = logFile st.
Proof.
  unfold prepared.
  destruct (flagVerbose fl && negb (flagQuiet fl));
    rewrite ?logFile_announce; destruct (flagClearCache fl);
    rewrite ?logFile_clearCache; reflexivity.
Qed.

Lemma spawned_prepared E fl st : spawned (prepared E fl st) = spawned st.
Proof.
  unfold prepared.
  destruct (flagVerbose fl && negb (flagQuiet fl));
    rewrite ?spawned_announce; destruct (flagClearCache fl);
    rewrite ?spawned_clearCache; reflexivity.
Qed.

(** Without [--clear-cache] the cache file reaches the lookup as it was;
    with it, as [clearCache] left it. *)
Lemma cacheFile_prepared E fl st :
  cacheFile (prepared E fl st)
  = cacheFile (if flagClearCache fl then clearCache E st else st).
Proof.
  unfold prepared.
  destruct (flagVerbose fl && negb (flagQuiet fl));
    rewrite ?cacheFile_announce; reflexivity.
Qed.

(** A fetch records at most one request and touches nothing else. *)
Lemma generateFortune_frame E p k m st r st1 :
  generateFortune E p k m st = (r, st1) ->
  cacheFile st1 = cacheFile st /\ logFile st1 = logFile st
  /\ stdout st1 = stdout st /\ stderr st1 = stderr st
  /\ spawned st1 = spawned st /\ tick st1 = tick st.
Proof.
  unfold generateFortune. intros H.
  repeat match type of H with
         | context [match ?x with _ => _ end] => destruct x
         end; inversion H; subst; cbn; auto 10.
Qed.

(** ** Trimming *)

Lemma drop_drop n k s : drop k (drop n s) = drop (n + k) s.
Proof.
  revert s. induction n as [|n IH]; intros s; simpl.
  - reflexivity.
  - destruct s; simpl; [now destruct k | apply IH].
Qed.

Lemma trimWith_drop len fuel s : exists k, trimWith len fuel s = drop k s.
Proof.
  revert s. induction fuel as [|fuel IH]; intros s; cbn [trimWith].
  - now exists 0%nat.
  - destruct (len s) as [|n] eqn:Hn.
    + now exists 0%nat.
    + destruct (IH (drop (S n) s)) as [k Hk].
      exists (S n + k)%nat. now rewrite Hk, drop_drop.
Qed.

Lemma list_of_drop k s :
  list_ascii_of_string (drop k s) = skipn k (list_ascii_of_string s).
Proof.
  revert s. induction k as [|k IH]; intros s; simpl.
  - reflexivity.
  - destruct s; simpl; [reflexivity | apply IH].
Qed.

(** Trimming on the right keeps a prefix. *)
Lemma TrimRightSpace_firstn s :
  exists n,
    TrimRightSpace s
    = string_of_list_ascii (firstn n (list_ascii_of_string s)).
Proof.
  unfold TrimRightSpace.
  destruct (trimWith_drop spaceLenRev (String.length s) (strings.rev s))
    as [k Hk].
  rewrite Hk. unfold strings.rev.
  exists (List.length (list_ascii_of_string s) - k)%nat.
  f_equal. rewrite list_of_drop, list_ascii_of_string_of_list_ascii.
  rewrite skipn_rev, rev_involutive. reflexivity.
Qed.

(** A string whose first byte starts no white-space rune is not trimmed
    on the left. *)
Lemma TrimLeftSpace_head a r :
  spaceLen (String a r) = 0%nat -> TrimLeftSpace (String a r) = String a r.
Proof.
  intros H. unfold TrimLeftSpace. cbn [String.length trimWith]. now rewrite H.
Qed.

Lemma marker_head x :
  exists r, marker ++ x = String (ascii_of_nat 195) r
            /\ spaceLen (String (ascii_of_nat 195) r) = 0%nat.
Proof. eexists. split; reflexivity. Qed.

(** What [generateFortune] returns is never taken for an error message:
    it starts with the marker. *)
Lemma isErrorFortune_marker x : isErrorFortune (marker ++ x) = false.
Proof.
  destruct (marker_head x) as [r [Hr Hs]]. rewrite Hr.
  unfold isErrorFortune, TrimSpace. rewrite (TrimLeftSpace_head _ _ Hs).
  destruct (TrimRightSpace_firstn (String (ascii_of_nat 195) r)) as [n Hn].
  rewrite Hn. destruct n; reflexivity.
Qed.

Lemma generateFortune_ok E p k m st f st1 :
  generateFortune E p k m st = (Ok f, st1) ->
  isErrorFortune f = false
  /\ st1 = addCall {| reqModel := m; reqPrompt := p; reqKey := k |} st.
Proof.
  unfold generateFortune. intros H.
  repeat match type of H with
         | context [match ?x with _ => _ end] => destruct x
         end; inversion H; subst.
  split; [apply isErrorFortune_marker | reflexivity].
Qed.

(** ** Configuration *)

Lemma blank_defaults : blank defaultModel = false /\ blank defaultPrompt = false.
Proof. split; vm_compute; reflexivity. Qed.

Lemma loadConfig_no_file E :
  configFile E = None ->
  loadConfig E
  = {| APIKey := ""; DefaultPrompt := defaultPrompt; Model := defaultModel |}.
Proof. intros H. unfold loadConfig. now rewrite H. Qed.

(** The order in which the sources of the model are consulted. *)
Lemma resolveModel_precedence E cli cfg :
  (blank cli = false ->
   resolveModelWithSource E cli cfg = (cli, "--model flag"))
  /\ (blank cli = true -> Getenv E "FORTUNEBOT_MODEL" <> "" ->
      resolveModelWithSource E cli cfg
      = (Getenv E "FORTUNEBOT_MODEL", "env FORTUNEBOT_MODEL"))
  /\ (blank cli = true -> Getenv E "FORTUNEBOT_MODEL" = "" ->
      Getenv E "OPENAI_MODEL" <> "" ->
      resolveModelWithSource E cli cfg
      = (Getenv E "OPENAI_MODEL", "env OPENAI_MODEL"))
  /\ (blank cli = true -> Getenv E "FORTUNEBOT_MODEL" = "" ->
      Getenv E "OPENAI_MODEL" = "" -> blank (Model cfg) = false ->
      resolveModelWithSource E cli cfg
      = (Model cfg, "~/.config/fortunebot/config.json"))
  /\ (blank cli = true -> Getenv E "FORTUNEBOT_MODEL" = "" ->
      Getenv E "OPENAI_MODEL" = "" -> blank (Model cfg) = true ->
      resolveModelWithSource E cli cfg = (defaultModel, "built-in default")).
Proof.
  unfold resolveModelWithSource.
  repeat split; intros;
    repeat match goal with
           | H : blank _ = _ |- _ => rewrite H
           | H : Getenv _ _ = "" |- _ => rewrite H
           | H : Getenv _ ?k <> "" |- _ =>
             destruct (Getenv E k) eqn:?; [congruence|]
           end; reflexivity.
Qed.

(** The configuration [loadConfig] returns never has a blank model or
    prompt left for the last case unless the file itself holds white
    space there: an absent value has been replaced by the default. *)
Lemma loadConfig_fills E :
  isEmpty (Model (loadConfig E)) = false
  /\ isEmpty (DefaultPrompt (loadConfig E)) = false.
Proof.
  unfold loadConfig.
  destruct (configFile E) as [b|]; [|split; reflexivity].
  destruct (Unmarshal_config b) as [c|]; [|split; reflexivity].
  cbn [Model DefaultPrompt].
  split.
  - destruct (isEmpty (Model c)) eqn:H; [reflexivity | exact H].
  - destruct (isEmpty (DefaultPrompt c)) eqn:H; [reflexivity | exact H].
Qed.

(** C3. With no configuration file, no flag and no environment variable,
    the model and the prompt resolve to the built-in defaults, and the
    source reported with them is the configuration file: [loadConfig] has
    already put the defaults into the configuration it returns. *)
Theorem C3_default_reported_as_config (E : Env) (cli : string) :
  configFile E = None -> blank cli = true ->
  Getenv E "FORTUNEBOT_MODEL" = "" -> Getenv E "OPENAI_MODEL" = "" ->
  Getenv E "FORTUNEBOT_PROMPT" = "" ->
  resolveModelWithSource E cli (loadConfig E)
  = (defaultModel, "~/.config/fortunebot/config.json")
  /\ resolvePromptWithSource E cli (loadConfig E)
     = (defaultPrompt, "~/.config/fortunebot/config.json").
Proof.
  intros Hc Hb H1 H2 H3. rewrite (loadConfig_no_file E Hc).
  unfold resolveModelWithSource, resolvePromptWithSource.
  rewrite Hb, H1, H2, H3. cbn [Model DefaultPrompt isEmpty negb].
  destruct blank_defaults as [-> ->]. split; reflexivity.
Qed.

Lemma C3_default_reported_as_config_witness :
  resolveModelWithSource Sample.Enokey "" (loadConfig Sample.Enokey)
  = (defaultModel, "~/.config/fortunebot/config.json")
  /\ resolvePromptWithSource Sample.Enokey "" (loadConfig Sample.Enokey)
     = (defaultPrompt, "~/.config/fortunebot/config.json").
Proof.
  apply (C3_default_reported_as_config Sample.Enokey ""); reflexivity.
Defined.

(** ** Normal mode with caching off *)

Lemma serve_off E fl v p k m st :
  cachingOf fl = false ->
  serve E fl v p k m st
  = fetchAndServe E fl false v p k m
      (if v
       then Println "[fortunebot] Caching disabled. Fetching fresh fortune..." st
       else st).
Proof. unfold serve, cachingOf. intros ->. reflexivity. Qed.

(** With the log writable, a fortune from [generateFortune] is appended
    to the log as one line. *)
Lemma logFortune_appends E f st :
  isErrorFortune f = false -> logOpenErr E = None -> logWriteErr E = None ->
  logFile (logFortune E f st) = Some (logText st ++ logLine E f st).
Proof.
  intros Hf Ho Hw. unfold logFortune, logText, logLine, Now.
  rewrite Hf, Ho, Hw. reflexivity.
Qed.

(** C1, on a sample run: [--no-cache], a key in the environment, a
    network that answers.  The fetch succeeds and the run exits with
    status 0, yet there is no cache file afterwards and no process was
    started, although [--no-prefetch] was not given. *)
Lemma C1_counterexample :
  cachingOf Sample.flNoCache = false
  /\ flagNoPrefetch Sample.flNoCache = false
  /\ fst (generateFortune Sample.E0 (thePrompt Sample.E0 Sample.flNoCache)
            (theKey Sample.E0 Sample.flNoCache)
            (theModel Sample.E0 Sample.flNoCache)
            (beforeFetch Sample.E0 Sample.flNoCache Sample.st0))
     = Ok (marker ++ "Good luck.")
  /\ fst (main Sample.E0 Sample.flNoCache Sample.st0) = 0
  /\ cacheFile (snd (main Sample.E0 Sample.flNoCache Sample.st0)) = None
  /\ spawned (snd (main Sample.E0 Sample.flNoCache Sample.st0)) = [].
Proof. repeat split; vm_compute; reflexivity. Qed.

(** C1, as the code has it.  In normal mode with caching off, when the
    synchronous fetch returns the fortune [f], the run logs [f], prints
    it and exits with status 0.  It does not save [f] to the cache and
    starts no worker: the cache file is as it was when the fetch
    started, and no process is added. *)
Theorem C1_no_cache_fetch (E : Env) (fl : Flags) (st st1 : State)
  (f : string) :
  normalMode fl = true ->
  flagNoCache fl = true \/ flagCacheTTL fl <= 0 ->
  generateFortune E (thePrompt E fl) (theKey E fl) (theModel E fl)
    (beforeFetch E fl st) = (Ok f, st1) ->
  main E fl st = (0, Println f (logFortune E f st1))
  /\ stdout (snd (main E fl st))
     = (stdout (beforeFetch E fl st) ++ [(f ++ newline)%string])%list
  /\ (logOpenErr E = None -> logWriteErr E = None ->
      logFile (snd (main E fl st))
      = Some (logText st ++ logLine E f (beforeFetch E fl st)))
  /\ cacheFile (snd (main E fl st)) = cacheFile (prepared E fl st)
  /\ spawned (snd (main E fl st)) = spawned st.
Proof.
  intros Hn Hc Hg.
  apply cachingOf_false in Hc.
  assert (Hm : main E fl st = (0, Println f (logFortune E f st1))).
  { rewrite (main_normal E fl st Hn), (serve_off _ _ _ _ _ _ _ Hc).
    unfold beforeFetch in Hg. rewrite Hc in Hg.
    unfold fetchAndServe. rewrite Hg. reflexivity. }
  rewrite Hm. cbn [snd].
  destruct (generateFortune_ok _ _ _ _ _ _ _ Hg) as [Hf _].
  destruct (generateFortune_frame _ _ _ _ _ _ _ Hg)
    as (Hcf & Hlf & Hso & _ & Hsp & Htk).
  assert (Hb : cacheFile (beforeFetch E fl st) = cacheFile (prepared E fl st)
               /\ spawned (beforeFetch E fl st) = spawned st
               /\ logFile (beforeFetch E fl st) = logFile st).
  { unfold beforeFetch.
    destruct (verboseOf fl); cbn;
      rewrite spawned_prepared, logFile_prepared; auto. }
  destruct Hb as (Hb1 & Hb2 & Hb3).
  split; [reflexivity|]. split; [|split; [|split]].
  - cbn. f_equal.
    transitivity (stdout st1); [|exact Hso].
    unfold logFortune, Now, Eprint, setLog. split_matches; reflexivity.
  - intros Ho Hw. cbn. rewrite (logFortune_appends E f st1 Hf Ho Hw).
    unfold logText, logLine. now rewrite Hlf, Htk, Hb3.
  - cbn. now rewrite cacheFile_logFortune, Hcf.
  - cbn. now rewrite spawned_logFortune, Hsp.
Qed.

Lemma C1_no_cache_fetch_witness :
  main Sample.E0 Sample.flNoCache Sample.st0
  = (0, Println (marker ++ "Good luck.")
          (logFortune Sample.E0 (marker ++ "Good luck.")
             (addCall {| reqModel := defaultModel; reqPrompt := defaultPrompt;
                         reqKey := "sk-test" |} Sample.st0)))
  /\ cacheFile (snd (main Sample.E0 Sample.flNoCache Sample.st0)) = None.
Proof.
  destruct (C1_no_cache_fetch Sample.E0 Sample.flNoCache Sample.st0
              (addCall {| reqModel := defaultModel; reqPrompt := defaultPrompt;
                          reqKey := "sk-test" |} Sample.st0)
              (marker ++ "Good luck."))
    as (H1 & _ & _ & H4 & _).
  - reflexivity.
  - left; reflexivity.
  - vm_compute; reflexivity.
  - split; [exact H1 | exact H4].
Defined.

(** ** Normal mode with a cache entry *)

(** The process [startPrefetch] asks for is the background worker. *)
Lemma startPrefetch_cmd (exe p k m : string) (v : bool) :
  {| procExe := exe;
     procArgv := exe :: workerArgs p k m;
     procEnvAdd := "FORTUNEBOT_VERBOSE=" ++ (if v then "true" else "false") |}
  = workerCmd exe p k m v.
Proof. unfold workerCmd, workerArgs. destruct k, v; reflexivity. Qed.


Lemma sameButStdout_refl st : sameButStdout st st.
Proof. repeat split. Qed.

(** Reading the age of the entry, and announcing it, leaves all but the
    standard output as it was. *)
Lemma cacheIsFresh_same E c ttl st :
  sameButStdout st (snd (cacheIsFresh E c ttl st))
  /\ stdout (snd (cacheIsFresh E c ttl st)) = stdout st.
Proof. repeat split. Qed.

Lemma formatAge_same E ts st :
  sameButStdout st (snd (formatAge E ts st))
  /\ stdout (snd (formatAge E ts st)) = stdout st.
Proof. repeat split. Qed.



(** ** Freshness *)

Lemma wrap64_small z : minInt64 <= z <= maxInt64 -> wrap64 z = z.
Proof.
  unfold wrap64, minInt64, maxInt64. intros H.
  rewrite Z.mod_small; lia.
Qed.

Lemma seconds_in_range ttl :
  0 < ttl <= maxTTL -> time.seconds ttl = ttl * time.Second.
Proof.
  unfold maxTTL, time.seconds, time.Second. intros H.
  apply wrap64_small. unfold minInt64, maxInt64. lia.
Qed.

(** While the TTL fits a duration, an entry is fresh exactly when its
    age is below the TTL; an age equal to the TTL is stale. *)
Lemma cacheIsFresh_in_range E c ttl st :
  0 < ttl <= maxTTL ->
  fst (cacheIsFresh E c ttl st) = true
  <-> fst (ageOf E (Timestamp c) st) < ttl * time.Second.
Proof.
  intros H. unfold cacheIsFresh.
  destruct (ageOf E (Timestamp c) st) as [age st1]. cbn [fst].
  rewrite (seconds_in_range ttl H). apply Z.ltb_lt.
Qed.

(** C4, at a TTL beyond the range of [time.Duration]: the entry was
    stamped at the very second of the clock reading, its age is 0, the
    TTL is 9223372037 seconds, and [cacheIsFresh] answers false, since
    the TTL in nanoseconds wraps around to a negative duration. *)
Theorem C4_ttl_overflow :
  0 < Sample.hugeTTL
  /\ fst (ageOf Sample.E0 (Timestamp Sample.newEntry) Sample.st0) = 0
  /\ time.seconds Sample.hugeTTL < 0
  /\ fst (cacheIsFresh Sample.E0 Sample.newEntry Sample.hugeTTL Sample.st0)
     = false.
Proof. repeat split. Qed.

(** An entry stamped after the clock reading is fresh for every TTL that
    fits a duration.  [Timestamp c] is the integer part of the stored
    number, so a number above the clock reading gives
    [now < (Timestamp c + 1) * Second]. *)
Lemma cacheIsFresh_future E c ttl st :
  0 < ttl <= maxTTL ->
  minInt64 <= Timestamp c <= maxInt64 - time.unixToInternal ->
  clock E (tick st) < (Timestamp c + 1) * time.Second ->
  fst (cacheIsFresh E c ttl st) = true.
Proof.
  intros Ht Hr Hf. apply (cacheIsFresh_in_range E c ttl st Ht).
  unfold ageOf, Now. cbn [fst].
  unfold int64_of_float64.
  replace ((minInt64 <=? Timestamp c) && (Timestamp c <=? maxInt64))
    with true.
  2:{ symmetry. apply andb_true_iff. split; apply Z.leb_le;
      unfold minInt64, maxInt64, time.unixToInternal in *; lia. }
  unfold time.Unix, time.ofClock, time.Sub. cbn [time.sec time.nsec].
  rewrite wrap64_small
    by (unfold minInt64, maxInt64, time.unixToInternal in *; lia).
  set (now := clock E (tick st)) in *.
  assert (Hd : (now / time.Second + time.unixToInternal
                - (Timestamp c + time.unixToInternal)) * time.Second
               + (now mod time.Second - 0)
               = now - Timestamp c * time.Second).
  { pose proof (Z.div_mod now time.Second) as Hdm.
    unfold time.Second in *. lia. }
  rewrite Hd.
  unfold time.minDuration, time.maxDuration, minInt64, maxInt64, maxTTL,
    time.Second in *.
  destruct (now - Timestamp c * 1000000000 <? - 2 ^ 63) eqn:H1; [lia|].
  destruct (2 ^ 63 - 1 <? now - Timestamp c * 1000000000) eqn:H2.
  - apply Z.ltb_lt in H2. lia.
  - lia.
Qed.

(** C10, at a TTL beyond the range of [time.Duration]: the entry is
    stamped an hour after the clock reading, and [cacheIsFresh] answers
    false for the TTL 9223372037. *)
Theorem C10_future_ttl_overflow :
  0 < Sample.hugeTTL
  /\ clock Sample.E0 (tick Sample.st0)
     < Timestamp Sample.futureEntry * time.Second
  /\ fst (cacheIsFresh Sample.E0 Sample.futureEntry Sample.hugeTTL Sample.st0)
     = false.
Proof. repeat split. Qed.

(** ** Error messages stay out of the cache and the log *)

(** Nothing but [loadCache], [saveCache] and [clearCache] looks at the
    cache file: the other steps commute with a change of it. *)
Lemma generateFortune_setCache E p k m x st :
  generateFortune E p k m (setCache x st)
  = (fst (generateFortune E p k m st),
     setCache x (snd (generateFortune E p k m st))).
Proof. unfold generateFortune. split_matches; reflexivity. Qed.

Lemma logFortune_setCache E f x st :
  logFortune E f (setCache x st) = setCache x (logFortune E f st).
Proof. unfold logFortune, Now. cbn. split_matches; reflexivity. Qed.

Lemma Println_setCache s x st :
  Println s (setCache x st) = setCache x (Println s st).
Proof. reflexivity. Qed.

Lemma Eprint_setCache s x st :
  Eprint s (setCache x st) = setCache x (Eprint s st).
Proof. reflexivity. Qed.

Lemma startPrefetch_setCache E p k m v x st :
  startPrefetch E p k m v (setCache x st)
  = setCache x (startPrefetch E p k m v st).
Proof. unfold startPrefetch. split_matches; reflexivity. Qed.

(** [saveCache] either overwrites the file, whatever it held, or leaves
    it alone. *)
Lemma saveCache_setCache E f x st :
  saveCache E f (setCache x st) = saveCache E f st
  \/ saveCache E f (setCache x st) = setCache x (saveCache E f st).
Proof.
  unfold saveCache, Now. cbn.
  destruct (isErrorFortune f); [now right|].
  destruct (mkdirErr E); [now right|].
  destruct (cacheWriteErr E) as [[m|m n]|];
    [now right | now left | now left].
Qed.

Lemma setCache_setCache x y st : setCache x (setCache y st) = setCache x st.
Proof. reflexivity. Qed.

Lemma fetchAndServe_setCache E fl ca v p k m x st :
  let r := fetchAndServe E fl ca v p k m st in
  fetchAndServe E fl ca v p k m (setCache x st) = r
  \/ fetchAndServe E fl ca v p k m (setCache x st)
     = (fst r, setCache x (snd r)).
Proof.
  cbv zeta. unfold fetchAndServe.
  rewrite generateFortune_setCache.
  destruct (generateFortune E p k m st) as [[f | e] st1]; cbn [fst snd].
  - rewrite logFortune_setCache, Println_setCache.
    destruct ca; [|now right].
    destruct (saveCache_setCache E f x (Println f (logFortune E f st1)))
      as [-> | ->].
    + now left.
    + right. destruct (negb (flagNoPrefetch fl)); cbn [fst snd];
        now rewrite ?startPrefetch_setCache.
  - now right.
Qed.

(** A run that finds no usable entry goes on as if there were no cache
    file. *)
Lemma serve_miss E fl v p k m st e :
  loadCache E st = Err e ->
  let r := serve E fl v p k m st in
  serve E fl v p k m (setCache None st) = r
  \/ serve E fl v p k m (setCache None st) = (fst r, setCache None (snd r)).
Proof.
  intros Hl. cbv zeta. unfold serve.
  destruct (negb (flagNoCache fl) && (0 <? flagCacheTTL fl)).
  - rewrite Hl. unfold loadCache, readCacheFile. cbn [cacheFile setCache].
    destruct v; rewrite ?Println_setCache; apply fetchAndServe_setCache.
  - destruct v; rewrite ?Println_setCache; apply fetchAndServe_setCache.
Qed.

(** C5. For a string tagged as an error, [saveCache] and [logFortune]
    return the state they were given.  When the record in the cache
    file carries such a string, [loadCache] fails, as it does without
    the file, and the run goes on as it would without the file: same
    exit status and same final state, except that the file is still
    there if the run did not rewrite it. *)
Theorem C5_error_text_excluded (E : Env) (st : State) :
  (forall f, isErrorFortune f = true ->
             saveCache E f st = st /\ logFortune E f st = st)
  /\ (forall b c,
        readCacheFile E st = Ok b ->
        Unmarshal_fortuneCache b = Some c ->
        isErrorFortune (Fortune c) = true ->
        loadCache E st = Err "cache is error"
        /\ loadCache E (setCache None st) = Err (noSuchFile (cachePath E))
        /\ forall fl v p k m,
             let r := serve E fl v p k m st in
             serve E fl v p k m (setCache None st) = r
             \/ serve E fl v p k m (setCache None st)
                = (fst r, setCache None (snd r))).
Proof.
  split.
  - intros f Hf. unfold saveCache, logFortune. now rewrite Hf.
  - intros b c Hr Hu He.
    assert (Hl : loadCache E st = Err "cache is error").
    { unfold loadCache. now rewrite Hr, Hu, He. }
    split; [exact Hl|]. split; [reflexivity|].
    intros fl v p k m. exact (serve_miss E fl v p k m st _ Hl).
Qed.

Lemma C5_error_text_excluded_witness :
  (saveCache Sample.E0 (Fortune Sample.errEntry) Sample.stErr = Sample.stErr
   /\ logFortune Sample.E0 (Fortune Sample.errEntry) Sample.stErr
      = Sample.stErr)
  /\ loadCache Sample.E0 Sample.stErr = Err "cache is error".
Proof.
  destruct (C5_error_text_excluded Sample.E0 Sample.stErr) as [H1 H2].
  split.
  - apply H1. vm_compute; reflexivity.
  - apply (H2 (Marshal_fortuneCache Sample.errEntry) Sample.errEntry).
    + reflexivity.
    + vm_compute; reflexivity.
    + vm_compute; reflexivity.
Defined.

(** ** A fetch that fails *)

(** Normal mode reaches the synchronous fetch when caching is off or
    [loadCache] fails. *)
Lemma main_fetch E fl st :
  normalMode fl = true ->
  cachingOf fl = false \/ (exists e, loadCache E (prepared E fl st) = Err e) ->
  main E fl st
  = fetchAndServe E fl (cachingOf fl) (verboseOf fl) (thePrompt E fl)
      (theKey E fl) (theModel E fl) (beforeFetch E fl st).
Proof.
  intros Hn Hc. rewrite (main_normal E fl st Hn).
  unfold serve, beforeFetch. fold (cachingOf fl).
  destruct (cachingOf fl) eqn:Hca.
  - destruct Hc as [Hc | [e He]]; [discriminate|]. now rewrite He.
  - reflexivity.
Qed.

Lemma main_worker E fl st :
  flagPrefetchWork fl = true ->
  main E fl st
  = runPrefetchWorker E (thePrompt E fl) (theKey E fl) (theModel E fl) st.
Proof.
  intros Hw. unfold main, thePrompt, theKey, theModel. rewrite Hw.
  destruct (resolvePromptWithSource E (flagPrompt fl) (loadConfig E)).
  destruct (resolveAPIKeyWithSource E (flagAPIKey fl) (loadConfig E)).
  destruct (resolveModelWithSource E (flagModel fl) (loadConfig E)).
  reflexivity.
Qed.

Lemma beforeFetch_files E fl st :
  cacheFile (beforeFetch E fl st) = cacheFile (prepared E fl st)
  /\ logFile (beforeFetch E fl st) = logFile st.
Proof.
  unfold beforeFetch.
  destruct (verboseOf fl); cbn; rewrite logFile_prepared; auto.
Qed.

(** C6, on a sample run: [--clear-cache] with a cache file present and
    no API key.  The fetch fails, the run exits with status 1, and the
    cache file that was there before the run is gone. *)
Lemma C6_counterexample :
  fst (generateFortune Sample.Enokey (thePrompt Sample.Enokey Sample.flClear)
         (theKey Sample.Enokey Sample.flClear)
         (theModel Sample.Enokey Sample.flClear)
         (beforeFetch Sample.Enokey Sample.flClear Sample.stCached))
  = Err "no API key provided"
  /\ fst (main Sample.Enokey Sample.flClear Sample.stCached) = 1
  /\ cacheFile Sample.stCached
     = Some (Marshal_fortuneCache Sample.oldEntry)
  /\ cacheFile (snd (main Sample.Enokey Sample.flClear Sample.stCached))
     = None.
Proof. repeat split. Qed.

(** C6, as the code has it.  When the synchronous fetch of a normal-mode
    run fails with the message [msg], the run adds the error line to its
    diagnostics and exits with status 1; it prints no fortune, the log
    file is as it was before the run, and the cache file is as it was
    before the run unless [--clear-cache] was given, in which case it is
    as [clearCache] left it.  When the fetch of the worker fails, the
    worker adds its error line, exits with status 1 and leaves both
    files as they were. *)
Theorem C6_fetch_failure (E : Env) (fl : Flags) (st st1 : State)
  (msg : string) :
  (normalMode fl = true ->
   cachingOf fl = false \/ (exists e, loadCache E (prepared E fl st) = Err e) ->
   generateFortune E (thePrompt E fl) (theKey E fl) (theModel E fl)
     (beforeFetch E fl st) = (Err msg, st1) ->
   main E fl st
   = (1, Eprint ("[fortunebot] Error: " ++ msg ++ newline) st1)
   /\ stdout (snd (main E fl st)) = stdout (beforeFetch E fl st)
   /\ logFile (snd (main E fl st)) = logFile st
   /\ cacheFile (snd (main E fl st))
      = cacheFile (if flagClearCache fl then clearCache E st else st)
   /\ (flagClearCache fl = false ->
       cacheFile (snd (main E fl st)) = cacheFile st))
  /\ (flagPrefetchWork fl = true ->
      generateFortune E (thePrompt E fl) (theKey E fl) (theModel E fl) st
      = (Err msg, st1) ->
      main E fl st
      = (1, Eprint ("[fortunebot] Background prefetch failed: " ++ msg
                    ++ newline) st1)
      /\ logFile (snd (main E fl st)) = logFile st
      /\ cacheFile (snd (main E fl st)) = cacheFile st).
Proof.
  split.
  - intros Hn Hc Hg.
    destruct (generateFortune_frame _ _ _ _ _ _ _ Hg)
      as (Hcf & Hlf & Hso & _ & _ & _).
    destruct (beforeFetch_files E fl st) as [Hb1 Hb2].
    rewrite (main_fetch E fl st Hn Hc). unfold fetchAndServe. rewrite Hg.
    cbn [snd]. split; [reflexivity|]. cbn.
    rewrite Hso, Hlf, Hcf, Hb1, Hb2, cacheFile_prepared.
    repeat split. now intros ->.
  - intros Hw Hg.
    destruct (generateFortune_frame _ _ _ _ _ _ _ Hg)
      as (Hcf & Hlf & _).
    rewrite (main_worker E fl st Hw). unfold runPrefetchWorker. rewrite Hg.
    cbn. auto.
Qed.

Lemma C6_fetch_failure_witness :
  (main Sample.Enokey Sample.flNoCache Sample.stCached
   = (1, Eprint ("[fortunebot] Error: " ++ "no API key provided" ++ newline)
           Sample.stCached)
   /\ cacheFile (snd (main Sample.Enokey Sample.flNoCache Sample.stCached))
      = cacheFile Sample.stCached)
  /\ (main Sample.Enokey Sample.flWorker Sample.stCached
      = (1, Eprint ("[fortunebot] Background prefetch failed: "
                    ++ "no API key provided" ++ newline) Sample.stCached)
      /\ cacheFile (snd (main Sample.Enokey Sample.flWorker Sample.stCached))
         = cacheFile Sample.stCached).
Proof.
  split.
  - destruct (C6_fetch_failure Sample.Enokey Sample.flNoCache Sample.stCached
                Sample.stCached "no API key provided") as [H _].
    destruct H as (H1 & _ & _ & _ & H5).
    + reflexivity.
    + left; reflexivity.
    + reflexivity.
    + split; [exact H1 | apply H5; reflexivity].
  - destruct (C6_fetch_failure Sample.Enokey Sample.flWorker Sample.stCached
                Sample.stCached "no API key provided") as [_ H].
    destruct H as (H1 & _ & H3).
    + reflexivity.
    + reflexivity.
    + split; [exact H1 | exact H3].
Defined.

(** ** A random fortune from the log *)







(** ** UTF-8: encoding what was decoded *)

Module utf8_facts.
Import utf8.

Lemma chr_byte a : chr (byte a) = a.
Proof. apply ascii_N_embedding. Qed.

Lemma div_mul_add (q r d : N) : (r < d)%N -> ((q * d + r) / d = q)%N.
Proof. intros H. symmetry. apply (N.div_unique _ d _ r); lia. Qed.

Lemma mod_mul_add (q r d : N) : (r < d)%N -> ((q * d + r) mod d = r)%N.
Proof. intros H. symmetry. apply (N.mod_unique _ d q); lia. Qed.

Lemma Encode_rune2 a b :
  ok2 (byte a) (byte b) = true ->
  EncodeRune (rune2 (byte a) (byte b)) = String a (String b "").
Proof.
  intros H. unfold ok2, cont in H. bools.
  set (x := byte a) in *. set (y := byte b) in *.
  unfold EncodeRune, rune2.
  replace ((x - 192) * 64 + (y - 128) <? 128)%N with false
    by (symmetry; apply N.ltb_ge; lia).
  replace ((x - 192) * 64 + (y - 128) <? 2048)%N with true
    by (symmetry; apply N.ltb_lt; lia).
  rewrite div_mul_add, mod_mul_add by lia.
  replace (192 + (x - 192))%N with x by lia.
  replace (128 + (y - 128))%N with y by lia.
  subst x y. now rewrite !chr_byte.
Qed.

Lemma Encode_rune3 a b c :
  ok3 (byte a) (byte b) (byte c) = true ->
  EncodeRune (rune3 (byte a) (byte b) (byte c))
  = String a (String b (String c "")).
Proof.
  intros H. unfold ok3, cont in H.
  set (x := byte a) in *. set (y := byte b) in *. set (z := byte c) in *.
  assert (Hx : (224 <= x <= 239)%N) by (bools; lia).
  assert (Hy : (128 <= y <= 191)%N) by (bools; lia).
  assert (Hz : (128 <= z <= 191)%N) by (bools; lia).
  assert (Hlo : (x = 224 -> 160 <= y)%N) by (bools; lia).
  assert (Hsur : (x = 237 -> y <= 159)%N) by (bools; lia).
  clear H. unfold EncodeRune, rune3.
  set (r := ((x - 224) * 4096 + (y - 128) * 64 + (z - 128))%N).
  assert (Hr : r = (((x - 224) * 64 + (y - 128)) * 64 + (z - 128))%N)
    by (unfold r; lia).
  assert (H64 : (r / 64 = (x - 224) * 64 + (y - 128))%N)
    by (rewrite Hr; apply div_mul_add; lia).
  assert (Hm : (r mod 64 = z - 128)%N)
    by (rewrite Hr; apply mod_mul_add; lia).
  assert (H4096 : (r / 4096 = x - 224)%N).
  { unfold r. rewrite <- N.add_assoc. apply div_mul_add. lia. }
  replace (r <? 128)%N with false by (symmetry; apply N.ltb_ge; lia).
  replace (r <? 2048)%N with false by (symmetry; apply N.ltb_ge; lia).
  replace ((55296 <=? r) && (r <? 57344) || (1114111 <? r))%N with false.
  2:{ symmetry. apply orb_false_iff. split.
      - apply andb_false_iff.
        destruct (N.eq_dec x 237) as [E | E].
        + left. apply N.leb_gt. specialize (Hsur E). lia.
        + destruct (N.lt_ge_cases x 237).
          * left. apply N.leb_gt. lia.
          * right. apply N.ltb_ge. lia.
      - apply N.ltb_ge. lia. }
  replace (r <? 65536)%N with true by (symmetry; apply N.ltb_lt; lia).
  rewrite H4096, H64, Hm, mod_mul_add by lia.
  replace (224 + (x - 224))%N with x by lia.
  replace (128 + (y - 128))%N with y by lia.
  replace (128 + (z - 128))%N with z by lia.
  subst x y z. now rewrite !chr_byte.
Qed.

Lemma Encode_rune4 a b c d :
  ok4 (byte a) (byte b) (byte c) (byte d) = true ->
  EncodeRune (rune4 (byte a) (byte b) (byte c) (byte d))
  = String a (String b (String c (String d ""))).
Proof.
  intros H. unfold ok4, cont in H.
  set (x := byte a) in *. set (y := byte b) in *. set (z := byte c) in *.
  set (w := byte d) in *.
  assert (Hx : (240 <= x <= 244)%N) by (bools; lia).
  assert (Hy : (128 <= y <= 191)%N) by (bools; lia).
  assert (Hz : (128 <= z <= 191)%N) by (bools; lia).
  assert (Hw : (128 <= w <= 191)%N) by (bools; lia).
  assert (Hlo : (x = 240 -> 144 <= y)%N) by (bools; lia).
  assert (Hhi : (x = 244 -> y <= 143)%N) by (bools; lia).
  clear H. unfold EncodeRune, rune4.
  set (r := ((x - 240) * 262144 + (y - 128) * 4096 + (z - 128) * 64
             + (w - 128))%N).
  assert (Hr : r = ((((x - 240) * 64 + (y - 128)) * 64 + (z - 128)) * 64
                    + (w - 128))%N) by (unfold r; lia).
  assert (H64 : (r / 64 = ((x - 240) * 64 + (y - 128)) * 64 + (z - 128))%N)
    by (rewrite Hr; apply div_mul_add; lia).
  assert (Hm : (r mod 64 = w - 128)%N)
    by (rewrite Hr; apply mod_mul_add; lia).
  assert (H4096 : (r / 4096 = (x - 240) * 64 + (y - 128))%N).
  { replace r with (((x - 240) * 64 + (y - 128)) * 4096
                    + ((z - 128) * 64 + (w - 128)))%N by (unfold r; lia).
    apply div_mul_add. lia. }
  assert (Hbig : (r / 262144 = x - 240)%N).
  { replace r with ((x - 240) * 262144
                    + ((y - 128) * 4096 + (z - 128) * 64 + (w - 128)))%N
      by (unfold r; lia).
    apply div_mul_add. lia. }
  assert (Hge : (65536 <= r)%N).
  { destruct (N.eq_dec x 240) as [E | E]; [specialize (Hlo E)|];
      unfold r; lia. }
  assert (Hle : (r <= 1114111)%N).
  { destruct (N.eq_dec x 244) as [E | E]; [specialize (Hhi E)|];
      unfold r; lia. }
  replace (r <? 128)%N with false by (symmetry; apply N.ltb_ge; lia).
  replace (r <? 2048)%N with false by (symmetry; apply N.ltb_ge; lia).
  replace ((55296 <=? r) && (r <? 57344) || (1114111 <? r))%N with false.
  2:{ symmetry. apply orb_false_iff. split.
      - apply andb_false_iff. right. apply N.ltb_ge. lia.
      - apply N.ltb_ge. lia. }
  replace (r <? 65536)%N with false by (symmetry; apply N.ltb_ge; lia).
  rewrite Hbig, H4096, H64, Hm, !mod_mul_add by lia.
  replace (240 + (x - 240))%N with x by lia.
  replace (128 + (y - 128))%N with y by lia.
  replace (128 + (z - 128))%N with z by lia.
  replace (128 + (w - 128))%N with w by lia.
  subst x y z w. now rewrite !chr_byte.
Qed.

End utf8_facts.

(** ** JSON strings: reading back what was written *)

Module json_facts.
Import utf8 json utf8_facts.

Lemma append_assoc (a b c : string) : (a ++ b) ++ c = a ++ (b ++ c).
Proof. induction a as [|x a IH]; simpl; [reflexivity | now rewrite IH]. Qed.

Lemma append_nil (a : string) : a ++ "" = a.
Proof. induction a as [|x a IH]; simpl; [reflexivity | now rewrite IH]. Qed.

Lemma length_append (a b : string) :
  String.length (a ++ b) = (String.length a + String.length b)%nat.
Proof. induction a as [|x a IH]; simpl; [reflexivity | now rewrite IH]. Qed.

(** One escaped byte is read back as that byte. *)
Lemma unquote_escByte a tail f :
  (byte a <? 128)%N = true ->
  unquoteBody (S f) (escByte a ++ tail)
  = cons_to (String a "") (unquoteBody f tail).
Proof.
  destruct a as [b0 b1 b2 b3 b4 b5 b6 b7].
  destruct b7.
  - intros H. vm_compute in H.
    destruct b0, b1, b2, b3, b4, b5, b6; discriminate.
  - intros _. destruct b0, b1, b2, b3, b4, b5, b6; reflexivity.
Qed.

Lemma escByte_length a : (1 <= String.length (escByte a))%nat.
Proof.
  unfold escByte, escU00. split_matches; cbn; lia.
Qed.

(** The lead byte of a multi-byte encoding is none of the bytes the
    reader treats specially. *)
Lemma unquote_high a r f :
  (128 <= byte a)%N ->
  unquoteBody (S f) (String a r)
  = match DecodeRune (String a r) with
    | Some (rr, rest) => cons_to (EncodeRune rr) (unquoteBody f rest)
    | None => None
    end.
Proof.
  intros H. cbn [unquoteBody].
  replace (byte a =? 34)%N with false by (symmetry; apply N.eqb_neq; lia).
  replace (byte a =? 92)%N with false by (symmetry; apply N.eqb_neq; lia).
  replace (byte a <? 32)%N with false by (symmetry; apply N.ltb_ge; lia).
  replace (byte a <? 128)%N with false by (symmetry; apply N.ltb_ge; lia).
  reflexivity.
Qed.

Lemma ok2_lead x y : ok2 x y = true -> (194 <= x <= 223)%N.
Proof. unfold ok2. intros H. bools. lia. Qed.

Lemma ok3_lead x y z : ok3 x y z = true -> (224 <= x <= 239)%N.
Proof. unfold ok3. intros H. bools; lia. Qed.

Lemma ok4_lead x y z w : ok4 x y z w = true -> (240 <= x <= 244)%N.
Proof. unfold ok4. intros H. bools; lia. Qed.

Lemma ok2_off x y : (224 <= x)%N -> ok2 x y = false.
Proof.
  intros H. unfold ok2. apply andb_false_iff. left.
  apply andb_false_iff. right. apply N.leb_gt. lia.
Qed.

Lemma ok3_off x y z : (240 <= x)%N -> ok3 x y z = false.
Proof.
  intros H. unfold ok3.
  replace (x =? 224)%N with false by (symmetry; apply N.eqb_neq; lia).
  replace (x <=? 236)%N with false by (symmetry; apply N.leb_gt; lia).
  replace (x =? 237)%N with false by (symmetry; apply N.eqb_neq; lia).
  replace (x <=? 239)%N with false by (symmetry; apply N.leb_gt; lia).
  now rewrite !andb_false_r.
Qed.

Lemma ltb128_off x : (128 <= x)%N -> (x <? 128)%N = false.
Proof. intros H. apply N.ltb_ge. lia. Qed.

(** The line and paragraph separators are written as escapes and read
    back as their three bytes. *)
Lemma unquote_separator c tail f :
  ((byte c =? 168) || (byte c =? 169))%N = true ->
  unquoteBody (S f) (("\u202" ++ String (hexDigit (byte c - 160)) "") ++ tail)
  = cons_to (String (chr 226) (String (chr 128) (String c "")))
      (unquoteBody f tail).
Proof.
  intros H. apply orb_true_iff in H.
  rewrite <- (chr_byte c) at 2.
  destruct H as [H | H]; apply N.eqb_eq in H; rewrite H; reflexivity.
Qed.

(** A well-formed string is read back byte for byte from what
    [quoteBody] wrote, whatever follows the closing quote. *)
Lemma unquoteBody_quoteBody s :
  Valid s ->
  forall fuel rest,
    (String.length (quoteBody s) < fuel)%nat ->
    unquoteBody fuel (quoteBody s ++ String dquote rest) = Some (s, rest).
Proof.
  induction 1 as [|a r Ha Hr IH|a b r Hab Hr IH|a b c r Habc Hr IH
                  |a b c d r Habcd Hr IH]; intros fuel rest Hf.
  - destruct fuel; [cbn in Hf; lia|]. reflexivity.
  - cbn [quoteBody] in *. rewrite Ha in *.
    rewrite length_append in Hf. pose proof (escByte_length a).
    destruct fuel as [|f]; [lia|].
    rewrite append_assoc, (unquote_escByte a _ f Ha), IH by lia.
    reflexivity.
  - pose proof (ok2_lead _ _ Hab) as Hx.
    cbn [quoteBody] in *.
    rewrite (ltb128_off (byte a)), Hab in * by lia.
    destruct fuel as [|f]; [cbn in Hf; lia|].
    cbn [String.length] in Hf. cbn [append].
    rewrite unquote_high by lia. cbn [DecodeRune].
    rewrite (ltb128_off (byte a)), Hab by lia.
    rewrite (Encode_rune2 a b Hab), IH by lia. reflexivity.
  - pose proof (ok3_lead _ _ _ Habc) as Hx.
    cbn [quoteBody] in *.
    rewrite (ltb128_off (byte a)), (ok2_off (byte a) (byte b)), Habc in *
      by lia.
    destruct fuel as [|f]; [cbn in Hf; lia|].
    destruct ((byte a =? 226)%N && (byte b =? 128)%N
              && ((byte c =? 168)%N || (byte c =? 169)%N)) eqn:Hsep.
    + rewrite length_append in Hf.
      rewrite append_assoc.
      apply andb_true_iff in Hsep as [Hsep Hc].
      apply andb_true_iff in Hsep as [Ea Eb].
      apply N.eqb_eq in Ea, Eb.
      rewrite (unquote_separator c _ f Hc), IH by (cbn in Hf; lia).
      cbn [cons_to]. rewrite <- Ea, <- Eb, !chr_byte. reflexivity.
    + cbn [String.length append] in *.
      rewrite unquote_high by lia. cbn [DecodeRune].
      rewrite (ltb128_off (byte a)), (ok2_off (byte a) (byte b)), Habc by lia.
      rewrite (Encode_rune3 a b c Habc), IH by lia. reflexivity.
  - pose proof (ok4_lead _ _ _ _ Habcd) as Hx.
    cbn [quoteBody] in *.
    rewrite (ltb128_off (byte a)), (ok2_off (byte a) (byte b)),
      (ok3_off (byte a) (byte b) (byte c)), Habcd in * by lia.
    destruct fuel as [|f]; [cbn in Hf; lia|].
    cbn [String.length append] in *.
    rewrite unquote_high by lia. cbn [DecodeRune].
    rewrite (ltb128_off (byte a)), (ok2_off (byte a) (byte b)),
      (ok3_off (byte a) (byte b) (byte c)), Habcd by lia.
    rewrite (Encode_rune4 a b c d Habcd), IH by lia. reflexivity.
Qed.

Lemma unquote_quote s rest :
  Valid s -> unquote (quoteBody s ++ String dquote rest) = Some (s, rest).
Proof.
  intros H. unfold unquote. apply (unquoteBody_quoteBody s H).
  rewrite length_append. cbn. lia.
Qed.

(** [ValidString] decides [Valid]. *)
Lemma ValidString_Valid_aux n :
  forall s, (String.length s <= n)%nat -> ValidString s = true -> Valid s.
Proof.
  induction n as [|n IH]; intros s Hn H.
  - destruct s; [constructor | cbn in Hn; lia].
  - destruct s as [|a r1]; [constructor|].
    cbn [ValidString] in H. cbn [String.length] in Hn.
    destruct (byte a <? 128)%N eqn:Ha.
    { apply valid_1; [exact Ha | apply IH; [lia | exact H]]. }
    destruct r1 as [|b r2]; [discriminate|]. cbn [String.length] in Hn.
    destruct (ok2 (byte a) (byte b)) eqn:Hab.
    { apply valid_2; [exact Hab | apply IH; [lia | exact H]]. }
    destruct r2 as [|c r3]; [discriminate|]. cbn [String.length] in Hn.
    destruct (ok3 (byte a) (byte b) (byte c)) eqn:Habc.
    { apply valid_3; [exact Habc | apply IH; [lia | exact H]]. }
    destruct r3 as [|d r4]; [discriminate|]. cbn [String.length] in Hn.
    apply andb_true_iff in H as [Habcd H].
    apply valid_4; [exact Habcd | apply IH; [lia | exact H]].
Qed.

Lemma ValidString_Valid s : ValidString s = true -> Valid s.
Proof. apply (ValidString_Valid_aux (String.length s)). lia. Qed.

End json_facts.

(** ** Numbers and documents: reading back what [Marshal] wrote *)

Module marshal_facts.
Import utf8 json utf8_facts json_facts.

Lemma digits_uint d tail :
  endsNumber tail ->
  digits (NilEmpty.string_of_uint d ++ tail)
  = (NilEmpty.string_of_uint d, tail).
Proof.
  intros Ht. induction d; cbn [NilEmpty.string_of_uint append];
    try (cbn [digits]; change (isDigit (byte _)) with true; cbv iota;
         rewrite IHd; reflexivity).
  destruct tail as [|c r]; [reflexivity|].
  cbn in Ht. cbn [digits]. unfold isDigit. rewrite Ht. reflexivity.
Qed.

Lemma to_uint_normal p : Pos.to_uint p = unorm (Pos.to_uint p).
Proof.
  rewrite <- (DecimalPos.Unsigned.to_of (Pos.to_uint p)).
  now rewrite DecimalPos.Unsigned.of_to.
Qed.

Lemma to_uint_head p : forall d, Pos.to_uint p <> D0 d.
Proof.
  intros d H. pose proof (to_uint_normal p) as Hn.
  unfold unorm in Hn.
  destruct (nzhead (Pos.to_uint p)) eqn:Hz;
    try (rewrite Hn in H; rewrite <- Hz in H;
         now apply DecimalFacts.nzhead_nonzero in H).
  apply (DecimalPos.Unsigned.to_uint_nonzero p). exact Hn.
Qed.

(** The digits of a positive number: a non-zero digit first. *)
Lemma itoa_pos p :
  exists c s,
    itoa (Z.pos p) = String c s
    /\ NilEmpty.string_of_uint (Pos.to_uint p) = String c s
    /\ isDigit (byte c) = true /\ (byte c =? 48)%N = false.
Proof.
  unfold itoa. cbn [Z.to_int NilZero.string_of_int].
  pose proof (to_uint_head p) as Hh.
  pose proof (DecimalPos.Unsigned.to_uint_nonnil p) as Hn.
  unfold NilZero.string_of_uint.
  destruct (Pos.to_uint p) eqn:E; try congruence;
    eexists; eexists; repeat split; reflexivity.
Qed.

Lemma of_uint_acc_val d : forall acc,
  Z.pos (Pos.of_uint_acc d acc)
  = digitsVal (Z.pos acc) (NilEmpty.string_of_uint d).
Proof.
  induction d; intros acc; cbn [Pos.of_uint_acc NilEmpty.string_of_uint digitsVal];
    try reflexivity; rewrite IHd; f_equal;
    match goal with
    | |- context [Z.of_N (byte ?c)] =>
      let v := eval vm_compute in (Z.of_N (byte c)) in
      change (Z.of_N (byte c)) with v
    end; lia.
Qed.

Lemma of_uint_val d :
  Z.of_N (Pos.of_uint d) = digitsVal 0 (NilEmpty.string_of_uint d).
Proof.
  induction d; cbn [Pos.of_uint NilEmpty.string_of_uint digitsVal];
    try reflexivity; try exact IHd;
    cbn [Z.of_N]; rewrite of_uint_acc_val; reflexivity.
Qed.

Lemma digitsVal_to_uint p :
  digitsVal 0 (NilEmpty.string_of_uint (Pos.to_uint p)) = Z.pos p.
Proof.
  rewrite <- of_uint_val, DecimalPos.Unsigned.of_to. reflexivity.
Qed.

Lemma scanUnsigned_pos p rest :
  scanUnsigned (itoa (Z.pos p) ++ closing rest)
  = Some (itoa (Z.pos p), closing rest).
Proof.
  destruct (itoa_pos p) as (c & s & E & E2 & Hd & Hz).
  unfold scanUnsigned, scanInt. rewrite E. cbn [append].
  rewrite Hz, Hd.
  change (String c (s ++ closing rest)) with (String c s ++ closing rest).
  rewrite <- E2, digits_uint by reflexivity.
  cbn. now rewrite !append_nil.
Qed.

Lemma scanNumber_itoa z rest :
  scanNumber (itoa z ++ closing rest) = Some (itoa z, closing rest).
Proof.
  destruct z as [|p|p].
  - reflexivity.
  - pose proof (scanUnsigned_pos p rest) as H.
    destruct (itoa_pos p) as (c & s & E & _ & Hd & _).
    unfold scanNumber. rewrite E in *. cbn [append] in *.
    replace (byte c =? 45)%N with false; [exact H|].
    unfold isDigit in Hd. symmetry. apply N.eqb_neq.
    apply andb_true_iff in Hd as [H1 H2]. apply N.leb_le in H1. lia.
  - change (itoa (Z.neg p)) with (String "-" (itoa (Z.pos p))).
    cbn [append scanNumber]. change (byte "-" =? 45)%N with true. cbv iota.
    now rewrite scanUnsigned_pos.
Qed.

Lemma itoa_head z rest :
  exists c r,
    itoa z ++ closing rest = String c r
    /\ (isDigit (byte c) = true \/ byte c = 45%N).
Proof.
  destruct z as [|p|p].
  - eexists; eexists; split; [reflexivity | left; reflexivity].
  - destruct (itoa_pos p) as (c & s & E & _ & Hd & _). rewrite E.
    eexists; eexists; split; [reflexivity | left; exact Hd].
  - eexists; eexists; split; [reflexivity | right; reflexivity].
Qed.

Lemma parseValue_itoa fuel depth z rest :
  parseValue (S fuel) depth (itoa z ++ closing rest)
  = Some (Number (itoa z), closing rest).
Proof.
  pose proof (scanNumber_itoa z rest) as Hs.
  destruct (itoa_head z rest) as (c & r & E & Hc).
  rewrite E in *. cbn [parseValue].
  assert (Hb : (byte c =? 123)%N = false /\ (byte c =? 91)%N = false
               /\ (byte c =? 34)%N = false /\ (byte c =? 116)%N = false
               /\ (byte c =? 102)%N = false /\ (byte c =? 110)%N = false).
  { unfold isDigit in Hc.
    repeat split; apply N.eqb_neq; destruct Hc as [Hc | Hc];
      try (apply andb_true_iff in Hc as [H1 H2];
           apply N.leb_le in H1, H2); lia. }
  destruct Hb as (-> & -> & -> & -> & -> & ->). now rewrite Hs.
Qed.

Lemma decimalOf_itoa z : decimalOf (itoa z) = ((z <? 0)%Z, Z.abs z, 0%Z).
Proof.
  destruct z as [|p|p].
  - reflexivity.
  - destruct (itoa_pos p) as (c & s & E & E2 & Hd & _).
    unfold decimalOf. rewrite E.
    replace (byte c =? 45)%N with false.
    2:{ unfold isDigit in Hd. symmetry. apply N.eqb_neq.
        apply andb_true_iff in Hd as [H1 H2]. apply N.leb_le in H1. lia. }
    rewrite <- E2, <- (append_nil (NilEmpty.string_of_uint (Pos.to_uint p))).
    rewrite digits_uint by exact I. cbn [String.length Z.of_nat].
    rewrite !append_nil, digitsVal_to_uint. reflexivity.
  - change (itoa (Z.neg p)) with (String "-" (itoa (Z.pos p))).
    destruct (itoa_pos p) as (c & s & E & E2 & Hd & _).
    unfold decimalOf. change (byte "-" =? 45)%N with true. cbv iota.
    rewrite E, <- E2, <- (append_nil (NilEmpty.string_of_uint (Pos.to_uint p))).
    rewrite digits_uint by exact I. cbn [String.length Z.of_nat].
    rewrite !append_nil, digitsVal_to_uint. reflexivity.
Qed.

Lemma parseFloatTrunc_itoa z :
  (Z.abs z < 2 ^ 1024 - 2 ^ 970)%Z ->
  exists t, parseFloatTrunc (itoa z) = Some t.
Proof.
  intros H. unfold parseFloatTrunc. rewrite decimalOf_itoa.
  change (0 <? 0)%Z with false. cbv iota.
  unfold float64.overflows.
  replace ((2 ^ 1024 - 2 ^ 970) * 1 <=? Z.abs z * 10 ^ 0)%Z with false.
  - eexists. reflexivity.
  - symmetry. apply Z.leb_gt. rewrite Z.pow_0_r. lia.
Qed.

Lemma quote_append s rest :
  quote s ++ rest = String dquote (quoteBody s ++ String dquote rest).
Proof. unfold quote. cbn [append]. now rewrite append_assoc. Qed.

Lemma Marshal_shape c :
  Marshal_fortuneCache c
  = String "{"
      (String dquote (quoteBody "fortune" ++ String dquote
         (String ":"
            (String dquote (quoteBody (Fortune c) ++ String dquote
               (String ","
                  (String dquote (quoteBody "timestamp" ++ String dquote
                     (String ":" (itoa (Timestamp c) ++ closing "")))))))))).
Proof.
  unfold Marshal_fortuneCache, closing.
  cbn [append]. rewrite !quote_append. reflexivity.
Qed.

Lemma Valid_names : Valid "fortune" /\ Valid "timestamp".
Proof. split; apply ValidString_Valid; reflexivity. Qed.

Lemma parseValue_string fuel depth s rest :
  Valid s ->
  parseValue (S fuel) depth (String dquote (quoteBody s ++ String dquote rest))
  = Some (Str s, rest).
Proof.
  intros H. cbn [parseValue]. eval_bytes. now rewrite unquote_quote.
Qed.

Lemma parseValue_object fuel depth r :
  (depth < maxNestingDepth)%N ->
  parseValue (S fuel) depth (String "{" (String dquote r))
  = match parseMembers fuel (depth + 1) (String dquote r) with
    | Some (ms, r') => Some (Object ms, r')
    | None => None
    end.
Proof.
  intros H. cbn [parseValue skipWS]. eval_bytes.
  replace (maxNestingDepth <=? depth)%N with false
    by (symmetry; apply N.leb_gt; exact H).
  reflexivity.
Qed.

(** A member that is followed by another one. *)
Lemma parseMembers_more fuel depth k vtxt v r :
  Valid k -> skipWS vtxt = vtxt ->
  parseValue fuel depth vtxt = Some (v, String "," (String dquote r)) ->
  parseMembers (S fuel) depth
    (String dquote (quoteBody k ++ String dquote (String ":" vtxt)))
  = match parseMembers fuel depth (String dquote r) with
    | Some (ms, r') => Some ((k, v) :: ms, r')
    | None => None
    end.
Proof.
  intros Hk Hw Hv. cbn [parseMembers]. eval_bytes.
  rewrite (unquote_quote k _ Hk). cbn [skipWS]. eval_bytes.
  rewrite Hw, Hv. cbn [skipWS]. eval_bytes. reflexivity.
Qed.

(** The last member. *)
Lemma parseMembers_last fuel depth k vtxt v r :
  Valid k -> skipWS vtxt = vtxt ->
  parseValue fuel depth vtxt = Some (v, closing r) ->
  parseMembers (S fuel) depth
    (String dquote (quoteBody k ++ String dquote (String ":" vtxt)))
  = Some ([(k, v)], r).
Proof.
  intros Hk Hw Hv. cbn [parseMembers]. eval_bytes.
  rewrite (unquote_quote k _ Hk). cbn [skipWS]. eval_bytes.
  rewrite Hw, Hv. unfold closing. cbn [skipWS]. eval_bytes. reflexivity.
Qed.

Lemma skipWS_itoa z rest :
  skipWS (itoa z ++ closing rest) = itoa z ++ closing rest.
Proof.
  destruct (itoa_head z rest) as (c & r & E & Hc). rewrite E.
  cbn [skipWS]. replace (isWS (byte c)) with false; [reflexivity|].
  symmetry. unfold isWS, isDigit in *.
  destruct Hc as [Hc | Hc].
  - apply andb_true_iff in Hc as [H1 H2]. apply N.leb_le in H1.
    repeat (apply orb_false_iff; split); apply N.eqb_neq; lia.
  - rewrite Hc. reflexivity.
Qed.

Lemma parse_Marshal c :
  Valid (Fortune c) ->
  json.parse (Marshal_fortuneCache c)
  = Some (Object [("fortune", Str (Fortune c));
                  ("timestamp", Number (itoa (Timestamp c)))]).
Proof.
  intros Hv. destruct Valid_names as [Hf Ht].
  unfold json.parse. rewrite Marshal_shape.
  cbn [String.length]. rewrite length_append. cbn [String.length].
  rewrite Nat.add_succ_r.
  match goal with
  | |- context [parseValue (S (S (S (S ?n))))] => set (fuel := n)
  end.
  change (skipWS (String "{" ?x)) with (String "{" x).
  rewrite parseValue_object by reflexivity.
  rewrite (parseMembers_more _ _ "fortune" _ (Str (Fortune c))
             (quoteBody "timestamp" ++ String dquote
                (String ":" (itoa (Timestamp c) ++ closing ""))) Hf).
  - rewrite (parseMembers_last _ _ "timestamp" _
               (Number (itoa (Timestamp c))) "" Ht).
    + reflexivity.
    + apply skipWS_itoa.
    + apply parseValue_itoa.
  - cbn [skipWS]. eval_bytes. reflexivity.
  - apply parseValue_string. exact Hv.
Qed.

End marshal_facts.

(** ** Saving, then loading *)

Import marshal_facts.

Lemma round53_bounds n : 0 <= n -> 0 <= float64.round53 n <= 2 * n.
Proof.
  intros Hn. unfold float64.round53.
  destruct (Z.log2 n - 52 <=? 0) eqn:Hk; [lia|].
  apply Z.leb_gt in Hk.
  set (k := Z.log2 n - 52) in *.
  assert (Hpos : 0 < n).
  { destruct (Z.eq_dec n 0) as [-> | ]; [cbn in k; lia | lia]. }
  assert (H2k : 0 < 2 ^ k) by (apply Z.pow_pos_nonneg; lia).
  assert (Hle : 2 ^ k <= n).
  { pose proof (Z.log2_spec n Hpos) as [Hl _].
    transitivity (2 ^ Z.log2 n); [|exact Hl].
    apply Z.pow_le_mono_r; lia. }
  pose proof (Z.div_mod n (2 ^ k)) as Hdm.
  pose proof (Z.mod_pos_bound n (2 ^ k) H2k) as Hm.
  assert (Hq : 0 <= n / 2 ^ k) by (apply Z.div_pos; lia).
  destruct ((2 ^ (k - 1) <? n mod 2 ^ k)
            || (n mod 2 ^ k =? 2 ^ (k - 1)) && Z.odd (n / 2 ^ k)); nia.
Qed.

Lemma wrap64_range z : minInt64 <= wrap64 z <= maxInt64.
Proof.
  unfold wrap64, minInt64, maxInt64.
  pose proof (Z.mod_pos_bound (z + 2 ^ 63) (2 ^ 64)). lia.
Qed.

(** The timestamp [saveCache] stores is far from the limit of
    [float64]. *)
Lemma stored_timestamp_bound t :
  Z.abs (float64_of_int64 (time.toUnix t)) < 2 ^ 1024 - 2 ^ 970.
Proof.
  unfold float64_of_int64, time.toUnix.
  pose proof (wrap64_range (time.sec t - time.unixToInternal)) as Hr.
  set (n := wrap64 (time.sec t - time.unixToInternal)) in *.
  unfold minInt64, maxInt64 in Hr.
  assert (Hbig : 2 ^ 65 < 2 ^ 1024 - 2 ^ 970) by (vm_compute; reflexivity).
  destruct (n <? 0) eqn:Hs.
  - apply Z.ltb_lt in Hs. pose proof (round53_bounds (- n)). lia.
  - apply Z.ltb_ge in Hs. pose proof (round53_bounds n). lia.
Qed.

(** What [Marshal] writes for a record of well-formed text is read back
    with the same text. *)
Lemma Unmarshal_Marshal c :
  utf8.Valid (Fortune c) ->
  Z.abs (Timestamp c) < 2 ^ 1024 - 2 ^ 970 ->
  exists t,
    Unmarshal_fortuneCache (Marshal_fortuneCache c)
    = Some {| Fortune := Fortune c; Timestamp := t |}.
Proof.
  intros Hv Hb. unfold Unmarshal_fortuneCache, decodeStruct.
  rewrite (parse_Marshal c Hv).
  destruct (parseFloatTrunc_itoa (Timestamp c) Hb) as [t Ht].
  exists t. cbn [fold_left]. unfold cacheMember.
  change (json.keyMatches "fortune" "fortune") with true.
  change (json.keyMatches "fortune" "timestamp") with false.
  change (json.keyMatches "timestamp" "timestamp") with true.
  cbn [setString setFloat Fortune Timestamp andb]. rewrite Ht. reflexivity.
Qed.

(** *** The timestamp

    Whole seconds up to [2^53] are floats, are printed in full and are
    read back as they are. *)

Lemma round53_small n : 0 <= n <= 2 ^ 53 -> float64.round53 n = n.
Proof.
  intros H. unfold float64.round53.
  destruct (Z.eq_dec n (2 ^ 53)) as [-> | Hne]; [reflexivity|].
  assert (Hl : Z.log2 n < 53).
  { destruct (Z.eq_dec n 0) as [-> | H0]; [cbn; lia|].
    apply Z.log2_lt_pow2; lia. }
  replace (Z.log2 n - 52 <=? 0) with true; [reflexivity|].
  symmetry. apply Z.leb_le. lia.
Qed.

(** An integer that fits 53 bits and is scaled by a power of two is a
    float: rounding leaves it alone. *)
Lemma round53_scaled p j :
  0 < p <= 2 ^ 53 -> 0 <= j -> float64.round53 (p * 2 ^ j) = p * 2 ^ j.
Proof.
  intros Hp Hj. unfold float64.round53.
  set (n := p * 2 ^ j).
  destruct (Z.log2 n - 52 <=? 0) eqn:Hk; [reflexivity|].
  apply Z.leb_gt in Hk. set (k := Z.log2 n - 52) in *.
  assert (Hlog : Z.log2 n = Z.log2 p + j)
    by (unfold n; rewrite Z.log2_mul_pow2 by lia; lia).
  destruct (Z.eq_dec p (2 ^ 53)) as [Ep | Hne].
  - (* a power of two *)
    assert (Hn : n = 2 ^ (53 + j))
      by (unfold n; rewrite Ep, Z.pow_add_r by lia; reflexivity).
    assert (Hk' : k = j + 1).
    { unfold k. rewrite Hn, Z.log2_pow2 by lia. lia. }
    assert (Hd : n = 2 ^ 52 * 2 ^ k).
    { rewrite Hn, Hk', <- Z.pow_add_r by lia. f_equal. lia. }
    assert (H2k : 0 < 2 ^ k) by (apply Z.pow_pos_nonneg; lia).
    replace (n mod 2 ^ k) with 0
      by (rewrite Hd; symmetry; apply Z.mod_mul; lia).
    replace (n / 2 ^ k) with (2 ^ 52)
      by (rewrite Hd; symmetry; apply Z.div_mul; lia).
    assert (Hh : 0 < 2 ^ (k - 1)) by (apply Z.pow_pos_nonneg; lia).
    replace (2 ^ (k - 1) <? 0) with false by (symmetry; apply Z.ltb_ge; lia).
    replace (0 =? 2 ^ (k - 1)) with false by (symmetry; apply Z.eqb_neq; lia).
    cbn [orb andb]. lia.
  - assert (Hl : Z.log2 p < 53) by (apply Z.log2_lt_pow2; lia).
    assert (Hkj : 0 < k <= j) by (unfold k; lia).
    assert (Hd : n = (p * 2 ^ (j - k)) * 2 ^ k).
    { unfold n. rewrite <- Z.mul_assoc, <- Z.pow_add_r by lia.
      do 2 f_equal. lia. }
    assert (H2k : 0 < 2 ^ k) by (apply Z.pow_pos_nonneg; lia).
    replace (n mod 2 ^ k) with 0
      by (rewrite Hd; symmetry; apply Z.mod_mul; lia).
    replace (n / 2 ^ k) with (p * 2 ^ (j - k))
      by (rewrite Hd; symmetry; apply Z.div_mul; lia).
    assert (Hh : 0 < 2 ^ (k - 1)) by (apply Z.pow_pos_nonneg; lia).
    replace (2 ^ (k - 1) <? 0) with false by (symmetry; apply Z.ltb_ge; lia).
    replace (0 =? 2 ^ (k - 1)) with false by (symmetry; apply Z.eqb_neq; lia).
    cbn [orb andb]. lia.
Qed.

Lemma nearestTrunc_integer p :
  0 <= p <= 2 ^ 53 -> float64.nearestTrunc p 1 = p.
Proof.
  intros Hp. unfold float64.nearestTrunc, float64.nearest.
  destruct (p =? 0) eqn:E0.
  - apply Z.eqb_eq in E0. subst. reflexivity.
  - apply Z.eqb_neq in E0.
    change (Z.log2 1) with 0.
    assert (Hl : Z.log2 p <= 53).
    { transitivity (Z.log2 (2 ^ 53)); [apply Z.log2_le_mono; lia|].
      rewrite Z.log2_pow2; lia. }
    assert (Hl0 : 0 <= Z.log2 p) by apply Z.log2_nonneg.
    set (e := Z.log2 p - 0 - 56).
    assert (He : e < 0) by (unfold e; lia).
    replace (e <? 0) with true by (symmetry; apply Z.ltb_lt; lia).
    rewrite Z.div_1_r, Z.mod_1_r. cbn [Z.eqb].
    replace (2 * (p * 2 ^ (- e)) + 0) with (p * 2 ^ (1 - e)).
    2:{ replace (1 - e) with (- e + 1) by lia.
        rewrite Z.pow_add_r by lia. lia. }
    rewrite round53_scaled by lia.
    unfold float64.truncScaled.
    replace (e - 1 <? 0) with true by (symmetry; apply Z.ltb_lt; lia).
    replace (- (e - 1)) with (1 - e) by lia.
    apply Z.div_mul. apply Z.pow_nonzero; lia.
Qed.

Lemma parseFloatTrunc_exact z :
  Z.abs z <= 2 ^ 53 -> json.parseFloatTrunc (itoa z) = Some z.
Proof.
  intros H. unfold json.parseFloatTrunc. rewrite decimalOf_itoa.
  change (0 <? 0) with false. cbv iota.
  unfold float64.overflows.
  replace ((2 ^ 1024 - 2 ^ 970) * 1 <=? Z.abs z * 10 ^ 0) with false.
  2:{ symmetry. apply Z.leb_gt. rewrite Z.pow_0_r.
      assert (2 ^ 53 < 2 ^ 1024 - 2 ^ 970) by (vm_compute; reflexivity).
      lia. }
  rewrite Z.pow_0_r, Z.mul_1_r, nearestTrunc_integer by lia.
  f_equal. destruct (z <? 0) eqn:Hs.
  - apply Z.ltb_lt in Hs. lia.
  - apply Z.ltb_ge in Hs. lia.
Qed.

Lemma float64_of_int64_exact n :
  Z.abs n <= 2 ^ 53 -> float64_of_int64 n = n.
Proof.
  intros H. unfold float64_of_int64.
  destruct (n <? 0) eqn:Hs.
  - apply Z.ltb_lt in Hs. rewrite round53_small by lia. lia.
  - apply Z.ltb_ge in Hs. apply round53_small. lia.
Qed.

(** The entry [loadCache] returns after [saveCache], when the clock
    reads a second that is a float: the text saved and the second of
    the save. *)
Lemma saved_entry E st f :
  isErrorFortune f = false -> utf8.Valid f ->
  mkdirErr E = None -> cacheWriteErr E = None -> cacheReadErr E = None ->
  Z.abs (time.toUnix (time.ofClock (clock E (tick st)))) <= 2 ^ 53 ->
  loadCache E (saveCache E f st)
  = Ok {| Fortune := f;
          Timestamp := time.toUnix (time.ofClock (clock E (tick st))) |}.
Proof.
  intros Hf Hv Hm Hw Hr Hc.
  unfold saveCache, Now. rewrite Hf, Hm, Hw.
  unfold loadCache, readCacheFile. cbn [cacheFile setCache]. rewrite Hr.
  rewrite (float64_of_int64_exact _ Hc).
  set (now := time.toUnix (time.ofClock (clock E (tick st)))) in *.
  unfold Unmarshal_fortuneCache, decodeStruct.
  rewrite (parse_Marshal {| Fortune := f; Timestamp := now |} Hv).
  cbn [fold_left]. unfold cacheMember.
  change (json.keyMatches "fortune" "fortune") with true.
  change (json.keyMatches "fortune" "timestamp") with false.
  change (json.keyMatches "timestamp" "timestamp") with true.
  cbn [setString setFloat Fortune Timestamp andb].
  rewrite (parseFloatTrunc_exact now Hc). cbn [Fortune]. now rewrite Hf.
Qed.

(** Outside UTF-8, where no run takes [saveCache]: the byte 0xFF is not
    tagged as an error, is saved, and is loaded as U+FFFD. *)
Lemma saveCache_not_text :
  isErrorFortune Sample.notText = false
  /\ exists c,
       loadCache Sample.E0 (saveCache Sample.E0 Sample.notText Sample.st0)
       = Ok c
       /\ Fortune c = Sample.replacement
       /\ Fortune c <> Sample.notText.
Proof.
  split; [reflexivity|]. eexists. split; [vm_compute; reflexivity|].
  split; [reflexivity | discriminate].
Qed.

(** C9.  For a string [f] that is not tagged as an error and is valid
    UTF-8, as every fortune the program saves is, when the data
    directory and the cache file can be written and the file can be
    read, [loadCache] after [saveCache] returns an entry whose fortune
    is [f], byte for byte. *)
Theorem C9_save_then_load (E : Env) (st : State) (f : string) :
  isErrorFortune f = false ->
  utf8.ValidString f = true ->
  mkdirErr E = None -> cacheWriteErr E = None -> cacheReadErr E = None ->
  exists c, loadCache E (saveCache E f st) = Ok c /\ Fortune c = f.
Proof.
  intros Hf Hv Hm Hw Hr.
  apply json_facts.ValidString_Valid in Hv.
  unfold saveCache, Now. rewrite Hf, Hm, Hw.
  unfold loadCache, readCacheFile. cbn [cacheFile setCache]. rewrite Hr.
  set (t := time.ofClock (clock E (tick st))).
  destruct (Unmarshal_Marshal
              {| Fortune := f; Timestamp := float64_of_int64 (time.toUnix t) |}
              Hv (stored_timestamp_bound t)) as [ts Hu].
  rewrite Hu. cbn [Fortune]. rewrite Hf.
  eexists. split; reflexivity.
Qed.

Lemma C9_save_then_load_witness :
  exists c,
    loadCache Sample.E0 (saveCache Sample.E0 (marker ++ "Good luck.") Sample.st0)
    = Ok c
    /\ Fortune c = marker ++ "Good luck.".
Proof.
  apply (C9_save_then_load Sample.E0 Sample.st0 (marker ++ "Good luck."));
    reflexivity.
Defined.

(** * Further properties of the code *)

(** ** Trimming twice *)

Lemma length_drop k s : String.length (drop k s) = (String.length s - k)%nat.
Proof.
  revert s. induction k as [|k IH]; intros s; simpl.
  - lia.
  - destruct s; simpl; [reflexivity | apply IH].
Qed.

(** With fuel for every byte, trimming stops at a string that does not
    start with white space. *)
Lemma trimWith_stops len fuel s :
  len "" = 0%nat -> (String.length s <= fuel)%nat ->
  len (trimWith len fuel s) = 0%nat.
Proof.
  intros H0. revert s. induction fuel as [|fuel IH]; intros s Hl.
  - destruct s; [exact H0 | simpl in Hl; lia].
  - cbn [trimWith]. destruct (len s) as [|n] eqn:Hn; [exact Hn|].
    apply IH. rewrite length_drop.
    destruct s; [rewrite H0 in Hn; discriminate | simpl in *; lia].
Qed.

Lemma trimWith_fixed len fuel s : len s = 0%nat -> trimWith len fuel s = s.
Proof. intros H. destruct fuel; cbn [trimWith]; [|rewrite H]; reflexivity. Qed.

Lemma rev_rev s : strings.rev (strings.rev s) = s.
Proof.
  unfold strings.rev. rewrite list_ascii_of_string_of_list_ascii, rev_involutive.
  apply string_of_list_ascii_of_string.
Qed.

Lemma TrimRightSpace_fixed s :
  spaceLenRev (strings.rev s) = 0%nat -> TrimRightSpace s = s.
Proof.
  intros H. unfold TrimRightSpace. rewrite trimWith_fixed by exact H.
  apply rev_rev.
Qed.

Lemma length_rev s : String.length (strings.rev s) = String.length s.
Proof.
  unfold strings.rev.
  rewrite <- (string_of_list_ascii_of_string s) at 2.
  generalize (list_ascii_of_string s). intros l.
  assert (H : forall l, String.length (string_of_list_ascii l) = List.length l).
  { clear. induction l; simpl; congruence. }
  now rewrite !H, length_rev.
Qed.

Lemma TrimRightSpace_stops s :
  spaceLenRev (strings.rev (TrimRightSpace s)) = 0%nat.
Proof.
  unfold TrimRightSpace. rewrite rev_rev.
  apply trimWith_stops; [reflexivity | rewrite length_rev; lia].
Qed.

Lemma TrimLeftSpace_stops s : spaceLen (TrimLeftSpace s) = 0%nat.
Proof. apply trimWith_stops; [reflexivity | lia]. Qed.

(** A prefix of a string that does not start with white space does not
    start with white space. *)
Lemma spaceLen_prefix n s :
  spaceLen s = 0%nat ->
  spaceLen (string_of_list_ascii (firstn n (list_ascii_of_string s))) = 0%nat.
Proof.
  intros H.
  destruct s as [|a [|b [|c r]]]; destruct n as [|[|[|n]]];
    try reflexivity; cbn in H |- *;
    repeat match goal with
           | |- context [if ?x then _ else _] => destruct x eqn:?
           | H : context [if ?x then _ else _] |- _ => destruct x eqn:?
           end; try reflexivity; try discriminate; try congruence.
Qed.

Lemma TrimLeftSpace_fixed s : spaceLen s = 0%nat -> TrimLeftSpace s = s.
Proof. intros H. apply trimWith_fixed, H. Qed.

(** A string is trimmed when neither end is white space. *)
Lemma TrimSpace_fixed s :
  spaceLen s = 0%nat -> spaceLenRev (strings.rev s) = 0%nat -> TrimSpace s = s.
Proof.
  intros Hl Hr. unfold TrimSpace.
  rewrite (TrimLeftSpace_fixed _ Hl). apply TrimRightSpace_fixed, Hr.
Qed.

Lemma TrimSpace_ends s :
  spaceLen (TrimSpace s) = 0%nat
  /\ spaceLenRev (strings.rev (TrimSpace s)) = 0%nat.
Proof.
  unfold TrimSpace. split; [|apply TrimRightSpace_stops].
  destruct (TrimRightSpace_firstn (TrimLeftSpace s)) as [n Hn].
  rewrite Hn. apply spaceLen_prefix, TrimLeftSpace_stops.
Qed.

Lemma TrimSpace_idem s : TrimSpace (TrimSpace s) = TrimSpace s.
Proof. destruct (TrimSpace_ends s). now apply TrimSpace_fixed. Qed.

(** ** Environment files *)

Lemma TrimSpace_sub s :
  exists k n,
    list_ascii_of_string (TrimSpace s)
    = firstn n (skipn k (list_ascii_of_string s)).
Proof.
  unfold TrimSpace.
  destruct (TrimRightSpace_firstn (TrimLeftSpace s)) as [n Hn].
  destruct (trimWith_drop spaceLen (String.length s) s) as [k Hk].
  exists k, n. rewrite Hn, list_ascii_of_string_of_list_ascii.
  unfold TrimLeftSpace. now rewrite Hk, list_of_drop.
Qed.

Lemma existsb_firstn {A} (f : A -> bool) n l :
  existsb f (firstn n l) = true -> existsb f l = true.
Proof.
  revert l. induction n as [|n IH]; intros [|a l]; simpl; try discriminate.
  intros H. apply orb_true_iff in H. apply orb_true_iff.
  destruct H; [now left | right; now apply IH].
Qed.

Lemma existsb_skipn {A} (f : A -> bool) n l :
  existsb f (skipn n l) = true -> existsb f l = true.
Proof.
  revert l. induction n as [|n IH]; intros [|a l]; simpl; try discriminate;
    try tauto.
  intros H. apply orb_true_iff. right. now apply IH.
Qed.

Lemma hasByte_TrimSpace x s :
  dotenv.hasByte x s = false -> dotenv.hasByte x (TrimSpace s) = false.
Proof.
  unfold dotenv.hasByte. intros H.
  destruct (TrimSpace_sub s) as [k [n Hs]]. rewrite Hs.
  destruct (existsb _ (firstn _ _)) eqn:He; [|reflexivity].
  apply existsb_firstn, existsb_skipn in He. congruence.
Qed.

Lemma cut_left sep s a b :
  cut sep s = Some (a, b) -> dotenv.hasByte (byte sep) a = false.
Proof.
  revert a. induction s as [|c r IH]; intros a; simpl; [discriminate|].
  destruct (Ascii.eqb c sep) eqn:Hc.
  - intros H. inversion H. reflexivity.
  - destruct (cut sep r) as [[a' b']|]; [|discriminate].
    intros H. inversion H; subst. unfold dotenv.hasByte. simpl.
    fold (dotenv.hasByte (byte sep) a'). rewrite (IH a' eq_refl), orb_false_r.
    apply N.eqb_neq. intros He. apply Ascii.eqb_neq in Hc. apply Hc.
    unfold byte in He. rewrite <- (ascii_N_embedding c), <- (ascii_N_embedding sep).
    now f_equal.
Qed.

Lemma assignment_shape raw key val :
  dotenv.assignment raw = Some (key, val) ->
  key <> "" /\ TrimSpace key = key /\ TrimSpace val = val
  /\ dotenv.hasByte 61 key = false.
Proof.
  unfold dotenv.assignment, SplitN2.
  destruct (isEmpty (TrimSpace raw) || HasPrefix (TrimSpace raw) "#");
    [discriminate|].
  destruct (cut "=" (TrimSpace raw)) as [[k v]|] eqn:Hc; [|discriminate].
  destruct (isEmpty (TrimSpace k)) eqn:He; [discriminate|].
  intros H. inversion H; subst. repeat split.
  - intros E. rewrite E in He. discriminate.
  - apply TrimSpace_idem.
  - apply TrimSpace_idem.
  - apply hasByte_TrimSpace. exact (cut_left _ _ _ _ Hc).
Qed.

Lemma Setenv_other key val env k :
  k <> key -> dotenv.Setenv key val env k = env k.
Proof.
  intros H. unfold dotenv.Setenv.
  destruct (_ || _); [reflexivity|].
  destruct (String.eqb k key) eqn:He; [|reflexivity].
  apply String.eqb_eq in He. contradiction.
Qed.

Lemma Setenv_same key val env :
  key <> "" -> dotenv.hasByte 61 key = false -> dotenv.hasByte 0 key = false ->
  dotenv.hasByte 0 val = false ->
  dotenv.Setenv key val env key = val.
Proof.
  intros Hk H1 H2 H3. unfold dotenv.Setenv. rewrite H1, H2, H3.
  replace (isEmpty key) with false by (destruct key; [contradiction | reflexivity]).
  cbn [orb]. now rewrite String.eqb_refl.
Qed.

Lemma Setenv_cases key val env k :
  dotenv.Setenv key val env k = env k
  \/ (k = key /\ dotenv.Setenv key val env k = val).
Proof.
  unfold dotenv.Setenv. destruct (_ || _); [now left|].
  destruct (String.eqb k key) eqn:He; [|now left].
  apply String.eqb_eq in He. now right.
Qed.

Lemma applyLines_trimmed lines : forall env k,
  fst (dotenv.applyLines lines env) k = env k
  \/ (k <> "" /\ TrimSpace k = k /\ dotenv.hasByte 61 k = false
      /\ TrimSpace (fst (dotenv.applyLines lines env) k)
         = fst (dotenv.applyLines lines env) k).
Proof.
  induction lines as [|raw rest IH]; intros env k; cbn [dotenv.applyLines].
  - now left.
  - destruct (dotenv.tooLong raw); [now left|].
    destruct (dotenv.assignment (dotenv.dropCR raw)) as [[key val]|] eqn:Ha;
      [|apply IH].
    destruct (IH (dotenv.Setenv key val env) k) as [H|H]; [|now right].
    rewrite H.
    destruct (Setenv_cases key val env k) as [Hs|[Hk Hs]]; [now left|].
    right. rewrite Hs. subst k.
    destruct (assignment_shape _ _ _ Ha) as [? [? [? ?]]]. auto.
Qed.

(** X1.  Whatever [applyEnvFile] does to a variable, it either leaves
    it as it was or gives it a value that [strings.TrimSpace] leaves
    unchanged, under a name that is not empty, is trimmed too and has no
    equals sign: a file cannot set a value with white space at either
    end. *)
Theorem applyEnvFile_trimmed (W : dotenv.Files) (path : string)
  (env : dotenv.environ) (k : string) :
  snd (dotenv.applyEnvFile W path env) k = env k
  \/ (k <> "" /\ TrimSpace k = k /\ dotenv.hasByte 61 k = false
      /\ TrimSpace (snd (dotenv.applyEnvFile W path env) k)
         = snd (dotenv.applyEnvFile W path env) k).
Proof.
  unfold dotenv.applyEnvFile. destruct (dotenv.Open W path) as [m|data err].
  - now left.
  - pose proof (applyLines_trimmed (dotenv.scanLines data) env k) as H.
    destruct (dotenv.applyLines (dotenv.scanLines data) env) as [env' long].
    exact H.
Qed.

Lemma applyLines_app l1 l2 env :
  Forall (fun l => dotenv.tooLong l = false) l1 ->
  dotenv.applyLines (l1 ++ l2) env
  = dotenv.applyLines l2 (fst (dotenv.applyLines l1 env)).
Proof.
  intros H. revert env. induction H as [|raw rest Hr _ IH]; intros env.
  - reflexivity.
  - cbn [List.app dotenv.applyLines]. rewrite Hr. apply IH.
Qed.

Lemma applyLines_untouched lines k : forall env,
  (forall raw v, In raw lines ->
     dotenv.assignment (dotenv.dropCR raw) <> Some (k, v)) ->
  fst (dotenv.applyLines lines env) k = env k.
Proof.
  induction lines as [|raw rest IH]; intros env H; cbn [dotenv.applyLines].
  - reflexivity.
  - destruct (dotenv.tooLong raw); [reflexivity|].
    rewrite IH by (intros r v Hr; apply H; now right).
    destruct (dotenv.assignment (dotenv.dropCR raw)) as [[key val]|] eqn:Ha;
      [|reflexivity].
    apply Setenv_other. intros ->. apply (H raw val); [now left | exact Ha].
Qed.

(** X2.  The last assignment wins, and overrides the value the
    variable had: when the lines up to an assignment [KEY=VAL] fit the
    scanner, no later line assigns [KEY], and neither text has a NUL
    byte, [applyEnvFile] leaves [KEY] set to [VAL], also when the
    reading ends in an error. *)
Theorem applyEnvFile_last_wins (W : dotenv.Files) (path data : string)
  (err : option string) (env : dotenv.environ)
  (before after : list string) (raw key val : string) :
  dotenv.Open W path = dotenv.File data err ->
  dotenv.scanLines data = (before ++ raw :: after)%list ->
  fits (before ++ [raw]) ->
  dotenv.assignment (dotenv.dropCR raw) = Some (key, val) ->
  dotenv.hasByte 0 key = false -> dotenv.hasByte 0 val = false ->
  (forall r v, In r after ->
     dotenv.assignment (dotenv.dropCR r) <> Some (key, v)) ->
  snd (dotenv.applyEnvFile W path env) key = val.
Proof.
  intros Ho Hs Hf Ha Hk Hv Hafter. unfold dotenv.applyEnvFile. rewrite Ho, Hs.
  replace (before ++ raw :: after)%list with ((before ++ [raw]) ++ after)%list
    by (rewrite <- app_assoc; reflexivity).
  rewrite (applyLines_app _ _ _ Hf).
  pose proof (applyLines_untouched after key
                (fst (dotenv.applyLines (before ++ [raw]) env)) Hafter) as Hu.
  destruct (dotenv.applyLines after _) as [env' long]. cbn [fst snd] in *.
  rewrite Hu.
  apply Forall_app in Hf. destruct Hf as [Hb Hr].
  rewrite (applyLines_app _ _ _ Hb). cbn [dotenv.applyLines].
  inversion Hr as [|? ? Hraw _]; subst. rewrite Hraw, Ha. cbn [fst].
  destruct (assignment_shape _ _ _ Ha) as [Hne [_ [_ He]]].
  now apply Setenv_same.
Qed.

Lemma applyEnvFile_last_wins_witness :
  snd (dotenv.applyEnvFile EnvSample.W0 "/opt/fb/fortunebot.env" EnvSample.env0)
    "OPENAI_API_KEY" = "sk-2".
Proof.
  apply (applyEnvFile_last_wins EnvSample.W0 "/opt/fb/fortunebot.env"
           EnvSample.text None EnvSample.env0
           ["# keys"; "OPENAI_API_KEY = sk-1" ++ EnvSample.CR]
           ["  OPENAI_MODEL =  gpt-x  "] "OPENAI_API_KEY=sk-2").
  - reflexivity.
  - reflexivity.
  - repeat constructor.
  - reflexivity.
  - reflexivity.
  - reflexivity.
  - intros r v [<-|[]]. vm_compute. discriminate.
Defined.

(** X3.  A variable that no line of the file assigns is left as it
    was by [applyEnvFile], whatever else the file holds and however the
    reading ends. *)
Theorem applyEnvFile_untouched (W : dotenv.Files) (path : string)
  (env : dotenv.environ) (k : string) :
  (forall data err raw v,
     dotenv.Open W path = dotenv.File data err ->
     In raw (dotenv.scanLines data) ->
     dotenv.assignment (dotenv.dropCR raw) <> Some (k, v)) ->
  snd (dotenv.applyEnvFile W path env) k = env k.
Proof.
  intros H. unfold dotenv.applyEnvFile.
  destruct (dotenv.Open W path) as [m|data err] eqn:Ho; [reflexivity|].
  pose proof (applyLines_untouched (dotenv.scanLines data) k env
                (fun raw v Hin => H data err raw v eq_refl Hin)) as Hu.
  destruct (dotenv.applyLines _ env) as [env' long]. exact Hu.
Qed.

Lemma applyEnvFile_untouched_witness :
  snd (dotenv.applyEnvFile EnvSample.W0 "/opt/fb/fortunebot.env" EnvSample.env0)
    "FORTUNEBOT_ENV" = "/missing.env".
Proof.
  apply (applyEnvFile_untouched EnvSample.W0 "/opt/fb/fortunebot.env"
           EnvSample.env0 "FORTUNEBOT_ENV").
  intros data err raw v Ho Hin. vm_compute in Ho. inversion Ho; subst.
  vm_compute in Hin.
  repeat (destruct Hin as [<-|Hin]; [vm_compute; discriminate|]).
  destruct Hin.
Defined.

(** X4.  When none of the paths [loadDotEnv] tries can be opened, the
    environment is left as it was. *)
Theorem loadDotEnv_no_file (W : dotenv.Files) (env : dotenv.environ) :
  (forall p, In p (dotenv.candidates W env) ->
     exists m, dotenv.Open W p = dotenv.NoFile m) ->
  dotenv.loadDotEnv W env = env.
Proof.
  unfold dotenv.loadDotEnv. generalize (dotenv.candidates W env).
  intros paths. induction paths as [|p rest IH]; intros H;
    cbn [dotenv.tryFiles].
  - reflexivity.
  - destruct (H p (or_introl eq_refl)) as [m Hm].
    unfold dotenv.applyEnvFile. rewrite Hm.
    apply IH. intros q Hq. apply H. now right.
Qed.

Lemma loadDotEnv_no_file_witness :
  dotenv.loadDotEnv EnvSample.Wnone EnvSample.env0 = EnvSample.env0.
Proof.
  apply (loadDotEnv_no_file EnvSample.Wnone EnvSample.env0).
  intros p _. eexists. reflexivity.
Defined.

Lemma applyLines_fits lines env :
  fits lines -> snd (dotenv.applyLines lines env) = false.
Proof.
  intros H. revert env. induction H as [|raw rest Hr _ IH]; intros env.
  - reflexivity.
  - cbn [dotenv.applyLines]. rewrite Hr. apply IH.
Qed.

(** X5.  [loadDotEnv] stops at the first path that opens and is read
    to its end without error: when the paths before it cannot be opened,
    the environment is what applying that one file gives, and the paths
    after it are not looked at. *)
Theorem loadDotEnv_first_file (W : dotenv.Files) (env : dotenv.environ)
  (pre post : list string) (p data : string) :
  dotenv.candidates W env = (pre ++ p :: post)%list ->
  (forall q, In q pre -> exists m, dotenv.Open W q = dotenv.NoFile m) ->
  dotenv.Open W p = dotenv.File data None ->
  fits (dotenv.scanLines data) ->
  dotenv.loadDotEnv W env = snd (dotenv.applyEnvFile W p env).
Proof.
  intros Hc Hpre Ho Hf. unfold dotenv.loadDotEnv. rewrite Hc. clear Hc.
  induction pre as [|q pre IH]; cbn [List.app dotenv.tryFiles].
  - unfold dotenv.applyEnvFile. rewrite Ho.
    pose proof (applyLines_fits _ env Hf) as Hl.
    destruct (dotenv.applyLines _ env) as [env' long]. cbn in Hl. subst long.
    reflexivity.
  - destruct (Hpre q (or_introl eq_refl)) as [m Hm].
    unfold dotenv.applyEnvFile at 1. rewrite Hm.
    apply IH. intros r Hr. apply Hpre. now right.
Qed.

Lemma loadDotEnv_first_file_witness :
  dotenv.loadDotEnv EnvSample.W0 EnvSample.env0
  = snd (dotenv.applyEnvFile EnvSample.W0 "/opt/fb/fortunebot.env"
           EnvSample.env0).
Proof.
  apply (loadDotEnv_first_file EnvSample.W0 EnvSample.env0
           ["/missing.env"]
           ["/home/u/fortunebot.env";
            "/home/u/.config/fortunebot/fortunebot.env"; "fortunebot.env"]
           "/opt/fb/fortunebot.env" EnvSample.text).
  - reflexivity.
  - intros q [<-|[]]. eexists. reflexivity.
  - reflexivity.
  - repeat constructor.
Defined.

Lemma add_spec p paths :
  dotenv.add p paths = paths
  \/ (dotenv.add p paths = (paths ++ [p])%list /\ blank p = false
      /\ ~ In p paths).
Proof.
  unfold dotenv.add. destruct (blank p); [now left|].
  destruct (existsb (String.eqb p) paths) eqn:He; [now left|].
  right. repeat split. intros Hin.
  assert (existsb (String.eqb p) paths = true).
  { apply existsb_exists. exists p. split; [exact Hin | apply String.eqb_refl]. }
  congruence.
Qed.

Lemma add_In p paths : blank p = false -> In p (dotenv.add p paths).
Proof.
  intros Hb. unfold dotenv.add. rewrite Hb.
  destruct (existsb (String.eqb p) paths) eqn:He.
  - apply existsb_exists in He. destruct He as [q [Hq He]].
    apply String.eqb_eq in He. now subst.
  - apply in_or_app. right. now left.
Qed.

Lemma tidy_add p paths n : tidy paths n -> tidy (dotenv.add p paths) (S n).
Proof.
  intros [Hn [Hb Hl]]. destruct (add_spec p paths) as [->|[-> [Hp Hin]]].
  - repeat split; auto.
  - repeat split.
    + apply NoDup_app; [exact Hn | repeat constructor; intros [] |].
      intros a Ha [<-|[]]. contradiction.
    + intros q Hq. apply in_app_or in Hq. destruct Hq as [Hq|[<-|[]]]; auto.
    + rewrite length_app. simpl. lia.
Qed.

Lemma tidy_le paths n m : (n <= m)%nat -> tidy paths n -> tidy paths m.
Proof. intros H [? [? ?]]. repeat split; auto. lia. Qed.

(** X6.  The paths [loadDotEnv] tries: no path twice, no blank path,
    at most five, and [fortunebot.env] in the working directory always
    among them. *)
Theorem candidates_tidy (W : dotenv.Files) (env : dotenv.environ) :
  NoDup (dotenv.candidates W env)
  /\ (forall p, In p (dotenv.candidates W env) -> blank p = false)
  /\ (List.length (dotenv.candidates W env) <= 5)%nat
  /\ In "fortunebot.env" (dotenv.candidates W env).
Proof.
  assert (H0 : tidy [] 0) by (repeat split; [constructor | intros ? [] | simpl; lia]).
  assert (H : tidy (dotenv.candidates W env) 5).
  { unfold dotenv.candidates.
    apply tidy_add.
    apply tidy_add.
    assert (H2 : forall l, tidy l 2 ->
              tidy match dotenv.Getwd W with
                   | Ok cwd => dotenv.add (dotenv.Join W cwd "fortunebot.env") l
                   | Err _ => dotenv.add "fortunebot.env" l
                   end 3).
    { intros l Hl. destruct (dotenv.Getwd W); now apply tidy_add. }
    apply H2.
    assert (H1 : forall l, tidy l 1 ->
              tidy match dotenv.Executable W with
                   | Ok exe =>
                     dotenv.add
                       (dotenv.Join W (dotenv.Dir W exe) "fortunebot.env") l
                   | Err _ => l
                   end 2).
    { intros l Hl. destruct (dotenv.Executable W);
        [now apply tidy_add | apply (tidy_le l 1); [lia | exact Hl]]. }
    apply H1.
    destruct (negb (isEmpty (env "FORTUNEBOT_ENV")));
      [now apply tidy_add | apply (tidy_le [] 0); [lia | exact H0]]. }
  destruct H as [Hn [Hb Hl]]. repeat split; auto.
  unfold dotenv.candidates. now apply add_In.
Qed.

Lemma add_head p q rest : exists more,
  dotenv.add p (q :: rest) = q :: more.
Proof.
  destruct (add_spec p (q :: rest)) as [->|[-> _]]; eexists; reflexivity.
Qed.

(** X7.  A path in [FORTUNEBOT_ENV] that is not blank is the first one
    [loadDotEnv] tries. *)
Theorem candidates_custom_first (W : dotenv.Files) (env : dotenv.environ) :
  blank (env "FORTUNEBOT_ENV") = false ->
  exists rest, dotenv.candidates W env = env "FORTUNEBOT_ENV" :: rest.
Proof.
  intros Hb. unfold dotenv.candidates.
  assert (He : isEmpty (env "FORTUNEBOT_ENV") = false).
  { unfold blank in Hb. destruct (env "FORTUNEBOT_ENV"); [discriminate Hb | reflexivity]. }
  rewrite He. cbn [negb].
  set (c := env "FORTUNEBOT_ENV") in *.
  assert (H0 : exists r0, dotenv.add c [] = c :: r0).
  { exists []. unfold dotenv.add. now rewrite Hb. }
  destruct H0 as [r0 ->].
  assert (H1 : exists r1, match dotenv.Executable W with
                 | Ok exe =>
                   dotenv.add
                     (dotenv.Join W (dotenv.Dir W exe) "fortunebot.env")
                     (c :: r0)
                 | Err _ => c :: r0
                 end = c :: r1).
  { destruct (dotenv.Executable W); [apply add_head | now exists r0]. }
  destruct H1 as [r1 ->].
  assert (H2 : exists r2, match dotenv.Getwd W with
                 | Ok cwd =>
                   dotenv.add (dotenv.Join W cwd "fortunebot.env") (c :: r1)
                 | Err _ => dotenv.add "fortunebot.env" (c :: r1)
                 end = c :: r2).
  { destruct (dotenv.Getwd W); apply add_head. }
  destruct H2 as [r2 ->].
  destruct (add_head (dotenv.Join W (dotenv.Dir W (dotenv.configPath W))
                        "fortunebot.env") c r2) as [r3 ->].
  apply add_head.
Qed.

Lemma candidates_custom_first_witness :
  exists rest,
    dotenv.candidates EnvSample.W0 EnvSample.env0 = "/missing.env" :: rest.
Proof.
  apply (candidates_custom_first EnvSample.W0 EnvSample.env0). reflexivity.
Defined.

(** ** The worker and its parent *)

Lemma blank_empty s : blank s = false -> isEmpty s = false.
Proof. destruct s; [discriminate | reflexivity]. Qed.

Ltac resolve_again :=
  repeat match goal with
         | H : ?x = _ |- context [?x] => rewrite H
         end;
  cbn [negb fst]; try reflexivity.

Lemma resolvePrompt_again E cli cfg :
  fst (resolvePromptWithSource E
         (fst (resolvePromptWithSource E cli cfg)) cfg)
  = fst (resolvePromptWithSource E cli cfg).
Proof.
  pose proof blank_defaults as [_ Hd].
  unfold resolvePromptWithSource.
  destruct (blank cli) eqn:H1; cbn [negb fst]; [|resolve_again].
  destruct (isEmpty (Getenv E "FORTUNEBOT_PROMPT")) eqn:H2; cbn [negb fst].
  - destruct (blank (DefaultPrompt cfg)) eqn:H3; cbn [negb fst]; resolve_again.
  - destruct (blank (Getenv E "FORTUNEBOT_PROMPT")) eqn:H3; resolve_again.
Qed.

Lemma resolveModel_again E cli cfg :
  fst (resolveModelWithSource E (fst (resolveModelWithSource E cli cfg)) cfg)
  = fst (resolveModelWithSource E cli cfg).
Proof.
  pose proof blank_defaults as [Hd _].
  unfold resolveModelWithSource.
  destruct (blank cli) eqn:H1; cbn [negb fst]; [|resolve_again].
  destruct (isEmpty (Getenv E "FORTUNEBOT_MODEL")) eqn:H2; cbn [negb fst].
  - destruct (isEmpty (Getenv E "OPENAI_MODEL")) eqn:H4; cbn [negb fst].
    + destruct (blank (Model cfg)) eqn:H3; cbn [negb fst]; resolve_again.
    + destruct (blank (Getenv E "OPENAI_MODEL")) eqn:H3; resolve_again.
  - destruct (blank (Getenv E "FORTUNEBOT_MODEL")) eqn:H3; resolve_again.
Qed.

Lemma resolveAPIKey_again E cli cfg :
  fst (resolveAPIKeyWithSource E (fst (resolveAPIKeyWithSource E cli cfg)) cfg)
  = fst (resolveAPIKeyWithSource E cli cfg).
Proof.
  assert (Hd : blank "" = true) by reflexivity.
  unfold resolveAPIKeyWithSource.
  destruct (blank cli) eqn:H1; cbn [negb fst]; [|resolve_again].
  destruct (isEmpty (Getenv E "FORTUNEBOT_API_KEY")) eqn:H2; cbn [negb fst].
  - destruct (isEmpty (Getenv E "OPENAI_API_KEY")) eqn:H4; cbn [negb fst].
    + destruct (blank (APIKey cfg)) eqn:H3; cbn [negb fst]; resolve_again.
    + destruct (blank (Getenv E "OPENAI_API_KEY")) eqn:H3; resolve_again.
  - destruct (blank (Getenv E "FORTUNEBOT_API_KEY")) eqn:H3; resolve_again.
Qed.

Lemma sameSettings_resolve E E' :
  sameSettings E E' ->
  loadConfig E' = loadConfig E
  /\ (forall cli cfg, resolvePromptWithSource E' cli cfg
                      = resolvePromptWithSource E cli cfg)
  /\ (forall cli cfg, resolveAPIKeyWithSource E' cli cfg
                      = resolveAPIKeyWithSource E cli cfg)
  /\ (forall cli cfg, resolveModelWithSource E' cli cfg
                      = resolveModelWithSource E cli cfg).
Proof.
  intros [Hc Hg]. repeat split.
  - unfold loadConfig. now rewrite Hc.
  - intros. unfold resolvePromptWithSource. rewrite !Hg by discriminate.
    reflexivity.
  - intros. unfold resolveAPIKeyWithSource. rewrite !Hg by discriminate.
    reflexivity.
  - intros. unfold resolveModelWithSource. rewrite !Hg by discriminate.
    reflexivity.
Qed.

(** X8.  The worker resolves what its parent resolved: started with the
    command line [startPrefetch] builds from the prompt, key and model
    the parent resolved, in an environment that differs from the
    parent's at most in [FORTUNEBOT_VERBOSE], and with the same
    configuration file, [main] runs [runPrefetchWorker] on those same three
    values. *)
Theorem worker_resolves_same (E E' : Env) (fl : Flags) (st : State) :
  sameSettings E E' ->
  main E' (workerFlags (thePrompt E fl) (theKey E fl) (theModel E fl)) st
  = runPrefetchWorker E' (thePrompt E fl) (theKey E fl) (theModel E fl) st.
Proof.
  intros H. destruct (sameSettings_resolve E E' H) as [Hc [Hp [Hk Hm]]].
  rewrite main_worker by reflexivity.
  unfold thePrompt, theKey, theModel. cbn [workerFlags flagPrompt flagAPIKey flagModel].
  rewrite Hc, Hp, Hk, Hm.
  now rewrite resolvePrompt_again, resolveAPIKey_again, resolveModel_again.
Qed.

Lemma worker_resolves_same_witness :
  sameSettings Sample.E0 Sample.Eworker
  /\ main Sample.Eworker
       (workerFlags (thePrompt Sample.E0 Sample.fl0)
          (theKey Sample.E0 Sample.fl0) (theModel Sample.E0 Sample.fl0))
       Sample.st0
     = runPrefetchWorker Sample.Eworker (thePrompt Sample.E0 Sample.fl0)
         (theKey Sample.E0 Sample.fl0) (theModel Sample.E0 Sample.fl0)
         Sample.st0.
Proof.
  assert (H : sameSettings Sample.E0 Sample.Eworker).
  { split; [reflexivity|]. intros k Hk. cbn.
    destruct (String.eqb k "FORTUNEBOT_VERBOSE") eqn:He; [|reflexivity].
    apply String.eqb_eq in He. contradiction. }
  split; [exact H|].
  apply (worker_resolves_same Sample.E0 Sample.Eworker Sample.fl0 Sample.st0 H).
Defined.

(** ** What a run may change *)

(** *** The paths through [main] *)

Lemma main_show E fl st :
  flagPrefetchWork fl = false -> flagShowLog fl = true ->
  main E fl st = (0, printLog E st).
Proof. intros Hw Hs. unfold main. now rewrite Hw, Hs. Qed.

Lemma main_random E fl st :
  flagPrefetchWork fl = false -> flagShowLog fl = false ->
  flagLogRandom fl = true ->
  main E fl st
  = match randomFortuneFromLog E st with
    | (Err m, st1) => (1, Eprint ("[fortunebot] " ++ m ++ newline) st1)
    | (Ok f, st1) =>
      (0, Println f
            (if verboseOf fl
             then Println
                    "[fortunebot] Showing random fortune from log (no API call)."
                    st1
             else st1))
    end.
Proof. intros Hw Hs Hr. unfold main, verboseOf. now rewrite Hw, Hs, Hr. Qed.

(** A cache hit, fresh or stale. *)
Lemma main_hit E fl st c :
  normalMode fl = true -> cachingOf fl = true ->
  loadCache E (prepared E fl st) = Ok c ->
  exists stD,
    main E fl st = (0, prefetchUnless E fl (Println (Fortune c) stD))
    /\ sameButStdout (prepared E fl st) stD.
Proof.
  intros Hn Hc Hl. rewrite (main_normal E fl st Hn). unfold serve.
  unfold cachingOf in Hc. rewrite Hc, Hl.
  destruct (cacheIsFresh E c (flagCacheTTL fl) (prepared E fl st))
    as [fresh st1] eqn:Hf.
  assert (Hst1 : st1 = snd (cacheIsFresh E c (flagCacheTTL fl)
                              (prepared E fl st))) by now rewrite Hf.
  unfold prefetchUnless.
  destruct fresh, (verboseOf fl) eqn:Hv.
  all: try (destruct (formatAge E (Timestamp c) st1) as [age st2] eqn:Ha).
  all: eexists; split; [destruct (flagNoPrefetch fl); reflexivity|].
  all: subst st1; try (assert (Hst2 : st2 = snd (formatAge E (Timestamp c)
         (snd (cacheIsFresh E c (flagCacheTTL fl) (prepared E fl st)))))
         by (now rewrite Ha); subst st2).
  all: repeat split.
Qed.

Lemma main_path E fl st : path E fl st.
Proof.
  destruct (flagPrefetchWork fl) eqn:Hw.
  { apply Worker; [exact Hw | now apply main_worker]. }
  destruct (flagShowLog fl) eqn:Hs.
  { apply ShowLog; auto. now apply main_show. }
  destruct (flagLogRandom fl) eqn:Hr.
  { apply LogRandom; auto. rewrite (main_random E fl st Hw Hs Hr).
    destruct (randomFortuneFromLog E st) as [[f|m] st1]; cbn [snd].
    - destruct (verboseOf fl); eauto 6.
    - eauto. }
  assert (Hn : normalMode fl = true) by (unfold normalMode; now rewrite Hw, Hs, Hr).
  destruct (cachingOf fl) eqn:Hc.
  - destruct (loadCache E (prepared E fl st)) as [c|e] eqn:Hl.
    + destruct (main_hit E fl st c Hn Hc Hl) as [stD [Hm Hsame]].
      now apply (Hit E fl st c stD).
    + apply Fetch; [exact Hn|]. apply main_fetch; eauto.
  - apply Fetch; [exact Hn|]. apply main_fetch; auto.
Qed.

(** *** Requests *)

Lemma generateFortune_calls E p k m st r st1 :
  generateFortune E p k m st = (r, st1) ->
  netCalls st1 = netCalls st
  \/ (k <> ""
      /\ netCalls st1
         = (netCalls st ++ [{| reqModel := m; reqPrompt := p; reqKey := k |}])%list).
Proof.
  unfold generateFortune. destruct (isEmpty k) eqn:Hk.
  - intros H. inversion H. now left.
  - intros H. right. split; [intros ->; discriminate|].
    repeat match type of H with
           | context [match ?x with _ => _ end] => destruct x
           end; inversion H; reflexivity.
Qed.

Lemma netCalls_printLog E st : netCalls (printLog E st) = netCalls st.
Proof. unfold printLog. now destruct (readLogFile E st). Qed.

Lemma netCalls_random E st :
  netCalls (snd (randomFortuneFromLog E st)) = netCalls st.
Proof.
  unfold randomFortuneFromLog. destruct (readLogFile E st); [|reflexivity].
  now destruct (fortunesOf _).
Qed.

Lemma netCalls_beforeFetch E fl st :
  netCalls (beforeFetch E fl st) = netCalls st.
Proof.
  unfold beforeFetch. destruct (verboseOf fl); cbn; apply netCalls_prepared.
Qed.

Lemma netCalls_prefetchUnless E fl st :
  netCalls (prefetchUnless E fl st) = netCalls st.
Proof.
  unfold prefetchUnless. destruct (flagNoPrefetch fl);
    [reflexivity | apply netCalls_startPrefetch].
Qed.

Lemma netCalls_fetchAndServe E fl ca v p k m st :
  netCalls (snd (fetchAndServe E fl ca v p k m st))
  = netCalls (snd (generateFortune E p k m st)).
Proof.
  unfold fetchAndServe.
  destruct (generateFortune E p k m st) as [[f|e] st1]; [|reflexivity].
  destruct ca; [destruct (negb (flagNoPrefetch fl))|]; cbn [snd];
    rewrite ?netCalls_startPrefetch, ?netCalls_saveCache; cbn;
    apply netCalls_logFortune.
Qed.

Lemma netCalls_runPrefetchWorker E p k m st :
  netCalls (snd (runPrefetchWorker E p k m st))
  = netCalls (snd (generateFortune E p k m st)).
Proof.
  unfold runPrefetchWorker.
  destruct (generateFortune E p k m st) as [[f|e] st1]; [|reflexivity].
  destruct (_ || _); cbn [snd]; cbn [Println Print netCalls];
    rewrite netCalls_saveCache; apply netCalls_logFortune.
Qed.

Lemma resolved_nonempty E fl : theModel E fl <> "" /\ thePrompt E fl <> "".
Proof.
  destruct (loadConfig_fills E) as [Hm Hp].
  unfold theModel, thePrompt, resolveModelWithSource, resolvePromptWithSource.
  split.
  - destruct (blank (flagModel fl)) eqn:H1; cbn [negb fst].
    + destruct (Getenv E "FORTUNEBOT_MODEL") eqn:H2; cbn [isEmpty negb fst];
        [|discriminate].
      destruct (Getenv E "OPENAI_MODEL") eqn:H3; cbn [isEmpty negb fst];
        [|discriminate].
      destruct (blank (Model (loadConfig E))); cbn [negb fst];
        [discriminate|].
      intros He. rewrite He in Hm. discriminate.
    + intros He. rewrite He in H1. discriminate.
  - destruct (blank (flagPrompt fl)) eqn:H1; cbn [negb fst].
    + destruct (Getenv E "FORTUNEBOT_PROMPT") eqn:H2; cbn [isEmpty negb fst];
        [|discriminate].
      destruct (blank (DefaultPrompt (loadConfig E))); cbn [negb fst];
        [discriminate|].
      intros He. rewrite He in Hp. discriminate.
    + intros He. rewrite He in H1. discriminate.
Qed.

(** X9.  A run makes at most one request.  The requests recorded
    after [main] are those recorded before, or those and one more; that
    one carries the model, prompt and key the run resolved, none of them
    empty, and it is made by the worker or in normal mode, never under
    [--show-log] or [--log-random]. *)
Theorem main_one_request (E : Env) (fl : Flags) (st : State) :
  netCalls (snd (main E fl st)) = netCalls st
  \/ (netCalls (snd (main E fl st)) = (netCalls st ++ [theRequest E fl])%list
      /\ theKey E fl <> "" /\ theModel E fl <> "" /\ thePrompt E fl <> ""
      /\ (flagPrefetchWork fl = true \/ normalMode fl = true)).
Proof.
  destruct (resolved_nonempty E fl) as [Hm Hp].
  destruct (main_path E fl st) as [Hw H|Hw Hs H|Hw Hs Hr H|c stD Hn Hc Hl H Hsame|Hn H].
  - rewrite H, netCalls_runPrefetchWorker.
    destruct (generateFortune E (thePrompt E fl) (theKey E fl) (theModel E fl) st)
      as [r st1] eqn:Hg.
    destruct (generateFortune_calls _ _ _ _ _ _ _ Hg) as [Hc|[Hk Hc]];
      [now left | right; auto 6].
  - left. rewrite H. apply netCalls_printLog.
  - left. destruct H as [->|[[m ->]|[[f ->]|[f [g ->]]]]]; cbn;
      apply netCalls_random.
  - left. rewrite H. cbn [snd]. rewrite netCalls_prefetchUnless. cbn.
    destruct Hsame as (_ & _ & _ & _ & ->). apply netCalls_prepared.
  - rewrite H, netCalls_fetchAndServe.
    destruct (generateFortune E (thePrompt E fl) (theKey E fl) (theModel E fl)
                (beforeFetch E fl st)) as [r st1] eqn:Hg.
    destruct (generateFortune_calls _ _ _ _ _ _ _ Hg) as [Hc|[Hk Hc]];
      cbn [snd]; rewrite Hc, netCalls_beforeFetch; [now left | right; auto 6].
Qed.

(** *** The log *)

Lemma logFile_printLog E st : logFile (printLog E st) = logFile st.
Proof. unfold printLog. now destruct (readLogFile E st). Qed.

Lemma logFile_random E st :
  logFile (snd (randomFortuneFromLog E st)) = logFile st.
Proof.
  unfold randomFortuneFromLog. destruct (readLogFile E st); [|reflexivity].
  now destruct (fortunesOf _).
Qed.

Lemma logFile_beforeFetch E fl st :
  logFile (beforeFetch E fl st) = logFile st.
Proof.
  unfold beforeFetch. destruct (verboseOf fl); cbn; apply logFile_prepared.
Qed.

Lemma logFile_prefetchUnless E fl st :
  logFile (prefetchUnless E fl st) = logFile st.
Proof.
  unfold prefetchUnless. destruct (flagNoPrefetch fl);
    [reflexivity | apply logFile_startPrefetch].
Qed.

Lemma generateFortune_result E p k m st st' :
  fst (generateFortune E p k m st) = fst (generateFortune E p k m st').
Proof. unfold generateFortune. split_matches; reflexivity. Qed.

Lemma tick_prepared E fl st : tick (prepared E fl st) = tick st.
Proof.
  unfold prepared, announce, clearCache.
  split_matches; reflexivity.
Qed.

Lemma tick_beforeFetch E fl st : tick (beforeFetch E fl st) = tick st.
Proof.
  unfold beforeFetch. destruct (verboseOf fl); cbn; apply tick_prepared.
Qed.

(** What [logFortune] does with a fortune that is no error message. *)
Lemma logFortune_effect E f st :
  isErrorFortune f = false ->
  tick (logFortune E f st) = S (tick st)
  /\ cacheFile (logFortune E f st) = cacheFile st
  /\ logFile (logFortune E f st)
     = match logOpenErr E with
       | Some _ => logFile st
       | None =>
         Some (logText st
               ++ match logWriteErr E with
                  | None => logRecord E (tick st) f
                  | Some (_, n) => substring 0 n (logRecord E (tick st) f)
                  end)
       end.
Proof.
  intros He. unfold logFortune, logText, logRecord, entry, Now. rewrite He.
  destruct (logOpenErr E); [repeat split|].
  destruct (logWriteErr E) as [[m n]|]; repeat split.
Qed.

(** What [saveCache] does with a fortune that is no error message. *)
Lemma saveCache_effect E f st :
  isErrorFortune f = false ->
  logFile (saveCache E f st) = logFile st
  /\ cacheFile (saveCache E f st)
     = match mkdirErr E, cacheWriteErr E with
       | Some _, _ | None, Some (NotOpened _) => cacheFile st
       | None, Some (Cut _ n) =>
         Some (substring 0 n (cacheRecord E (tick st) f))
       | None, None => Some (cacheRecord E (tick st) f)
       end.
Proof.
  intros He. unfold saveCache, cacheRecord, Now. rewrite He.
  destruct (mkdirErr E); [repeat split|].
  destruct (cacheWriteErr E) as [[m|m n]|]; repeat split.
Qed.

(** The files after a fetch, in normal mode and in the worker. *)
Lemma files_fetchAndServe E fl ca v p k m st :
  match generateFortune E p k m st with
  | (Ok f, st1) =>
    fst (fetchAndServe E fl ca v p k m st) = 0
    /\ logFile (snd (fetchAndServe E fl ca v p k m st))
       = logFile (logFortune E f st1)
    /\ cacheFile (snd (fetchAndServe E fl ca v p k m st))
       = if ca
         then cacheFile (saveCache E f (Println f (logFortune E f st1)))
         else cacheFile st
  | (Err _, _) =>
    logFile (snd (fetchAndServe E fl ca v p k m st)) = logFile st
    /\ cacheFile (snd (fetchAndServe E fl ca v p k m st)) = cacheFile st
  end.
Proof.
  unfold fetchAndServe.
  destruct (generateFortune E p k m st) as [[f|e] st1] eqn:Hg;
    destruct (generateFortune_frame _ _ _ _ _ _ _ Hg) as (Hc & Hl & _).
  - destruct ca; [destruct (negb (flagNoPrefetch fl))|]; cbn [fst snd];
      rewrite ?logFile_startPrefetch, ?cacheFile_startPrefetch,
        ?logFile_saveCache; repeat split.
    cbn. now rewrite cacheFile_logFortune.
  - cbn. auto.
Qed.

Lemma files_runPrefetchWorker E p k m st :
  match generateFortune E p k m st with
  | (Ok f, st1) =>
    fst (runPrefetchWorker E p k m st) = 0
    /\ logFile (snd (runPrefetchWorker E p k m st))
       = logFile (logFortune E f st1)
    /\ cacheFile (snd (runPrefetchWorker E p k m st))
       = cacheFile (saveCache E f (logFortune E f st1))
  | (Err _, _) =>
    logFile (snd (runPrefetchWorker E p k m st)) = logFile st
    /\ cacheFile (snd (runPrefetchWorker E p k m st)) = cacheFile st
  end.
Proof.
  unfold runPrefetchWorker.
  destruct (generateFortune E p k m st) as [[f|e] st1] eqn:Hg;
    destruct (generateFortune_frame _ _ _ _ _ _ _ Hg) as (Hc & Hl & _).
  - destruct (_ || _); cbn [fst snd]; cbn [Println Print logFile cacheFile];
      rewrite ?logFile_saveCache; repeat split.
  - cbn. auto.
Qed.

(** What a fetch that succeeds leaves in the log and in the cache. *)
Lemma stored_after E p k m s0 f st1 :
  generateFortune E p k m s0 = (Ok f, st1) ->
  isErrorFortune f = false
  /\ logFile (logFortune E f st1)
     = match logOpenErr E with
       | Some _ => logFile s0
       | None =>
         Some (logText s0
               ++ match logWriteErr E with
                  | None => logRecord E (tick s0) f
                  | Some (_, n) => substring 0 n (logRecord E (tick s0) f)
                  end)
       end
  /\ (forall x,
        cacheFile (saveCache E f (Println x (logFortune E f st1)))
        = match mkdirErr E, cacheWriteErr E with
          | Some _, _ | None, Some (NotOpened _) => cacheFile s0
          | None, Some (Cut _ n) =>
            Some (substring 0 n (cacheRecord E (S (tick s0)) f))
          | None, None => Some (cacheRecord E (S (tick s0)) f)
          end)
  /\ cacheFile (saveCache E f (logFortune E f st1))
     = match mkdirErr E, cacheWriteErr E with
       | Some _, _ | None, Some (NotOpened _) => cacheFile s0
       | None, Some (Cut _ n) =>
         Some (substring 0 n (cacheRecord E (S (tick s0)) f))
       | None, None => Some (cacheRecord E (S (tick s0)) f)
       end.
Proof.
  intros Hg.
  destruct (generateFortune_ok _ _ _ _ _ _ _ Hg) as [He _].
  destruct (generateFortune_frame _ _ _ _ _ _ _ Hg)
    as (Hc & Hl & _ & _ & _ & Ht).
  destruct (logFortune_effect E f st1 He) as (Ht1 & Hc1 & Hl1).
  assert (Hx : logText st1 = logText s0) by (unfold logText; now rewrite Hl).
  split; [exact He|]. split; [|split].
  - rewrite Hl1, Hx, Ht, Hl. reflexivity.
  - intros x.
    destruct (saveCache_effect E f (Println x (logFortune E f st1)) He)
      as [_ ->].
    cbn [Println Print tick cacheFile]. rewrite Ht1, Hc1, Ht, Hc. reflexivity.
  - destruct (saveCache_effect E f (logFortune E f st1) He) as [_ ->].
    rewrite Ht1, Hc1, Ht, Hc. reflexivity.
Qed.

(** X10.  [main] only ever appends to the log.  After a run the log
    file is as it was, or holds what it held followed by the record of
    the fortune the run fetched: the Unix second of the run's first
    clock reading, a tab, the fortune, a line feed (one line when the
    fortune has no line feed).  When the write fails, only the bytes of
    the record that were written follow.  The fortune is no error
    message, and the log is written only by a run that exits with
    status 0, as the worker or in normal mode. *)
Theorem main_log_grows (E : Env) (fl : Flags) (st : State) :
  logFile (snd (main E fl st)) = logFile st
  \/ (exists f,
        fetched E fl st = Ok f /\ isErrorFortune f = false
        /\ fst (main E fl st) = 0
        /\ (flagPrefetchWork fl = true \/ normalMode fl = true)
        /\ logFile (snd (main E fl st))
           = Some (logText st
                   ++ match logWriteErr E with
                      | None => logRecord E (tick st) f
                      | Some (_, n) =>
                        substring 0 n (logRecord E (tick st) f)
                      end)).
Proof.
  destruct (main_path E fl st) as [Hw H|Hw Hs H|Hw Hs Hr H|c stD Hn Hc Hl H Hsame|Hn H].
  - rewrite H.
    pose proof (files_runPrefetchWorker E (thePrompt E fl) (theKey E fl)
                  (theModel E fl) st) as Hf.
    unfold fetched.
    destruct (generateFortune E (thePrompt E fl) (theKey E fl) (theModel E fl) st)
      as [[f|e] st1] eqn:Hg; [|left; apply Hf].
    destruct Hf as (H0 & Hlog & _).
    destruct (stored_after _ _ _ _ _ _ _ Hg) as (He & Hl & _).
    rewrite Hlog, Hl. destruct (logOpenErr E); [now left|].
    right. exists f. auto 6.
  - left. rewrite H. apply logFile_printLog.
  - left. destruct H as [->|[[m ->]|[[f ->]|[f [g ->]]]]]; cbn;
      apply logFile_random.
  - left. rewrite H. cbn [snd]. rewrite logFile_prefetchUnless. cbn.
    destruct Hsame as (_ & -> & _). apply logFile_prepared.
  - rewrite H.
    pose proof (files_fetchAndServe E fl (cachingOf fl) (verboseOf fl)
                  (thePrompt E fl) (theKey E fl) (theModel E fl)
                  (beforeFetch E fl st)) as Hf.
    unfold fetched.
    rewrite (generateFortune_result E _ _ _ st (beforeFetch E fl st)).
    destruct (generateFortune E (thePrompt E fl) (theKey E fl) (theModel E fl)
                (beforeFetch E fl st)) as [[f|e] st1] eqn:Hg.
    + destruct Hf as (H0 & Hlog & _).
      destruct (stored_after _ _ _ _ _ _ _ Hg) as (He & Hl & _).
      rewrite Hlog, Hl, tick_beforeFetch, logFile_beforeFetch.
      replace (logText (beforeFetch E fl st)) with (logText st)
        by (unfold logText; now rewrite logFile_beforeFetch).
      destruct (logOpenErr E); [now left|].
      right. exists f. auto 6.
    + left. destruct Hf as [-> _]. apply logFile_beforeFetch.
Qed.

(** *** The cache *)

Lemma cacheFile_printLog E st : cacheFile (printLog E st) = cacheFile st.
Proof. unfold printLog. now destruct (readLogFile E st). Qed.

Lemma cacheFile_random E st :
  cacheFile (snd (randomFortuneFromLog E st)) = cacheFile st.
Proof.
  unfold randomFortuneFromLog. destruct (readLogFile E st); [|reflexivity].
  now destruct (fortunesOf _).
Qed.

Lemma cacheFile_clearCache E st :
  cacheFile (clearCache E st) = cacheFile st
  \/ cacheFile (clearCache E st) = None.
Proof.
  unfold clearCache. destruct (cacheFile st) eqn:Hc; [|now left].
  destruct (cacheRemoveErr E); cbn; auto.
Qed.

Lemma cacheFile_beforeFetch E fl st :
  cacheFile (beforeFetch E fl st) = cacheFile (prepared E fl st).
Proof. unfold beforeFetch. now destruct (verboseOf fl). Qed.

Lemma cacheFile_prepared_cases E fl st :
  cacheFile (prepared E fl st) = cacheFile st
  \/ (cacheFile (prepared E fl st) = None /\ flagClearCache fl = true).
Proof.
  rewrite cacheFile_prepared. destruct (flagClearCache fl); [|now left].
  destruct (cacheFile_clearCache E st); auto.
Qed.

Lemma cacheFile_prefetchUnless E fl st :
  cacheFile (prefetchUnless E fl st) = cacheFile st.
Proof.
  unfold prefetchUnless. destruct (flagNoPrefetch fl);
    [reflexivity | apply cacheFile_startPrefetch].
Qed.

(** X11.  What [main] may do to the cache file: leave it as it was;
    remove it, under [--clear-cache] in normal mode; or replace it by the
    JSON record of the fortune the run fetched, stamped with the Unix
    second of the run's second clock reading.  When the write fails
    after the file was opened, the file holds only the bytes of the
    record that were written.  The fortune is no error message, and the
    file is written only by a run that exits with status 0, as the
    worker or in normal mode. *)
Theorem main_cache (E : Env) (fl : Flags) (st : State) :
  cacheFile (snd (main E fl st)) = cacheFile st
  \/ (cacheFile (snd (main E fl st)) = None
      /\ flagClearCache fl = true /\ normalMode fl = true)
  \/ (exists f,
        fetched E fl st = Ok f /\ isErrorFortune f = false
        /\ fst (main E fl st) = 0
        /\ (flagPrefetchWork fl = true \/ normalMode fl = true)
        /\ match cacheWriteErr E with
           | None =>
             cacheFile (snd (main E fl st))
             = Some (cacheRecord E (S (tick st)) f)
           | Some (Cut _ n) =>
             cacheFile (snd (main E fl st))
             = Some (substring 0 n (cacheRecord E (S (tick st)) f))
           | Some (NotOpened _) => False
           end).
Proof.
  destruct (main_path E fl st) as [Hw H|Hw Hs H|Hw Hs Hr H|c stD Hn Hc Hl H Hsame|Hn H].
  - rewrite H.
    pose proof (files_runPrefetchWorker E (thePrompt E fl) (theKey E fl)
                  (theModel E fl) st) as Hf.
    unfold fetched.
    destruct (generateFortune E (thePrompt E fl) (theKey E fl) (theModel E fl) st)
      as [[f|e] st1] eqn:Hg; [|left; apply Hf].
    destruct Hf as (H0 & _ & Hcache).
    destruct (stored_after _ _ _ _ _ _ _ Hg) as (He & _ & _ & Hs).
    rewrite Hcache, Hs. destruct (mkdirErr E); [now left|].
    destruct (cacheWriteErr E) as [[m|m n]|]; [now left| |];
      right; right; exists f; auto 6.
  - left. rewrite H. apply cacheFile_printLog.
  - left. destruct H as [->|[[m ->]|[[f ->]|[f [g ->]]]]]; cbn;
      apply cacheFile_random.
  - rewrite H. cbn [snd]. rewrite cacheFile_prefetchUnless. cbn.
    destruct Hsame as (-> & _).
    destruct (cacheFile_prepared_cases E fl st) as [Hq|[Hq Hcl]];
      [now left | right; left; auto].
  - rewrite H.
    pose proof (files_fetchAndServe E fl (cachingOf fl) (verboseOf fl)
                  (thePrompt E fl) (theKey E fl) (theModel E fl)
                  (beforeFetch E fl st)) as Hf.
    unfold fetched.
    rewrite (generateFortune_result E _ _ _ st (beforeFetch E fl st)).
    assert (Hprep : forall x, x = cacheFile (beforeFetch E fl st) ->
              x = cacheFile st
              \/ (x = None /\ flagClearCache fl = true /\ normalMode fl = true)).
    { intros x ->. rewrite cacheFile_beforeFetch.
      destruct (cacheFile_prepared_cases E fl st) as [Hq|[Hq Hcl]]; auto. }
    destruct (generateFortune E (thePrompt E fl) (theKey E fl) (theModel E fl)
                (beforeFetch E fl st)) as [[f|e] st1] eqn:Hg.
    + destruct Hf as (H0 & _ & Hcache).
      destruct (stored_after _ _ _ _ _ _ _ Hg) as (He & _ & Hs & _).
      rewrite Hcache, Hs, tick_beforeFetch.
      destruct (cachingOf fl);
        [|destruct (Hprep _ eq_refl) as [Hq|Hq]; auto].
      destruct (mkdirErr E);
        [destruct (Hprep _ eq_refl) as [Hq|Hq]; auto|].
      destruct (cacheWriteErr E) as [[m|m n]|];
        [destruct (Hprep _ eq_refl) as [Hq|Hq]; auto | |];
        right; right; exists f; auto 6.
    + destruct Hf as [_ ->]. destruct (Hprep _ eq_refl) as [Hq|Hq]; auto.
Qed.

(** *** Processes *)

Lemma startPrefetch_spawned E p k m v st :
  spawned (startPrefetch E p k m v st) = spawned st
  \/ (exists exe,
        Executable E = Ok exe
        /\ spawned (startPrefetch E p k m v st)
           = (spawned st ++ [workerCmd exe p k m v])%list).
Proof.
  unfold startPrefetch. destruct (Executable E) as [exe|e];
    [|left; now destruct v].
  rewrite startPrefetch_cmd.
  destruct (StartProcess E (workerCmd exe p k m v));
    [right; exists exe; now destruct v | left; now destruct v].
Qed.

Lemma spawned_printLog E st : spawned (printLog E st) = spawned st.
Proof. unfold printLog. now destruct (readLogFile E st). Qed.

Lemma spawned_random E st :
  spawned (snd (randomFortuneFromLog E st)) = spawned st.
Proof.
  unfold randomFortuneFromLog. destruct (readLogFile E st); [|reflexivity].
  now destruct (fortunesOf _).
Qed.

Lemma spawned_beforeFetch E fl st :
  spawned (beforeFetch E fl st) = spawned st.
Proof.
  unfold beforeFetch. destruct (verboseOf fl); cbn; apply spawned_prepared.
Qed.

Lemma spawned_runPrefetchWorker E p k m st :
  spawned (snd (runPrefetchWorker E p k m st)) = spawned st.
Proof.
  unfold runPrefetchWorker.
  destruct (generateFortune E p k m st) as [[f|e] st1] eqn:Hg;
    destruct (generateFortune_frame _ _ _ _ _ _ _ Hg) as (_ & _ & _ & _ & Hs & _).
  - destruct (_ || _); cbn [snd]; cbn [Println Print spawned];
      now rewrite spawned_saveCache, spawned_logFortune.
  - exact Hs.
Qed.

(** X12.  A run starts at most one process.  When it starts one, it
    is the background worker, [workerCmd]: the program itself with the
    arguments [--prefetch-worker], [--prompt] and the resolved prompt,
    [--model] and the resolved model and, when the resolved key is not
    empty, [--api-key] and the key,
    the run is in normal mode with caching on and without
    [--no-prefetch], and it exits with status 0.  A worker, and a run
    under [--show-log] or [--log-random], starts none. *)
Theorem main_one_worker (E : Env) (fl : Flags) (st : State) :
  spawned (snd (main E fl st)) = spawned st
  \/ (exists exe,
        Executable E = Ok exe
        /\ spawned (snd (main E fl st))
           = (spawned st
              ++ [workerCmd exe (thePrompt E fl) (theKey E fl) (theModel E fl)
                    (verboseOf fl)])%list
        /\ normalMode fl = true /\ cachingOf fl = true
        /\ flagNoPrefetch fl = false /\ fst (main E fl st) = 0).
Proof.
  destruct (main_path E fl st) as [Hw H|Hw Hs H|Hw Hs Hr H|c stD Hn Hc Hl H Hsame|Hn H].
  - left. rewrite H. apply spawned_runPrefetchWorker.
  - left. rewrite H. apply spawned_printLog.
  - left. destruct H as [->|[[m ->]|[[f ->]|[f [g ->]]]]]; cbn;
      apply spawned_random.
  - rewrite H. cbn [fst snd]. unfold prefetchUnless.
    assert (Hs : spawned (Println (Fortune c) stD) = spawned st).
    { cbn. destruct Hsame as (_ & _ & _ & -> & _). apply spawned_prepared. }
    destruct (flagNoPrefetch fl) eqn:Hp; [now left|].
    destruct (startPrefetch_spawned E (thePrompt E fl) (theKey E fl)
                (theModel E fl) (verboseOf fl) (Println (Fortune c) stD))
      as [Hq|[exe [He Hq]]]; [left; congruence|].
    right. exists exe. rewrite Hq, Hs. auto 7.
  - rewrite H. unfold fetchAndServe.
    destruct (generateFortune E (thePrompt E fl) (theKey E fl) (theModel E fl)
                (beforeFetch E fl st)) as [[f|e] st1] eqn:Hg;
      destruct (generateFortune_frame _ _ _ _ _ _ _ Hg)
        as (_ & _ & _ & _ & Hs & _);
      rewrite spawned_beforeFetch in Hs.
    + assert (Hs2 : spawned (Println f (logFortune E f st1)) = spawned st)
        by (cbn; now rewrite spawned_logFortune).
      destruct (cachingOf fl) eqn:Hc; [|now left].
      destruct (flagNoPrefetch fl) eqn:Hp; cbn [negb fst snd].
      * left. now rewrite spawned_saveCache.
      * destruct (startPrefetch_spawned E (thePrompt E fl) (theKey E fl)
                    (theModel E fl) (verboseOf fl)
                    (saveCache E f (Println f (logFortune E f st1))))
          as [Hq|[exe [He Hq]]];
          rewrite Hq, spawned_saveCache, Hs2; [now left|].
        right. exists exe. auto 7.
    + left. exact Hs.
Qed.

(** ** Fortunes as generated and as logged *)

Lemma rev_append a b : strings.rev (a ++ b) = strings.rev b ++ strings.rev a.
Proof.
  unfold strings.rev.
  assert (H : forall x y, list_ascii_of_string (x ++ y)
                          = (list_ascii_of_string x ++ list_ascii_of_string y)%list).
  { induction x; simpl; intros; [reflexivity | now rewrite IHx]. }
  assert (G : forall x y, string_of_list_ascii (x ++ y)%list
                          = string_of_list_ascii x ++ string_of_list_ascii y).
  { induction x; simpl; intros; [reflexivity | now rewrite IHx]. }
  now rewrite H, rev_app_distr, G.
Qed.

(** The end of a string that ends with the marker's last byte before a
    trimmed, non-empty text is not white space. *)
Lemma spaceLenRev_after_space t r :
  t <> "" -> spaceLenRev (strings.rev t) = 0%nat ->
  spaceLenRev (strings.rev t ++ String (ascii_of_nat 32) (String (ascii_of_nat 147) r))
  = 0%nat.
Proof.
  intros Hne H.
  assert (Hr : strings.rev t <> "").
  { intros He. apply Hne. rewrite <- (rev_rev t), He. reflexivity. }
  destruct (strings.rev t) as [|a [|b [|c u]]]; [contradiction| | |].
  - cbn in H |- *.
    repeat match goal with
           | |- context [if ?x then _ else _] => destruct x eqn:?
           | H : context [if ?x then _ else _] |- _ => destruct x eqn:?
           end; try reflexivity; try discriminate.
  - cbn in H |- *.
    repeat match goal with
           | |- context [if ?x then _ else _] => destruct x eqn:?
           | H : context [if ?x then _ else _] |- _ => destruct x eqn:?
           end; try reflexivity; try discriminate.
  - exact H.
Qed.

Lemma marker_rev : exists r,
  strings.rev marker = String (ascii_of_nat 32) (String (ascii_of_nat 147) r).
Proof. eexists. reflexivity. Qed.

Lemma marker_trimmed t :
  t <> "" -> TrimSpace t = t -> TrimSpace (marker ++ t) = marker ++ t.
Proof.
  intros Hne Ht. apply TrimSpace_fixed.
  - destruct (marker_head t) as [r [-> Hr]]. exact Hr.
  - rewrite rev_append. destruct marker_rev as [r ->].
    apply spaceLenRev_after_space; [exact Hne|].
    rewrite <- Ht. apply TrimSpace_ends.
Qed.

Lemma extract_trimmed p : TrimSpace (extract p) = extract p.
Proof.
  unfold extract. destruct (Output p) as [|[|text ?] ?];
    try apply TrimSpace_idem;
    destruct (negb (isEmpty (OutputText p))); try apply TrimSpace_idem;
    reflexivity.
Qed.

(** X13.  A fortune [generateFortune] returns is the marker followed
    by a text that is not empty and has no white space at either end;
    the whole has none either: [strings.TrimSpace] leaves it unchanged. *)
Theorem generateFortune_trimmed (E : Env) (p k m : string) (st st1 : State)
  (f : string) :
  generateFortune E p k m st = (Ok f, st1) ->
  TrimSpace f = f
  /\ exists body, f = marker ++ body /\ body <> "" /\ TrimSpace body = body.
Proof.
  unfold generateFortune. intros H.
  destruct (isEmpty k); [discriminate|].
  destruct (Do E _) as [e|status body]; [discriminate|].
  destruct (300 <=? status); [discriminate|].
  destruct (decodeResponse E body) as [q|e]; [|discriminate].
  destruct (isEmpty (extract q)) eqn:He; [discriminate|].
  inversion H; subst.
  assert (Hne : extract q <> "") by (intros Hq; rewrite Hq in He; discriminate).
  split.
  - apply marker_trimmed; [exact Hne | apply extract_trimmed].
  - exists (extract q). repeat split; [exact Hne | apply extract_trimmed].
Qed.

Lemma generateFortune_trimmed_witness :
  TrimSpace (marker ++ "Good luck.") = marker ++ "Good luck."
  /\ exists body,
       marker ++ "Good luck." = marker ++ body /\ body <> ""
       /\ TrimSpace body = body.
Proof.
  apply (generateFortune_trimmed Sample.E0 "p" "sk-test" "m" Sample.st0
           (addCall {| reqModel := "m"; reqPrompt := "p"; reqKey := "sk-test" |}
              Sample.st0)).
  reflexivity.
Defined.

(** *** The log, written and read back *)

Lemma plain_uint d : plain (NilEmpty.string_of_uint d).
Proof. induction d; cbn; repeat split; try discriminate; assumption. Qed.

Lemma plain_itoa z : plain (itoa z).
Proof.
  unfold itoa. destruct (Z.to_int z) as [d|d]; cbn [NilZero.string_of_int].
  - unfold NilZero.string_of_uint.
    destruct d; try apply plain_uint. cbn. repeat split; discriminate.
  - cbn. repeat split; try discriminate.
    unfold NilZero.string_of_uint.
    destruct d; try apply plain_uint. cbn. repeat split; discriminate.
Qed.

Lemma Split_nonempty sep s : Split sep s <> [].
Proof.
  destruct s as [|c r]; cbn; [discriminate|].
  destruct (Ascii.eqb c sep); [discriminate|].
  destruct (Split sep r); discriminate.
Qed.

Lemma Split_app sep a b :
  Split sep (a ++ String sep b) = (Split sep a ++ Split sep b)%list.
Proof.
  induction a as [|c a IH]; cbn [append Split List.app].
  - now rewrite Ascii.eqb_refl.
  - destruct (Ascii.eqb c sep); [now rewrite IH|].
    rewrite IH. destruct (Split sep a) eqn:Hs; [|reflexivity].
    now apply Split_nonempty in Hs.
Qed.

Lemma Split_line_app a b :
  plain a -> Split LF b = [b] -> Split LF (a ++ b) = [a ++ b].
Proof.
  intros Ha Hb. induction a as [|c a IH]; cbn [append Split]; [exact Hb|].
  destruct Ha as (_ & Hc & Ha).
  destruct (Ascii.eqb c LF) eqn:He; [apply Ascii.eqb_eq in He; contradiction|].
  now rewrite (IH Ha).
Qed.

Lemma Split_line_tab b :
  Split LF b = [b] -> Split LF (String tab b) = [String tab b].
Proof. intros Hb. cbn [Split]. change (Ascii.eqb tab LF) with false. now rewrite Hb. Qed.

Lemma cut_plain a b : plain a -> cut tab (a ++ String tab b) = Some (a, b).
Proof.
  intros Ha. induction a as [|c a IH]; cbn [append cut].
  - now rewrite Ascii.eqb_refl.
  - destruct Ha as (Hc & _ & Ha).
    destruct (Ascii.eqb c tab) eqn:He; [apply Ascii.eqb_eq in He; contradiction|].
    now rewrite (IH Ha).
Qed.

Lemma fortunesOf_app l1 l2 :
  fortunesOf (l1 ++ l2) = (fortunesOf l1 ++ fortunesOf l2)%list.
Proof.
  induction l1 as [|l l1 IH]; cbn [List.app fortunesOf]; [reflexivity|].
  destruct (SplitN2 tab l) as [|? [|? [|? ?]]]; rewrite IH; reflexivity.
Qed.

Lemma entries_line t f :
  Split LF f = [f] -> entries (entry t f) = [TrimSpace f].
Proof.
  intros Hf. unfold entries, entry, newline.
  replace (itoa t ++ String tab (f ++ String (ascii_of_nat 10) ""))
    with ((itoa t ++ String tab f) ++ String LF "").
  2:{ rewrite json_facts.append_assoc. reflexivity. }
  rewrite Split_app.
  rewrite (Split_line_app _ _ (plain_itoa t) (Split_line_tab _ Hf)).
  cbn [List.app Split fortunesOf]. unfold SplitN2.
  rewrite (cut_plain _ _ (plain_itoa t)). reflexivity.
Qed.

Lemma entries_ended b x :
  ended b -> entries (b ++ x) = (entries b ++ entries x)%list.
Proof.
  intros [->|[b' ->]]; [reflexivity|]. unfold entries, newline.
  rewrite json_facts.append_assoc. cbn [append]. fold LF.
  rewrite !Split_app, !fortunesOf_app. cbn [Split fortunesOf SplitN2 cut].
  now rewrite app_nil_r.
Qed.

(** X14.  What [logFortune] writes, [randomFortuneFromLog] reads back.
    Let the fortune be one line and no error message, and the log
    writable and either empty or ended by a line feed.  Then the entries
    read from the log after [logFortune] are those read before, followed
    by the fortune, trimmed; the log is again ended by a line feed; and
    when there was no entry before, [randomFortuneFromLog] returns that
    fortune. *)
Theorem logged_entry_read_back (E : Env) (f : string) (st : State) :
  isErrorFortune f = false -> Split LF f = [f] ->
  logOpenErr E = None -> logWriteErr E = None ->
  ended (logText st) ->
  entries (logText (logFortune E f st))
  = (entries (logText st) ++ [TrimSpace f])%list
  /\ ended (logText (logFortune E f st))
  /\ (logReadErr E = None -> entries (logText st) = [] ->
      fst (randomFortuneFromLog E (logFortune E f st)) = Ok (TrimSpace f)).
Proof.
  intros He Hf Ho Hw Hend.
  pose proof (logFortune_appends E f st He Ho Hw) as Hl.
  assert (Ht : logText (logFortune E f st)
               = logText st
                 ++ entry (time.toUnix (time.ofClock (clock E (tick st)))) f).
  { unfold logText at 1. rewrite Hl. reflexivity. }
  assert (Hentries : entries (logText (logFortune E f st))
                     = (entries (logText st) ++ [TrimSpace f])%list).
  { rewrite Ht, (entries_ended _ _ Hend), (entries_line _ _ Hf). reflexivity. }
  split; [exact Hentries|]. split.
  - right. exists (logText st
                   ++ itoa (time.toUnix (time.ofClock (clock E (tick st))))
                   ++ String tab f).
    rewrite Ht. unfold entry.
    rewrite !json_facts.append_assoc. reflexivity.
  - intros Hr Hnone. unfold randomFortuneFromLog, readLogFile.
    rewrite Hl, Hr. fold LF.
    change (fortunesOf (Split LF (logText st ++ logLine E f st)))
      with (entries (logText st ++ logLine E f st)).
    assert (Hq : entries (logText st ++ logLine E f st) = [TrimSpace f]).
    { unfold logText at 1 in Hentries. rewrite Hl in Hentries.
      rewrite Hentries, Hnone. reflexivity. }
    rewrite Hq. cbn [Now fst List.length]. unfold Intn.
    now rewrite Nat.mod_1_r.
Qed.

Lemma logged_entry_read_back_witness :
  entries (logText (logFortune Sample.E0 "Good luck." Sample.st0))
  = (entries (logText Sample.st0) ++ [TrimSpace "Good luck."])%list
  /\ ended (logText (logFortune Sample.E0 "Good luck." Sample.st0))
  /\ (logReadErr Sample.E0 = None -> entries (logText Sample.st0) = [] ->
      fst (randomFortuneFromLog Sample.E0
             (logFortune Sample.E0 "Good luck." Sample.st0))
      = Ok (TrimSpace "Good luck.")).
Proof.
  apply (logged_entry_read_back Sample.E0 "Good luck." Sample.st0).
  - reflexivity.
  - reflexivity.
  - reflexivity.
  - reflexivity.
  - left. reflexivity.
Defined.

(** ** Modes *)

(** X15.  [--clear-cache] forces a fetch: in normal mode, when the
    cache file can be removed (or there is none), the run reaches the
    synchronous fetch with no cache file, whatever the cache held and
    whatever the TTL. *)
Theorem clear_cache_forces_fetch (E : Env) (fl : Flags) (st : State) :
  normalMode fl = true -> flagClearCache fl = true ->
  cacheRemoveErr E = None ->
  cacheFile (beforeFetch E fl st) = None
  /\ main E fl st
     = fetchAndServe E fl (cachingOf fl) (verboseOf fl) (thePrompt E fl)
         (theKey E fl) (theModel E fl) (beforeFetch E fl st).
Proof.
  intros Hn Hc Hr.
  assert (Hnone : cacheFile (prepared E fl st) = None).
  { rewrite cacheFile_prepared, Hc. unfold clearCache.
    destruct (cacheFile st) eqn:Hf; [rewrite Hr; reflexivity | cbn; exact Hf]. }
  split.
  - now rewrite cacheFile_beforeFetch.
  - apply main_fetch; [exact Hn|]. right.
    exists (noSuchFile (cachePath E)).
    unfold loadCache, readCacheFile. now rewrite Hnone.
Qed.

Lemma clear_cache_forces_fetch_witness :
  cacheFile (beforeFetch Sample.E0 Sample.flClear Sample.stCached) = None
  /\ main Sample.E0 Sample.flClear Sample.stCached
     = fetchAndServe Sample.E0 Sample.flClear (cachingOf Sample.flClear)
         (verboseOf Sample.flClear) (thePrompt Sample.E0 Sample.flClear)
         (theKey Sample.E0 Sample.flClear) (theModel Sample.E0 Sample.flClear)
         (beforeFetch Sample.E0 Sample.flClear Sample.stCached).
Proof.
  apply (clear_cache_forces_fetch Sample.E0 Sample.flClear Sample.stCached);
    reflexivity.
Defined.

(** X16.  [--show-log] comes before [--log-random] and
    [--clear-cache], reads only, and always succeeds: unless the run is
    a worker, it exits with status 0, leaves the files, the standard
    error, the processes and the requests as they were, and prints one
    text, the contents of the log or, when the log cannot be read for
    whatever reason, the line that no log file was found. *)
Theorem show_log_read_only (E : Env) (fl : Flags) (st : State) :
  flagPrefetchWork fl = false -> flagShowLog fl = true ->
  fst (main E fl st) = 0
  /\ sameButStdout st (snd (main E fl st))
  /\ stdout (snd (main E fl st))
     = (stdout st
        ++ [match readLogFile E st with
            | Ok b => b
            | Err _ => ("[fortunebot] No log file found." ++ newline)%string
            end])%list.
Proof.
  intros Hw Hs. rewrite (main_show E fl st Hw Hs). unfold printLog.
  destruct (readLogFile E st); repeat split.
Qed.

Lemma show_log_read_only_witness :
  fst (main Sample.E0 Sample.flShow Sample.stCached) = 0
  /\ sameButStdout Sample.stCached
       (snd (main Sample.E0 Sample.flShow Sample.stCached))
  /\ stdout (snd (main Sample.E0 Sample.flShow Sample.stCached))
     = (stdout Sample.stCached
        ++ [match readLogFile Sample.E0 Sample.stCached with
            | Ok b => b
            | Err _ => ("[fortunebot] No log file found." ++ newline)%string
            end])%list.
Proof.
  apply (show_log_read_only Sample.E0 Sample.flShow Sample.stCached);
    reflexivity.
Defined.

(** ** Failures to write *)

Lemma sameShown_refl st : sameShown st st.
Proof. repeat split. Qed.

Lemma sameShown_logFortune E f st :
  sameShown (logFortune E f st) (logFortune (writable E) f st).
Proof.
  unfold sameShown, logFortune, Now. cbn [logOpenErr logWriteErr writable clock].
  destruct (isErrorFortune f); [repeat split|].
  destruct (logOpenErr E); [repeat split|].
  destruct (logWriteErr E) as [[m n]|]; repeat split.
Qed.

Lemma sameShown_saveCache E f st st' :
  sameShown st st' ->
  sameShown (saveCache E f st) (saveCache (writable E) f st').
Proof.
  intros (Ho & Hs & Hn).
  unfold sameShown, saveCache, Now.
  cbn [mkdirErr cacheWriteErr writable clock].
  destruct (isErrorFortune f); [repeat split; assumption|].
  destruct (mkdirErr E); [repeat split; assumption|].
  destruct (cacheWriteErr E) as [[m|m n]|]; repeat split; assumption.
Qed.

Lemma sameShown_Println s st st' :
  sameShown st st' -> sameShown (Println s st) (Println s st').
Proof. intros (Ho & Hs & Hn). repeat split; cbn; congruence. Qed.

Lemma sameShown_startPrefetch E p k m v st st' :
  sameShown st st' ->
  sameShown (startPrefetch E p k m v st) (startPrefetch (writable E) p k m v st').
Proof.
  intros (Ho & Hs & Hn). unfold sameShown, startPrefetch.
  cbn [Executable StartProcess writable].
  destruct (Executable E); [|destruct v; repeat split; assumption].
  destruct (StartProcess E _); destruct v; repeat split; cbn; congruence.
Qed.

Lemma sameRun_refl r : sameRun r r.
Proof. repeat split. Qed.

Lemma generateFortune_writable E p k m st :
  generateFortune (writable E) p k m st = generateFortune E p k m st.
Proof. reflexivity. Qed.

Lemma sameRun_fetchAndServe E fl ca v p k m st :
  sameRun (fetchAndServe E fl ca v p k m st)
    (fetchAndServe (writable E) fl ca v p k m st).
Proof.
  unfold fetchAndServe. rewrite generateFortune_writable.
  destruct (generateFortune E p k m st) as [[f|e] st1]; [|apply sameRun_refl].
  pose proof (sameShown_Println f _ _ (sameShown_logFortune E f st1)) as H2.
  destruct ca; [|split; [reflexivity | exact H2]].
  pose proof (sameShown_saveCache E f _ _ H2) as H3.
  destruct (negb (flagNoPrefetch fl)); split; try reflexivity; cbn [snd];
    [now apply sameShown_startPrefetch | exact H3].
Qed.

Lemma sameRun_runPrefetchWorker E p k m st :
  sameRun (runPrefetchWorker E p k m st)
    (runPrefetchWorker (writable E) p k m st).
Proof.
  unfold runPrefetchWorker. rewrite generateFortune_writable.
  destruct (generateFortune E p k m st) as [[f|e] st1]; [|apply sameRun_refl].
  pose proof (sameShown_saveCache E f _ _ (sameShown_logFortune E f st1)) as H2.
  cbn [Getenv writable].
  destruct (_ || _); split; try reflexivity; cbn [snd];
    [now apply sameShown_Println | exact H2].
Qed.

Lemma sameRun_serve E fl v p k m st :
  sameRun (serve E fl v p k m st) (serve (writable E) fl v p k m st).
Proof.
  unfold serve.
  change (loadCache (writable E) st) with (loadCache E st).
  destruct (negb (flagNoCache fl) && (0 <? flagCacheTTL fl)).
  - destruct (loadCache E st) as [c|e].
    + change (cacheIsFresh (writable E)) with (cacheIsFresh E).
      change (formatAge (writable E)) with (formatAge E).
      change (startPrefetch (writable E)) with (startPrefetch E).
      apply sameRun_refl.
    + apply sameRun_fetchAndServe.
  - apply sameRun_fetchAndServe.
Qed.

(** X17.  A failure to write never shows.  Whether the data directory
    can be created and whether the cache and the log can be written
    changes neither the exit status of a run, nor what it prints on
    standard output, nor the process it starts, nor the request it
    makes: they are those of the same run on a disk that takes every
    write. *)
Theorem write_failures_unseen (E : Env) (fl : Flags) (st : State) :
  fst (main (writable E) fl st) = fst (main E fl st)
  /\ stdout (snd (main (writable E) fl st)) = stdout (snd (main E fl st))
  /\ spawned (snd (main (writable E) fl st)) = spawned (snd (main E fl st))
  /\ netCalls (snd (main (writable E) fl st)) = netCalls (snd (main E fl st)).
Proof.
  change (sameRun (main E fl st) (main (writable E) fl st)).
  destruct (flagPrefetchWork fl) eqn:Hw.
  { rewrite (main_worker E fl st Hw), (main_worker (writable E) fl st Hw).
    apply sameRun_runPrefetchWorker. }
  destruct (flagShowLog fl) eqn:Hs.
  { rewrite (main_show E fl st Hw Hs), (main_show (writable E) fl st Hw Hs).
    apply sameRun_refl. }
  destruct (flagLogRandom fl) eqn:Hr.
  { rewrite (main_random E fl st Hw Hs Hr),
      (main_random (writable E) fl st Hw Hs Hr).
    apply sameRun_refl. }
  assert (Hn : normalMode fl = true)
    by (unfold normalMode; now rewrite Hw, Hs, Hr).
  rewrite (main_normal E fl st Hn), (main_normal (writable E) fl st Hn).
  apply sameRun_serve.
Qed.

(** ** A configuration file with a field of the wrong type *)

Lemma setString_bad v old :
  notString v = true -> setString v old = (old, false).
Proof. destruct v; cbn; intros H; try discriminate; reflexivity. Qed.

Lemma configMember_failed c m : snd (configMember (c, false) m) = false.
Proof.
  destruct m as [k v]. unfold configMember.
  destruct (json.keyMatches "api_key" k);
    [destruct (setString v (APIKey c)); reflexivity|].
  destruct (json.keyMatches "default_prompt" k);
    [destruct (setString v (DefaultPrompt c)); reflexivity|].
  destruct (json.keyMatches "model" k);
    [destruct (setString v (Model c)); reflexivity|].
  reflexivity.
Qed.

Lemma configMember_bad c ok k v :
  namesField k = true -> notString v = true ->
  snd (configMember (c, ok) (k, v)) = false.
Proof.
  unfold namesField, configMember. intros Hk Hv.
  destruct (json.keyMatches "api_key" k);
    [rewrite (setString_bad _ _ Hv); cbn; apply andb_false_r|].
  destruct (json.keyMatches "default_prompt" k);
    [rewrite (setString_bad _ _ Hv); cbn; apply andb_false_r|].
  destruct (json.keyMatches "model" k);
    [rewrite (setString_bad _ _ Hv); cbn; apply andb_false_r|].
  discriminate.
Qed.

Lemma fold_failed ms : forall c,
  snd (fold_left configMember ms (c, false)) = false.
Proof.
  induction ms as [|m ms IH]; intros c; cbn [fold_left]; [reflexivity|].
  pose proof (configMember_failed c m) as H.
  destruct (configMember (c, false) m) as [c' ok]. cbn in H. subst ok.
  apply IH.
Qed.

Lemma fold_bad ms k v : forall acc,
  In (k, v) ms -> namesField k = true -> notString v = true ->
  snd (fold_left configMember ms acc) = false.
Proof.
  induction ms as [|m ms IH]; intros acc Hin Hk Hv; [destruct Hin|].
  cbn [fold_left]. destruct Hin as [->|Hin].
  - destruct acc as [c ok].
    pose proof (configMember_bad c ok k v Hk Hv) as H.
    destruct (configMember (c, ok) (k, v)) as [c' ok']. cbn in H. subst ok'.
    apply fold_failed.
  - now apply IH.
Qed.

(** X18.  One field of the wrong type discards the whole
    configuration file: when a member of the document names a field of
    [config] and holds a value that is neither a string nor [null],
    [loadConfig] returns the defaults, without the key the file may
    hold. *)
Theorem config_bad_field_discards_file (E : Env) (b : string)
  (ms : list (string * json.value)) (k : string) (v : json.value) :
  configFile E = Some b ->
  json.parse b = Some (json.Object ms) ->
  In (k, v) ms -> namesField k = true -> notString v = true ->
  loadConfig E
  = {| APIKey := ""; DefaultPrompt := defaultPrompt; Model := defaultModel |}.
Proof.
  intros Hc Hp Hin Hk Hv. unfold loadConfig, Unmarshal_config, decodeStruct.
  rewrite Hc, Hp.
  pose proof (fold_bad ms k v
                ({| APIKey := ""; DefaultPrompt := ""; Model := "" |}, true)
                Hin Hk Hv) as H.
  destruct (fold_left configMember ms _) as [c ok]. cbn in H. subst ok.
  reflexivity.
Qed.

Lemma config_bad_field_discards_file_witness :
  loadConfig Sample.Ebad
  = {| APIKey := ""; DefaultPrompt := defaultPrompt; Model := defaultModel |}.
Proof.
  apply (config_bad_field_discards_file Sample.Ebad Sample.badConfig
           [("api_key", json.Str "sk-9"); ("model", json.Number "7")]
           "model" (json.Number "7")).
  - reflexivity.
  - vm_compute. reflexivity.
  - right. left. reflexivity.
  - reflexivity.
  - reflexivity.
Defined.

(** ** [firstNonEmpty] and [maskKey] *)

(** X19.  [firstNonEmpty] returns the first of its arguments that is
    not blank, as it stands, and the empty string when all are blank. *)
Theorem firstNonEmpty_spec (vals : list string) :
  (firstNonEmpty vals = "" /\ Forall (fun v => blank v = true) vals)
  \/ (exists pre v post,
        vals = (pre ++ v :: post)%list
        /\ Forall (fun x => blank x = true) pre
        /\ blank v = false /\ firstNonEmpty vals = v).
Proof.
  induction vals as [|v rest IH]; cbn [firstNonEmpty].
  - left. split; [reflexivity | constructor].
  - destruct (blank v) eqn:Hb; cbn [negb].
    + destruct IH as [[H0 Hall]|(pre & w & post & -> & Hpre & Hw & Hf)].
      * left. split; [exact H0 | now constructor].
      * right. exists (v :: pre), w, post. repeat split; auto.
    + right. exists [], v, rest. repeat split; auto.
Qed.

Lemma length_substring n m s :
  (n + m <= String.length s)%nat -> String.length (substring n m s) = m.
Proof.
  revert n m. induction s as [|c s IH]; intros n m H; cbn in H.
  - assert (n = 0 /\ m = 0)%nat as [-> ->] by lia. reflexivity.
  - destruct n as [|n]; cbn [substring].
    + destruct m as [|m]; [reflexivity|]. cbn. f_equal. apply IH. lia.
    + apply IH. lia.
Qed.

Lemma substring_all s : substring 0 (String.length s) s = s.
Proof. induction s as [|c s IH]; cbn; [reflexivity | now rewrite IH]. Qed.

(** A piece of a string, cut in two. *)
Lemma substring_cut s : forall n m p,
  (n + m + p <= String.length s)%nat ->
  substring n (m + p) s = substring n m s ++ substring (n + m) p s.
Proof.
  induction s as [|c s IH]; intros n m p H; cbn in H.
  - assert (n = 0 /\ m = 0 /\ p = 0)%nat as (-> & -> & ->) by lia. reflexivity.
  - destruct n as [|n].
    + destruct m as [|m]; [reflexivity|].
      cbn [Nat.add substring append]. f_equal.
      apply (IH 0%nat m p). lia.
    + cbn [Nat.add substring]. apply IH. lia.
Qed.

(** X20.  What [maskKey] shows of a key: all of it when it has at most
    eight bytes; otherwise its first four bytes, three asterisks, and
    its last four bytes, whatever lies between them, which is at least
    one byte. *)
Theorem maskKey_shows (k : string) :
  if (String.length k <=? 8)%nat then maskKey k = k
  else exists a mid b,
      k = a ++ mid ++ b
      /\ String.length a = 4%nat /\ String.length b = 4%nat
      /\ mid <> ""
      /\ maskKey k = a ++ "***" ++ b.
Proof.
  unfold maskKey. destruct (String.length k <=? 8)%nat eqn:H; [reflexivity|].
  apply Nat.leb_gt in H.
  set (n := String.length k) in *.
  exists (substring 0 4 k), (substring 4 (n - 8) k), (substring (n - 4) 4 k).
  assert (Hk : k = substring 0 4 k ++ substring 4 (n - 8) k
                   ++ substring (n - 4) 4 k).
  { rewrite <- (substring_all k) at 1. fold n.
    replace n with (4 + (n - 8 + 4))%nat at 1 by lia.
    rewrite (substring_cut k 0 4 (n - 8 + 4)) by (fold n; lia).
    change (0 + 4)%nat with 4%nat.
    rewrite (substring_cut k 4 (n - 8) 4) by (fold n; lia).
    replace (4 + (n - 8))%nat with (n - 4)%nat by lia. reflexivity. }
  split; [exact Hk|].
  split; [apply length_substring; fold n; lia|].
  split; [apply length_substring; fold n; lia|].
  split; [|reflexivity].
  intros He.
  assert (Hl : String.length (substring 4 (n - 8) k) = (n - 8)%nat)
    by (apply length_substring; fold n; lia).
  rewrite He in Hl. cbn in Hl. lia.
Qed.

(** ** Saved, loaded, and fresh *)

Lemma toUnix_ofClock c :
  inEra c -> time.toUnix (time.ofClock c) = c / time.Second.
Proof.
  unfold inEra, time.toUnix, time.ofClock. cbn [time.sec]. intros H.
  replace (c / time.Second + time.unixToInternal - time.unixToInternal)
    with (c / time.Second) by lia.
  apply wrap64_small.
  assert (0 <= c / time.Second <= c).
  { unfold time.Second. split; [apply Z.div_pos; lia|].
    apply Z.div_le_upper_bound; lia. }
  unfold minInt64, maxInt64. lia.
Qed.

(** The age of a stamp of whole seconds, read in the same era. *)
Lemma ageOf_inEra E s st :
  inEra (clock E (tick st)) -> inEra (s * time.Second) ->
  fst (ageOf E s st) = clock E (tick st) - s * time.Second.
Proof.
  unfold inEra. intros Hn Hs.
  assert (Hs' : 0 <= s < 2 ^ 62) by (unfold time.Second in Hs; lia).
  unfold ageOf, Now. cbn [fst].
  unfold int64_of_float64.
  replace ((minInt64 <=? s) && (s <=? maxInt64)) with true.
  2:{ symmetry. apply andb_true_iff. split; apply Z.leb_le;
      unfold minInt64, maxInt64; lia. }
  unfold time.Unix, time.ofClock, time.Sub. cbn [time.sec time.nsec].
  rewrite wrap64_small
    by (unfold minInt64, maxInt64, time.unixToInternal; lia).
  set (now := clock E (tick st)) in *.
  assert (Hd : (now / time.Second + time.unixToInternal
                - (s + time.unixToInternal)) * time.Second
               + (now mod time.Second - 0)
               = now - s * time.Second).
  { pose proof (Z.div_mod now time.Second) as Hdm.
    unfold time.Second in *. lia. }
  rewrite Hd.
  unfold time.minDuration, time.maxDuration, minInt64, maxInt64,
    time.Second in *.
  destruct (now - s * 1000000000 <? - 2 ^ 63) eqn:H1.
  - apply Z.ltb_lt in H1. lia.
  - destruct (2 ^ 63 - 1 <? now - s * 1000000000) eqn:H2; [|reflexivity].
    apply Z.ltb_lt in H2. lia.
Qed.

(** X21.  A saved fortune is fresh for [ttl] seconds counted from the
    start of the second in which it was saved.  With a disk that
    works, clock readings between 1970 and 2116 and a TTL whose
    nanoseconds fit a duration, [loadCache] after [saveCache] returns the
    fortune with the Unix second of the saving as its timestamp, and
    [cacheIsFresh] holds of it at a later reading exactly when that
    reading is less than [ttl] seconds after the start of that second. *)
Theorem saved_entry_fresh (E : Env) (f : string) (st st2 : State) (ttl : Z) :
  isErrorFortune f = false -> utf8.ValidString f = true ->
  mkdirErr E = None -> cacheWriteErr E = None -> cacheReadErr E = None ->
  inEra (clock E (tick st)) -> inEra (clock E (tick st2)) ->
  0 < ttl <= maxTTL ->
  exists c,
    loadCache E (saveCache E f st) = Ok c
    /\ Fortune c = f
    /\ Timestamp c = clock E (tick st) / time.Second
    /\ (fst (cacheIsFresh E c ttl st2) = true
        <-> clock E (tick st2)
            < (clock E (tick st) / time.Second + ttl) * time.Second).
Proof.
  intros He Hv Hm Hw Hr H1 H2 Ht.
  pose proof (toUnix_ofClock _ H1) as Hu.
  assert (Hq : 0 <= clock E (tick st) / time.Second
               /\ clock E (tick st) / time.Second * time.Second
                  <= clock E (tick st)).
  { unfold inEra, time.Second in *. split; [apply Z.div_pos; lia|].
    pose proof (Z.mul_div_le (clock E (tick st)) 1000000000). lia. }
  exists {| Fortune := f; Timestamp := clock E (tick st) / time.Second |}.
  split; [|split; [reflexivity | split; [reflexivity|]]].
  - rewrite <- Hu. apply saved_entry; auto.
    + now apply json_facts.ValidString_Valid.
    + rewrite Hu. destruct Hq as [Hq0 Hq1].
      rewrite Z.abs_eq by exact Hq0.
      unfold inEra, time.Second in *.
      change (2 ^ 62) with 4611686018427387904 in H1.
      change (2 ^ 53) with 9007199254740992. lia.
  - rewrite (cacheIsFresh_in_range E _ ttl st2 Ht). cbn [Timestamp].
    rewrite ageOf_inEra; [lia | exact H2|].
    unfold inEra, time.Second in *. lia.
Qed.

Lemma saved_entry_fresh_witness :
  exists c,
    loadCache Sample.E0 (saveCache Sample.E0 "New luck." Sample.st0) = Ok c
    /\ Fortune c = "New luck."
    /\ Timestamp c = clock Sample.E0 (tick Sample.st0) / time.Second
    /\ (fst (cacheIsFresh Sample.E0 c 60 Sample.stCached) = true
        <-> clock Sample.E0 (tick Sample.stCached)
            < (clock Sample.E0 (tick Sample.st0) / time.Second + 60)
              * time.Second).
Proof.
  apply (saved_entry_fresh Sample.E0 "New luck." Sample.st0 Sample.stCached 60);
    try reflexivity; unfold inEra, maxTTL; cbn; lia.
Defined.

(** ** The exit status *)

Lemma explained_fetchAndServe E fl ca v p k m st :
  fst (fetchAndServe E fl ca v p k m st) = 0
  \/ explained (fetchAndServe E fl ca v p k m st).
Proof.
  unfold fetchAndServe.
  destruct (generateFortune E p k m st) as [[f|e] st1].
  - left. destruct ca; [destruct (negb (flagNoPrefetch fl))|]; reflexivity.
  - right. split; [reflexivity|].
    exists (stderr st1), ("Error: " ++ e). reflexivity.
Qed.

(** X22.  Once the command line is read, a run exits with status 0 or
    1, and a run that exits with status 1 has written last on the
    standard error a message that starts with [[fortunebot] ] and ends
    with a line feed: no failure is silent.  (The message holds what
    the failure reported, which may be several lines.) *)
Theorem main_status (E : Env) (fl : Flags) (st : State) :
  fst (main E fl st) = 0 \/ explained (main E fl st).
Proof.
  destruct (flagPrefetchWork fl) eqn:Hw.
  { rewrite (main_worker E fl st Hw). unfold runPrefetchWorker.
    destruct (generateFortune E _ _ _ st) as [[f|e] st1].
    - left. destruct (_ || _); reflexivity.
    - right. split; [reflexivity|].
      exists (stderr st1), ("Background prefetch failed: " ++ e).
      reflexivity. }
  destruct (flagShowLog fl) eqn:Hs.
  { left. now rewrite (main_show E fl st Hw Hs). }
  destruct (flagLogRandom fl) eqn:Hr.
  { rewrite (main_random E fl st Hw Hs Hr).
    destruct (randomFortuneFromLog E st) as [[f|e] st1]; [now left|].
    right. split; [reflexivity|].
    exists (stderr st1), e. reflexivity. }
  assert (Hn : normalMode fl = true)
    by (unfold normalMode; now rewrite Hw, Hs, Hr).
  rewrite (main_normal E fl st Hn). unfold serve.
  destruct (negb (flagNoCache fl) && (0 <? flagCacheTTL fl));
    [|apply explained_fetchAndServe].
  destruct (loadCache E (prepared E fl st)) as [c|e];
    [|apply explained_fetchAndServe].
  left. destruct (cacheIsFresh E c _ _) as [[|] st1];
    destruct (verboseOf fl); try destruct (formatAge E _ st1);
    destruct (negb (flagNoPrefetch fl)); reflexivity.
Qed.

(** ** Fortunes are text *)

Module utf8_trim.
Import utf8.

Lemma Valid_ValidString s : Valid s -> ValidString s = true.
Proof.
  induction 1 as [| a r Ha _ IH | a b r Hk _ IH | a b c r Hk _ IH
                  | a b c d r Hk _ IH]; cbn [ValidString].
  - reflexivity.
  - now rewrite Ha.
  - pose proof (json_facts.ok2_lead _ _ Hk).
    rewrite json_facts.ltb128_off by lia. now rewrite Hk.
  - pose proof (json_facts.ok3_lead _ _ _ Hk).
    rewrite json_facts.ltb128_off by lia.
    rewrite json_facts.ok2_off by lia. now rewrite Hk.
  - pose proof (json_facts.ok4_lead _ _ _ _ Hk).
    rewrite json_facts.ltb128_off by lia.
    rewrite json_facts.ok2_off by lia.
    rewrite json_facts.ok3_off by lia. now rewrite Hk.
Qed.

Lemma Valid_marker x : Valid x -> Valid (marker ++ x).
Proof.
  intros H. unfold marker. cbn [map string_of_list_ascii append].
  apply valid_2; [reflexivity|]. apply valid_2; [reflexivity|].
  apply valid_2; [reflexivity|]. apply valid_3; [reflexivity|].
  apply valid_1; [reflexivity | exact H].
Qed.

(** White space at the head of a valid string is a whole rune. *)
Lemma Valid_drop_space s :
  Valid s -> spaceLen s <> 0%nat -> Valid (drop (spaceLen s) s).
Proof.
  intros H. destruct H as [| a r Ha Hr | a b r Hk Hr | a b c r Hk Hr
                           | a b c d r Hk Hr].
  - intros Hs. now destruct Hs.
  - unfold spaceLen.
    destruct (_ || _)%bool; [intros _; exact Hr|].
    apply N.ltb_lt in Ha.
    replace (byte a =? 194)%N with false by (symmetry; apply N.eqb_neq; lia).
    replace (byte a =? 225)%N with false by (symmetry; apply N.eqb_neq; lia).
    replace (byte a =? 226)%N with false by (symmetry; apply N.eqb_neq; lia).
    replace (byte a =? 227)%N with false by (symmetry; apply N.eqb_neq; lia).
    destruct r as [|b [|c r']]; cbn; intros Hs; now destruct Hs.
  - pose proof (json_facts.ok2_lead _ _ Hk) as Hl. unfold spaceLen.
    replace ((9 <=? byte a) && (byte a <=? 13) || (byte a =? 32))%N
      with false.
    2:{ symmetry. apply orb_false_iff. split.
        - apply andb_false_iff. right. apply N.leb_gt. lia.
        - apply N.eqb_neq. lia. }
    destruct (_ && _)%bool; [intros _; exact Hr|].
    replace (byte a =? 225)%N with false by (symmetry; apply N.eqb_neq; lia).
    replace (byte a =? 226)%N with false by (symmetry; apply N.eqb_neq; lia).
    replace (byte a =? 227)%N with false by (symmetry; apply N.eqb_neq; lia).
    destruct r as [|c r']; cbn; intros Hs; now destruct Hs.
  - pose proof (json_facts.ok3_lead _ _ _ Hk) as Hl. unfold spaceLen.
    replace ((9 <=? byte a) && (byte a <=? 13) || (byte a =? 32))%N
      with false.
    2:{ symmetry. apply orb_false_iff. split.
        - apply andb_false_iff. right. apply N.leb_gt. lia.
        - apply N.eqb_neq. lia. }
    replace (byte a =? 194)%N with false by (symmetry; apply N.eqb_neq; lia).
    cbn [andb].
    repeat match goal with
           | |- context [if ?x then _ else _] => destruct x
           end; intros Hs; try exact Hr; now destruct Hs.
  - pose proof (json_facts.ok4_lead _ _ _ _ Hk) as Hl. unfold spaceLen.
    replace ((9 <=? byte a) && (byte a <=? 13) || (byte a =? 32))%N
      with false.
    2:{ symmetry. apply orb_false_iff. split.
        - apply andb_false_iff. right. apply N.leb_gt. lia.
        - apply N.eqb_neq. lia. }
    replace (byte a =? 194)%N with false by (symmetry; apply N.eqb_neq; lia).
    replace (byte a =? 225)%N with false by (symmetry; apply N.eqb_neq; lia).
    replace (byte a =? 226)%N with false by (symmetry; apply N.eqb_neq; lia).
    replace (byte a =? 227)%N with false by (symmetry; apply N.eqb_neq; lia).
    cbn. intros Hs. now destruct Hs.
Qed.

Lemma Valid_trimLeft fuel : forall s,
  Valid s -> Valid (trimWith spaceLen fuel s).
Proof.
  induction fuel as [|fuel IH]; intros s H; cbn [trimWith]; [exact H|].
  destruct (spaceLen s) as [|n] eqn:Hn; [exact H|].
  apply IH. rewrite <- Hn. apply Valid_drop_space; [exact H | now rewrite Hn].
Qed.

Lemma ok2_cont x y : ok2 x y = true -> cont y = true.
Proof. unfold ok2. intros H. now apply andb_true_iff in H. Qed.

Lemma ok3_cont x y z : ok3 x y z = true -> cont y = true /\ cont z = true.
Proof.
  unfold ok3, cont. intros H. apply andb_true_iff in H. destruct H as [H Hz].
  split; [|exact Hz]. bools; apply andb_true_iff; split; apply N.leb_le; lia.
Qed.

Lemma ok4_cont x y z w :
  ok4 x y z w = true -> cont y = true /\ cont z = true /\ cont w = true.
Proof.
  unfold ok4, cont. intros H. apply andb_true_iff in H. destruct H as [H Hw].
  apply andb_true_iff in H. destruct H as [H Hz].
  split; [|split; assumption].
  bools; apply andb_true_iff; split; apply N.leb_le; lia.
Qed.

(** What stands before a rune boundary in a valid string is valid. *)
Lemma Valid_prefix s : Valid s -> forall p w, s = p ++ w -> lead w -> Valid p.
Proof.
  induction 1 as [| a r Ha _ IH | a b r Hk _ IH | a b c r Hk _ IH
                  | a b c d r Hk _ IH]; intros p w Hs Hw.
  - destruct p; [constructor | discriminate].
  - destruct p as [|a' p]; [constructor|]. inversion Hs; subst.
    apply valid_1; [exact Ha | now apply (IH p w)].
  - destruct p as [|a' [|b' p]]; [constructor | |].
    + cbn in Hs. inversion Hs; subst. cbn in Hw.
      rewrite (ok2_cont _ _ Hk) in Hw. discriminate.
    + inversion Hs; subst. apply valid_2; [exact Hk | now apply (IH p w)].
  - destruct (ok3_cont _ _ _ Hk) as [Hb Hc].
    destruct p as [|a' [|b' [|c' p]]]; [constructor | | |].
    + cbn in Hs. inversion Hs; subst. cbn in Hw. congruence.
    + cbn in Hs. inversion Hs; subst. cbn in Hw. congruence.
    + inversion Hs; subst. apply valid_3; [exact Hk | now apply (IH p w)].
  - destruct (ok4_cont _ _ _ _ Hk) as (Hb & Hc & Hd).
    destruct p as [|a' [|b' [|c' [|d' p]]]]; [constructor | | | |].
    + cbn in Hs. inversion Hs; subst. cbn in Hw. congruence.
    + cbn in Hs. inversion Hs; subst. cbn in Hw. congruence.
    + cbn in Hs. inversion Hs; subst. cbn in Hw. congruence.
    + inversion Hs; subst. apply valid_4; [exact Hk | now apply (IH p w)].
Qed.

Lemma rev_cons x r : strings.rev (String x r) = strings.rev r ++ String x "".
Proof. exact (rev_append (String x "") r). Qed.

(** White space at the end of a string starts at a rune boundary. *)
Lemma spaceLenRev_boundary t :
  spaceLenRev t <> 0%nat ->
  exists w, strings.rev t = strings.rev (drop (spaceLenRev t) t) ++ w /\ lead w.
Proof.
  unfold spaceLenRev. destruct t as [|x r]; [intros H; now destruct H|].
  destruct ((9 <=? byte x) && (byte x <=? 13) || (byte x =? 32))%N eqn:H1.
  { intros _. exists (String x ""). split; [apply rev_cons|].
    cbn. unfold cont. apply andb_false_iff. left. apply N.leb_gt.
    bools; lia. }
  destruct r as [|y r]; [intros H; now destruct H|].
  destruct ((byte y =? 194) && ((byte x =? 133) || (byte x =? 160)))%N eqn:H2.
  { intros _. exists (String y (String x "")). split.
    - cbn [drop]. rewrite !rev_cons, json_facts.append_assoc. reflexivity.
    - cbn. unfold cont. apply andb_false_iff. right. apply N.leb_gt.
      apply andb_true_iff in H2. destruct H2 as [H2 _].
      apply N.eqb_eq in H2. lia. }
  destruct r as [|z r]; [intros H; now destruct H|].
  assert (Hw : (225 <= byte z <= 227)%N ->
            exists w,
              strings.rev (String x (String y (String z r)))
              = strings.rev (drop 3 (String x (String y (String z r)))) ++ w
              /\ lead w).
  { intros Hz. exists (String z (String y (String x ""))). split.
    - cbn [drop]. rewrite !rev_cons, !json_facts.append_assoc. reflexivity.
    - cbn. unfold cont. apply andb_false_iff. right. apply N.leb_gt. lia. }
  destruct ((byte z =? 225) && (byte y =? 154) && (byte x =? 128))%N eqn:H3.
  { intros _. apply Hw.
    apply andb_true_iff in H3. destruct H3 as [H3 _].
    apply andb_true_iff in H3. destruct H3 as [H3 _].
    apply N.eqb_eq in H3. lia. }
  destruct ((byte z =? 226) && (byte y =? 128)
            && ((128 <=? byte x) && (byte x <=? 138) || (byte x =? 168)
                || (byte x =? 169) || (byte x =? 175)))%N eqn:H4.
  { intros _. apply Hw.
    apply andb_true_iff in H4. destruct H4 as [H4 _].
    apply andb_true_iff in H4. destruct H4 as [H4 _].
    apply N.eqb_eq in H4. lia. }
  destruct ((byte z =? 226) && (byte y =? 129) && (byte x =? 159))%N eqn:H5.
  { intros _. apply Hw.
    apply andb_true_iff in H5. destruct H5 as [H5 _].
    apply andb_true_iff in H5. destruct H5 as [H5 _].
    apply N.eqb_eq in H5. lia. }
  destruct ((byte z =? 227) && (byte y =? 128) && (byte x =? 128))%N eqn:H6.
  { intros _. apply Hw.
    apply andb_true_iff in H6. destruct H6 as [H6 _].
    apply andb_true_iff in H6. destruct H6 as [H6 _].
    apply N.eqb_eq in H6. lia. }
  intros H. now destruct H.
Qed.

Lemma Valid_trimRight fuel : forall t,
  Valid (strings.rev t) -> Valid (strings.rev (trimWith spaceLenRev fuel t)).
Proof.
  induction fuel as [|fuel IH]; intros t H; cbn [trimWith]; [exact H|].
  destruct (spaceLenRev t) as [|n] eqn:Hn; [exact H|].
  apply IH.
  destruct (spaceLenRev_boundary t) as [w [Hr Hw]]; [now rewrite Hn|].
  rewrite Hn in Hr. exact (Valid_prefix _ H _ _ Hr Hw).
Qed.

Lemma Valid_TrimSpace s : Valid s -> Valid (TrimSpace s).
Proof.
  intros H. unfold TrimSpace, TrimRightSpace.
  apply Valid_trimRight. rewrite rev_rev. now apply Valid_trimLeft.
Qed.

Lemma Valid_extract q :
  Forall (Forall Valid) (Output q) -> Valid (OutputText q) ->
  Valid (extract q).
Proof.
  intros Ho Ht. unfold extract.
  destruct (Output q) as [|[|text more] rest].
  - destruct (negb _); [now apply Valid_TrimSpace | constructor].
  - destruct (negb _); [now apply Valid_TrimSpace | constructor].
  - apply Valid_TrimSpace.
    inversion Ho as [|? ? Hh _]; subst. now inversion Hh.
Qed.

End utf8_trim.

(** X23.  Every fortune the program fetches is valid UTF-8 and is read
    back from the cache byte for byte.  The decoder of the response
    gives valid UTF-8, trimming keeps it valid and so does the marker;
    so with a disk that works, [loadCache] after [saveCache] returns
    the fortune [generateFortune] returned, exactly. *)
Theorem fetched_fortune_cached (E : Env) (p k m : string) (st st1 st2 : State)
  (f : string) :
  textDecoder E ->
  generateFortune E p k m st = (Ok f, st1) ->
  mkdirErr E = None -> cacheWriteErr E = None -> cacheReadErr E = None ->
  utf8.ValidString f = true
  /\ exists c, loadCache E (saveCache E f st2) = Ok c /\ Fortune c = f.
Proof.
  intros Hd Hg Hm Hw Hr.
  destruct (generateFortune_ok _ _ _ _ _ _ _ Hg) as [He _].
  assert (Hv : utf8.Valid f).
  { unfold generateFortune in Hg.
    destruct (isEmpty k); [discriminate|].
    destruct (Do E _) as [e|status body]; [discriminate|].
    destruct (300 <=? status); [discriminate|].
    destruct (decodeResponse E body) as [q|e] eqn:Hq; [|discriminate].
    destruct (isEmpty (extract q)); [discriminate|].
    inversion Hg; subst. destruct (Hd body q Hq) as [Ho Ht].
    apply utf8_trim.Valid_marker. now apply utf8_trim.Valid_extract. }
  split; [now apply utf8_trim.Valid_ValidString|].
  unfold saveCache, Now. rewrite He, Hm, Hw.
  unfold loadCache, readCacheFile. cbn [cacheFile setCache]. rewrite Hr.
  set (t := time.ofClock (clock E (tick st2))).
  destruct (Unmarshal_Marshal
              {| Fortune := f; Timestamp := float64_of_int64 (time.toUnix t) |}
              Hv (stored_timestamp_bound t)) as [ts Hu].
  rewrite Hu. cbn [Fortune]. rewrite He.
  eexists. split; reflexivity.
Qed.

Lemma fetched_fortune_cached_witness :
  utf8.ValidString (marker ++ "Good luck.") = true
  /\ exists c,
       loadCache Sample.E0
         (saveCache Sample.E0 (marker ++ "Good luck.") Sample.stCached) = Ok c
       /\ Fortune c = marker ++ "Good luck.".
Proof.
  apply (fetched_fortune_cached Sample.E0 "p" "sk-test" "m" Sample.st0
           (addCall {| reqModel := "m"; reqPrompt := "p"; reqKey := "sk-test" |}
              Sample.st0) Sample.stCached).
  - intros body q H. inversion H. split; [constructor|].
    apply json_facts.ValidString_Valid. reflexivity.
  - reflexivity.
  - reflexivity.
  - reflexivity.
  - reflexivity.
Defined.
